(** * kipu-core: electronic invoicing backend (SRI, Ecuador)

    Shallow embedding of the parts of the code base that decide the
    properties of the invoice-issuance pipeline:

    - [AccessKey]    utils/cryptoUtils.js: [modulo11], [generarClaveAcceso]
    - [Calculadora]  utils/calculadoraSri.js: [calcularTotalesEImpuestos]
                     (listed after workers/notifierService.js)
    - [Cifrado]      utils/cryptoUtils.js: [encrypt], [decrypt]
    - [Sistema]      the tables, the object store (services/storageService.js),
                     the webhook (workers/notifierService.js) and the
                     effects of a handler
    - [Integracion]  routes/integracion.js: POST /integrations/invoice
    - [Firma]        the invoicing service: [firmarYEnviarLote]
                     (listed after utils/cryptoUtils.js), with the last
                     step of the signer and the first reads of
                     services/rideService.js
    - [Worker]       workers/authWorker.js: [enviarFacturasAlSRI],
                     [autorizarFacturasSRI], and the runs that the
                     schedule of app.js starts
    - [Escenarios]   concrete worlds and requests
    - [Publico]      routes/public.js: GET /public/pdf and /public/xml
    - [Validacion]   routes/integracion.js: POST /integrations/validate
    - [Certificado]  the choice of the signing certificate and key of a P12
    - [Emit]         routes/invoices.js: POST /invoices/emit
    - [ApiKeys]      routes/apiKeys.js and middlewares/apiKeyAuth.js
    - [Admin]        routes/admin.js: POST /admin/topup behind serviceAuth

    The second half states and proves the properties, module by module.

    JavaScript strings are lists of characters ([list ascii]) where they
    are taken apart, [string] where they are only carried around, and
    lists of UTF-16 code units where their encoding matters. JavaScript
    numbers are IEEE-754 doubles. *)

From Stdlib Require Import ZArith QArith Qround Lia Lqa Floats.
From Stdlib Require Import Ascii String DecimalString.
From Stdlib Require SetoidList SetoidPermutation.
From stdpp Require Import gmap strings list sorting.

Local Open Scope Z_scope.

(* ===================================================================== *)
(** * Access-key builder *)
(* ===================================================================== *)

Module AccessKey.

Definition str := list ascii.

Definition lit (s : string) : str := list_ascii_of_string s.

(** [/\D/] is every character outside '0'..'9'. *)
Definition is_digit (c : ascii) : bool :=
  let n := nat_of_ascii c in (48 <=? n)%nat && (n <=? 57)%nat.

(** [parseInt] of a one-character string: [None] is NaN. *)
Definition parseInt_char (c : ascii) : option Z :=
  if is_digit c then Some (Z.of_nat (nat_of_ascii c) - 48) else None.

(** [String(n)] for an integer-valued number, ["NaN"] otherwise. *)
Definition number_toString (n : option Z) : str :=
  match n with
  | Some z => lit (NilZero.string_of_int (Z.to_int z))
  | None => lit "NaN"
  end.

(** The body of the [for] loop of [modulo11], running from the last
    character to the first: the list is the string reversed, the
    accumulator [suma] is [None] once it became NaN. *)
Fixpoint modulo11_loop (cadena_rev : str) (suma : option Z) (factor : Z)
  : option Z :=
  match cadena_rev with
  | [] => suma
  | c :: resto =>
      let suma' :=
        match suma, parseInt_char c with
        | Some s, Some d => Some (s + d * factor)
        | _, _ => None
        end in
      modulo11_loop resto suma' (if factor =? 7 then 2 else factor + 1)
  end.

Definition modulo11 (cadena : str) : option Z :=
  match modulo11_loop (rev cadena) (Some 0) 2 with
  | Some suma =>
      let verificador := 11 - Z.rem suma 11 in
      if verificador =? 11 then Some 0
      else if verificador =? 10 then Some 1
      else Some verificador
  | None => None
  end.

(** What luxon hands to the builder: the formatting of a caller-supplied
    ISO date and the three formattings of the current Guayaquil time. *)
Record Luxon := {
  fromISO_ddMMyyyy : str -> str;
  ahora_ddMMyyyy : str;
  ahora_HHmmss : str;
  ahora_SSS : str
}.

Definition limpiar (val : str) : str := List.filter is_digit val.

Definition padStart (n : nat) (s : str) : str :=
  replicate (n - length s) "0"%char ++ s.

Definition substring0 (n : nat) (s : str) : str := take n s.

Inductive resultado :=
| Clave (claveFinal : str)
| ErrorClaveBase (longitud : nat) (clave48 : str).

(** [fecha] is [None] for a missing (falsy) date; [codigoNumerico] is
    [None] for [null]. The empty string is falsy as well. *)
Definition truthy (s : option str) : option str :=
  match s with
  | Some [] => None
  | other => other
  end.

Definition finalFecha_de (lx : Luxon) (fecha : option str) : str :=
  match truthy fecha with
  | Some f => if decide (f = lit "now") then ahora_ddMMyyyy lx
              else fromISO_ddMMyyyy lx f
  | None => ahora_ddMMyyyy lx
  end.

Definition codigoFinal_de (lx : Luxon) (codigoNumerico : option str) : str :=
  match truthy codigoNumerico with
  | Some c => c
  | None => ahora_HHmmss lx ++ substring0 2 (ahora_SSS lx)
  end.

Definition clave_base (lx : Luxon)
    (fecha : option str) (tipoComprobante ruc ambiente serie secuencial : str)
    (codigoNumerico : option str) : str :=
  let finalFecha := finalFecha_de lx fecha in
  let codigoFinal := codigoFinal_de lx codigoNumerico in
  let p1_fecha := substring0 8 (limpiar finalFecha) in
  let p2_tipo := substring0 2 (padStart 2 (limpiar tipoComprobante)) in
  let p3_ruc := substring0 13 (limpiar ruc) in
  let p4_amb := substring0 1 (limpiar ambiente) in
  let p5_serie := substring0 6 (padStart 6 (limpiar serie)) in
  let p6_sec := substring0 9 (padStart 9 (limpiar secuencial)) in
  let p7_cod := substring0 8 (padStart 8 (limpiar codigoFinal)) in
  let p8_emi := lit "1" in
  p1_fecha ++ p2_tipo ++ p3_ruc ++ p4_amb ++ p5_serie ++ p6_sec ++ p7_cod
    ++ p8_emi.

Definition generarClaveAcceso (lx : Luxon)
    (fecha : option str) (tipoComprobante ruc ambiente serie secuencial : str)
    (codigoNumerico : option str) : resultado :=
  let clave48 :=
    clave_base lx fecha tipoComprobante ruc ambiente serie secuencial
      codigoNumerico in
  if negb (length clave48 =? 48)%nat then
    ErrorClaveBase (length clave48) clave48
  else
    let digitoVerificador := modulo11 clave48 in
    Clave (clave48 ++ number_toString digitoVerificador).

(** ** The check digit as the specification words it *)

(** Weight of the digit at distance [i] from the right end: 2,3,..,7,2,.. *)
Definition peso (i : nat) : Z := 2 + Z.of_nat (i mod 6).

Fixpoint suma_ponderada (digitos_rev : list Z) (i : nat) : Z :=
  match digitos_rev with
  | [] => 0
  | d :: resto => d * peso i + suma_ponderada resto (S i)
  end.

Definition digito_spec (digitos : list Z) : Z :=
  let v := 11 - (suma_ponderada (rev digitos) 0) mod 11 in
  if v =? 11 then 0 else if v =? 10 then 1 else v.

Definition valor_digito (c : ascii) : Z := Z.of_nat (nat_of_ascii c) - 48.

Definition digitos (s : str) : Prop := Forall (fun c => is_digit c = true) s.

(** A clock reading used in the examples. *)
Definition reloj_ejemplo : Luxon :=
  {| fromISO_ddMMyyyy := fun _ => lit "23022026";
     ahora_ddMMyyyy := lit "02112026";
     ahora_HHmmss := lit "101112";
     ahora_SSS := lit "345" |}.

End AccessKey.

(* ===================================================================== *)
(** * Tax calculator *)
(* ===================================================================== *)

Module Calculadora.

(** The operations of JavaScript numbers the calculator uses. Two
    instances follow: exact rationals, to tell what is due to the
    formatting from what is due to the rounding of the arithmetic, and
    IEEE-754 binary64, the numbers the program runs on and on which its
    properties are stated.

    [toFixed2 x] stands for the string [x.toFixed(2)]: it is the number
    of hundredths that string denotes, [None] for "NaN" and the
    infinities. [clave_igual a b] says that [a] and [b] name the same
    property of an object ([String(a) = String(b)]); [indice a] is
    [Some i] when that property name is the array index [i]. *)
Class Numero (num : Type) := {
  de_Z : Z -> num;
  add : num -> num -> num;
  sub : num -> num -> num;
  mul : num -> num -> num;
  div : num -> num -> num;
  lt : num -> num -> bool;
  eq_estricto : num -> num -> bool;
  falsy : num -> bool;
  clave_igual : num -> num -> bool;
  indice : num -> option N;
  toFixed2 : num -> option Z
}.

(** [a || b] on optional values: [None] is [undefined]. *)
Definition js_or {A} (es_falsy : A -> bool) (a b : option A) : option A :=
  match a with
  | Some x => if es_falsy x then b else a
  | None => b
  end.

Definition cadena_falsy (s : string) : bool :=
  if decide (s = ""%string) then true else false.

Section Calculo.
Context {num : Type} `{Numero num}.

(** A line item of the request. The numeric fields hold the number that
    [parseFloat] reads from them; [None] is a field that is absent. *)
Record Item := {
  cantidad : num;
  precioUnitario : option num;
  precio : option num;
  descuento : option num;
  tarifaIva : option num;
  impuestos : option (list (option num));  (* the [tarifa] of each entry *)
  codigoPrincipal : option string;
  codigo : option string;
  descripcion : option string;
  nombre : option string
}.

Record InfoSri := { sri_codigo : string; sri_codigoPorcentaje : string }.

Definition CODIGOS_IVA : list (Z * InfoSri) :=
  [ (0,  {| sri_codigo := "2"; sri_codigoPorcentaje := "0" |});
    (12, {| sri_codigo := "2"; sri_codigoPorcentaje := "2" |});
    (15, {| sri_codigo := "2"; sri_codigoPorcentaje := "4" |});
    (5,  {| sri_codigo := "2"; sri_codigoPorcentaje := "5" |}) ].

(** [CODIGOS_IVA[tarifa]] *)
Definition CODIGOS_IVA_get (tarifa : num) : option InfoSri :=
  snd <$> List.find (fun e => clave_igual tarifa (de_Z (fst e))) CODIGOS_IVA.

Definition CODIGOS_IVA_0 : InfoSri :=
  {| sri_codigo := "2"; sri_codigoPorcentaje := "0" |}.

(** One entry of [impuestosAcumulados]; its key is [imp_tarifa]. *)
Record Acumulado := {
  imp_codigo : string;
  imp_codigoPorcentaje : string;
  imp_baseImponible : num;
  imp_valor : num;
  imp_tarifa : num
}.

Record Impuesto := {
  d_codigo : string;
  d_codigoPorcentaje : string;
  d_tarifa : num;                 (* printed with [toString] *)
  d_baseImponible : option Z;
  d_valor : option Z
}.

Record Detalle := {
  det_codigoPrincipal : option string;
  det_descripcion : option string;
  det_cantidad : option Z;
  det_precioUnitario : option Z;
  det_descuento : option Z;
  det_precioTotalSinImpuesto : option Z;
  det_impuesto : Impuesto
}.

Record TotalImpuesto := {
  t_codigo : string;
  t_codigoPorcentaje : string;
  t_baseImponible : option Z;
  t_valor : option Z
}.

Record Totales := {
  totalSinImpuestos : option Z;
  totalDescuento : option Z;
  importeTotal : option Z;
  totalIva : option Z;
  subtotal_0 : option Z;
  subtotal_iva : option Z
}.

Record Resultado := {
  detallesXml : list Detalle;
  totalConImpuestosXml : list TotalImpuesto;
  totales : Totales
}.

(** The variables the [map] callback closes over. The object
    [impuestosAcumulados] is the list of its entries in insertion order. *)
Record Acum := {
  ac_totalSinImpuestos : num;
  ac_totalDescuento : num;
  impuestosAcumulados : list Acumulado
}.

Definition o_num (o : option num) : num := default (de_Z 0) o.

(** The tariff after normalisation (0.15 becomes 15). *)
Definition tarifa_de (item : Item) : num :=
  let tarifaRaw :=
    match tarifaIva item with
    | Some t => t
    | None =>
        match impuestos item with
        | Some (imp0 :: _) => o_num (js_or falsy imp0 (Some (de_Z 0)))
        | _ => de_Z 0
        end
    end in
  if lt (de_Z 0) tarifaRaw && lt tarifaRaw (de_Z 1)
  then mul tarifaRaw (de_Z 100) else tarifaRaw.

Definition base_de (item : Item) : num :=
  let precioUnitario' :=
    o_num (js_or falsy (js_or falsy (precioUnitario item) (precio item))
                 (Some (de_Z 0))) in
  let descuento' := o_num (js_or falsy (descuento item) (Some (de_Z 0))) in
  sub (mul (cantidad item) precioUnitario') descuento'.

(** [impuestosAcumulados[tarifa].baseImponible += base; .valor += valor],
    after the entry was created when it was missing. *)
Fixpoint acumular (imps : list Acumulado) (tarifa : num) (infoSri : InfoSri)
    (base valor : num) : list Acumulado :=
  match imps with
  | [] =>
      [ {| imp_codigo := sri_codigo infoSri;
           imp_codigoPorcentaje := sri_codigoPorcentaje infoSri;
           imp_baseImponible := add (de_Z 0) base;
           imp_valor := add (de_Z 0) valor;
           imp_tarifa := tarifa |} ]
  | imp :: resto =>
      if clave_igual (imp_tarifa imp) tarifa then
        {| imp_codigo := imp_codigo imp;
           imp_codigoPorcentaje := imp_codigoPorcentaje imp;
           imp_baseImponible := add (imp_baseImponible imp) base;
           imp_valor := add (imp_valor imp) valor;
           imp_tarifa := imp_tarifa imp |} :: resto
      else imp :: acumular resto tarifa infoSri base valor
  end.

(** One call of the [items.map] callback. *)
Definition procesar_item (ac : Acum) (item : Item) : Acum * Detalle :=
  let cantidad' := cantidad item in
  let precioUnitario' :=
    o_num (js_or falsy (js_or falsy (precioUnitario item) (precio item))
                 (Some (de_Z 0))) in
  let descuento' := o_num (js_or falsy (descuento item) (Some (de_Z 0))) in
  let precioTotalSinImpuesto := sub (mul cantidad' precioUnitario') descuento' in
  let tarifa := tarifa_de item in
  let infoSri := default CODIGOS_IVA_0 (CODIGOS_IVA_get tarifa) in
  let valorImpuesto := mul precioTotalSinImpuesto (div tarifa (de_Z 100)) in
  ( {| ac_totalSinImpuestos := add (ac_totalSinImpuestos ac) precioTotalSinImpuesto;
       ac_totalDescuento := add (ac_totalDescuento ac) descuento';
       impuestosAcumulados :=
         acumular (impuestosAcumulados ac) tarifa infoSri precioTotalSinImpuesto
           valorImpuesto |},
    {| det_codigoPrincipal :=
         js_or cadena_falsy (codigoPrincipal item) (codigo item);
       det_descripcion := js_or cadena_falsy (descripcion item) (nombre item);
       det_cantidad := toFixed2 cantidad';
       det_precioUnitario := toFixed2 precioUnitario';
       det_descuento := toFixed2 descuento';
       det_precioTotalSinImpuesto := toFixed2 precioTotalSinImpuesto;
       det_impuesto :=
         {| d_codigo := sri_codigo infoSri;
            d_codigoPorcentaje := sri_codigoPorcentaje infoSri;
            d_tarifa := tarifa;
            d_baseImponible := toFixed2 precioTotalSinImpuesto;
            d_valor := toFixed2 valorImpuesto |} |} ).

Fixpoint recorrer (items : list Item) (ac : Acum) : Acum * list Detalle :=
  match items with
  | [] => (ac, [])
  | item :: resto =>
      let '(ac1, det) := procesar_item ac item in
      let '(ac2, dets) := recorrer resto ac1 in
      (ac2, det :: dets)
  end.

(** [Object.values]: the entries whose key is an array index come first,
    in ascending order of the index, the others follow in insertion order. *)
Definition indice_de (imp : Acumulado) : N := default 0%N (indice (imp_tarifa imp)).

Fixpoint insertar_por_indice (imp : Acumulado) (orden : list Acumulado)
  : list Acumulado :=
  match orden with
  | [] => [imp]
  | x :: resto =>
      if (indice_de imp <=? indice_de x)%N then imp :: orden
      else x :: insertar_por_indice imp resto
  end.

Definition ordenar_por_indice (imps : list Acumulado) : list Acumulado :=
  foldr insertar_por_indice [] imps.

Definition es_indice (imp : Acumulado) : bool :=
  match indice (imp_tarifa imp) with Some _ => true | None => false end.

Definition Object_values (imps : list Acumulado) : list Acumulado :=
  ordenar_por_indice (List.filter es_indice imps)
  ++ List.filter (fun imp => negb (es_indice imp)) imps.

Definition totalIvaGeneral_de (imps : list Acumulado) : num :=
  fold_left (fun sum imp => add sum (imp_valor imp)) (Object_values imps) (de_Z 0).

(** The [forEach] that splits the taxable bases: [(subtotal_0, subtotal_iva)]. *)
Definition subtotales_de (imps : list Acumulado) : num * num :=
  fold_left
    (fun '(s0, siva) imp =>
       if eq_estricto (imp_tarifa imp) (de_Z 0)
       then (add s0 (imp_baseImponible imp), siva)
       else (s0, add siva (imp_baseImponible imp)))
    (Object_values imps) (de_Z 0, de_Z 0).

Definition calcularTotalesEImpuestos (items : list Item) : Resultado :=
  let '(ac, dets) :=
    recorrer items
      {| ac_totalSinImpuestos := de_Z 0; ac_totalDescuento := de_Z 0;
         impuestosAcumulados := [] |} in
  let imps := impuestosAcumulados ac in
  let totalIvaGeneral := totalIvaGeneral_de imps in
  let importeTotal' := add (ac_totalSinImpuestos ac) totalIvaGeneral in
  let '(subtotal_0', subtotal_iva') := subtotales_de imps in
  {| detallesXml := dets;
     totalConImpuestosXml :=
       map (fun imp =>
              {| t_codigo := imp_codigo imp;
                 t_codigoPorcentaje := imp_codigoPorcentaje imp;
                 t_baseImponible := toFixed2 (imp_baseImponible imp);
                 t_valor := toFixed2 (imp_valor imp) |})
           (Object_values imps);
     totales :=
       {| totalSinImpuestos := toFixed2 (ac_totalSinImpuestos ac);
          totalDescuento := toFixed2 (ac_totalDescuento ac);
          importeTotal := toFixed2 importeTotal';
          totalIva := toFixed2 totalIvaGeneral;
          subtotal_0 := toFixed2 subtotal_0';
          subtotal_iva := toFixed2 subtotal_iva' |} |}.

End Calculo.

Arguments Item num : clear implicits.
Arguments Acumulado num : clear implicits.
Arguments Acum num : clear implicits.
Arguments Detalle num : clear implicits.
Arguments Resultado num : clear implicits.

(** ** Exact rationals *)

(** Rounding to the nearest integer, halves away from zero: the integer
    [n] of [Number.prototype.toFixed] for which [n / 100 - x] is closest to
    zero, the larger one at a tie, after the sign was set aside. *)
Definition redondear (x : Q) : Z :=
  if Qle_bool 0 x then Qfloor (x + (1 # 2)) else - Qfloor (- x + (1 # 2)).

Definition toFixed2_Q (x : Q) : Z := redondear (x * 100).

(** Property names that are array indices: the integers [0 .. 2^32 - 2]. *)
Definition indice_Q (q : Q) : option N :=
  let r := Qred q in
  if (Qden r =? 1)%positive && (0 <=? Qnum r) && (Qnum r <? 2 ^ 32 - 1)
  then Some (Z.to_N (Qnum r)) else None.

#[global] Instance Numero_Q : Numero Q := {|
  de_Z := inject_Z;
  add := Qplus;
  sub := Qminus;
  mul := Qmult;
  div := Qdiv;
  lt := fun a b => negb (Qle_bool b a);
  eq_estricto := Qeq_bool;
  falsy := fun a => Qeq_bool a 0;
  clave_igual := Qeq_bool;
  indice := indice_Q;
  toFixed2 := fun a => Some (toFixed2_Q a)
|}.

(** ** IEEE-754 binary64 *)

(** The exact value of a finite double. *)
Definition valor_exacto (f : float) : option Q :=
  match Prim2SF f with
  | S754_zero _ => Some 0%Q
  | S754_finite s m e =>
      Some ((if s then - (1) else 1) * inject_Z (Z.pos m) * Qpower 2 e)%Q
  | S754_infinity _ | S754_nan => None
  end.

#[global] Instance Numero_float : Numero float := {|
  de_Z := fun z => PrimFloat.of_uint63 (Uint63.of_Z z);
  add := PrimFloat.add;
  sub := PrimFloat.sub;
  mul := PrimFloat.mul;
  div := PrimFloat.div;
  lt := PrimFloat.ltb;
  eq_estricto := PrimFloat.eqb;
  falsy := fun a => PrimFloat.eqb a 0%float || PrimFloat.is_nan a;
  clave_igual := fun a b =>
    PrimFloat.eqb a b || (PrimFloat.is_nan a && PrimFloat.is_nan b);
  indice := fun a => valor_exacto a ≫= indice_Q;
  toFixed2 := fun a => toFixed2_Q <$> valor_exacto a
|}.

(** ** Vocabulary of the properties *)

Definition suma_Q (l : list Q) : Q := foldr Qplus 0%Q l.

Definition suma_Z (l : list Z) : Z := foldr Z.add 0 l.

(** The tax of one line before any rounding. *)
Definition valor_de (item : Item Q) : Q :=
  (base_de item * (tarifa_de item / 100))%Q.

(** The formatted amounts of a list, when all of them are numbers. *)
Definition centavos (l : list (option Z)) : option (list Z) := mapM id l.











(** A line given by quantity, unit price and tariff. *)
Definition linea {num} (cantidad precioUnitario tarifaIva : num) : Item num :=
  {| cantidad := cantidad; precioUnitario := Some precioUnitario;
     precio := None; descuento := None; tarifaIva := Some tarifaIva;
     impuestos := None; codigoPrincipal := None; codigo := None;
     descripcion := None; nombre := None |}.

#[local] Set Warnings "-inexact-float".



(** A line of 1e16 at 0% and a line of 1 at 15%. *)
Definition grande_y_pequena : list (Item float) :=
  [linea 1 1e16 0; linea 1 1 15]%float.

(** A line whose quantity is not a number. *)
Definition cantidad_NaN : list (Item float) := [linea nan 1 15]%float.

(** One line of 100.00 at the unsupported tariff 50. *)
Definition tarifa_50_Q : list (Item Q) := [linea 1 100 50]%Q.
Definition tarifa_50_float : list (Item float) := [linea 1 100 50]%float.

End Calculadora.

(* ===================================================================== *)
(** * Password encryption at rest *)
(* ===================================================================== *)

Module Cifrado.

Import AccessKey.

(** A [Buffer] is a list of bytes. *)
Definition Buffer := list ascii.

Definition IV_LENGTH : nat := 16.

(** *** 'hex' encoding *)

Definition hex_digit (n : N) : ascii :=
  if (n <? 10)%N then ascii_of_N (48 + n) else ascii_of_N (87 + n).

Definition hex_valor_N (n : N) : option N :=
  if (48 <=? n)%N && (n <=? 57)%N then Some (n - 48)%N
  else if (97 <=? n)%N && (n <=? 102)%N then Some (n - 87)%N
  else if (65 <=? n)%N && (n <=? 70)%N then Some (n - 55)%N
  else None.

Definition hex_valor (c : ascii) : option N := hex_valor_N (N_of_ascii c).

(** [buf.toString('hex')] *)
Fixpoint toString_hex (b : Buffer) : str :=
  match b with
  | [] => []
  | x :: resto =>
      let n := N_of_ascii x in
      hex_digit (n / 16) :: hex_digit (n mod 16) :: toString_hex resto
  end.

(** [Buffer.from(s, 'hex')]: decoding stops at the first pair that is not
    two hexadecimal digits; a trailing single character is dropped. *)
Fixpoint Buffer_from_hex (s : str) : Buffer :=
  match s with
  | a :: b :: resto =>
      match hex_valor a, hex_valor b with
      | Some h, Some l => ascii_of_N (16 * h + l) :: Buffer_from_hex resto
      | _, _ => []
      end
  | _ => []
  end.

(** *** [String.prototype.split] and [Array.prototype.join] on one
    separator character *)

Section Separador.
Context {A : Type} `{EqDecision A}.

Fixpoint split (sep : A) (s : list A) : list (list A) :=
  match s with
  | [] => [[]]
  | c :: resto =>
      if decide (c = sep) then [] :: split sep resto
      else match split sep resto with
           | p :: ps => (c :: p) :: ps
           | [] => [[c]]
           end
  end.

Fixpoint join (sep : A) (parts : list (list A)) : list A :=
  match parts with
  | [] => []
  | [p] => p
  | p :: ps => p ++ sep :: join sep ps
  end.

Definition includes (c : A) (s : list A) : bool :=
  existsb (fun x => bool_decide (x = c)) s.

End Separador.

Arguments split {A}%_type_scope {_} sep%_char_scope s%_list_scope.
Arguments join {A}%_type_scope sep%_char_scope parts%_list_scope.
Arguments includes {A}%_type_scope {_} c%_char_scope s%_list_scope.

(** *** JavaScript strings and their UTF-8 encoding

    The text that [encrypt] and [decrypt] handle is a JavaScript string:
    a sequence of UTF-16 code units, numbers below 65536. The cipher
    works on bytes: [cipher.update(text, 'utf8', ...)] encodes the
    string in UTF-8, and [decipher.update(..., 'utf8')] followed by
    [decipher.final('utf8')] decodes the bytes. *)
Definition cadena := list N.

(** A string of the file as a JavaScript string, one unit for each of
    its characters. *)
Definition unidades (s : str) : cadena := N_of_ascii <$> s.

Definition DOS_PUNTOS : N := 58.

Local Open Scope N_scope.

Definition es_alto (u : N) : bool := (0xD800 <=? u) && (u <=? 0xDBFF).
Definition es_bajo (u : N) : bool := (0xDC00 <=? u) && (u <=? 0xDFFF).

(** No unit of the string is a surrogate without its partner. *)
Fixpoint bien_formada (s : cadena) : bool :=
  match s with
  | [] => true
  | u :: resto =>
      if es_alto u then
        match resto with
        | v :: resto' => es_bajo v && bien_formada resto'
        | [] => false
        end
      else negb (es_bajo u) && (u <? 0x10000) && bien_formada resto
  end.

(** The bytes of one code point. *)
Definition utf8_de_punto (cp : N) : Buffer :=
  if cp <? 0x80 then [ascii_of_N cp]
  else if cp <? 0x800 then
    [ascii_of_N (0xC0 + cp / 64); ascii_of_N (0x80 + cp mod 64)]
  else if cp <? 0x10000 then
    [ascii_of_N (0xE0 + cp / 4096); ascii_of_N (0x80 + (cp / 64) mod 64);
     ascii_of_N (0x80 + cp mod 64)]
  else
    [ascii_of_N (0xF0 + cp / 262144); ascii_of_N (0x80 + (cp / 4096) mod 64);
     ascii_of_N (0x80 + (cp / 64) mod 64); ascii_of_N (0x80 + cp mod 64)].

(** U+FFFD, which stands for what cannot be encoded or decoded. *)
Definition REEMPLAZO : N := 0xFFFD.

(** Encoding: a pair of surrogates is one code point of four bytes, a
    surrogate without partner is replaced by U+FFFD. *)
Fixpoint utf8_encode (s : cadena) : Buffer :=
  match s with
  | [] => []
  | u :: resto =>
      if es_alto u then
        match resto with
        | v :: resto' =>
            if es_bajo v then
              utf8_de_punto (0x10000 + (u - 0xD800) * 0x400 + (v - 0xDC00))
              ++ utf8_encode resto'
            else utf8_de_punto REEMPLAZO ++ utf8_encode resto
        | [] => utf8_de_punto REEMPLAZO
        end
      else if es_bajo u then utf8_de_punto REEMPLAZO ++ utf8_encode resto
      else utf8_de_punto u ++ utf8_encode resto
  end%list.

Definition continua (b : N) : bool := (0x80 <=? b) && (b <=? 0xBF).

Definition unidades_de_punto (cp : N) : cadena :=
  if cp <? 0x10000 then [cp]
  else [0xD800 + (cp - 0x10000) / 0x400; 0xDC00 + (cp - 0x10000) mod 0x400].

(** Decoding of well-formed UTF-8: [None] when the bytes are not the
    encoding of a sequence of code points (a stray or missing
    continuation byte, an overlong form, a surrogate, a value beyond
    U+10FFFF). *)
Fixpoint utf8_decode_estricto (b : Buffer) : option cadena :=
  match b with
  | [] => Some []
  | x0 :: r0 =>
      let b0 := N_of_ascii x0 in
      if b0 <? 0x80 then cons b0 <$> utf8_decode_estricto r0
      else if b0 <? 0xE0 then
        match r0 with
        | x1 :: r1 =>
            let b1 := N_of_ascii x1 in
            let cp := (b0 - 0xC0) * 64 + (b1 - 0x80) in
            if (0xC2 <=? b0) && continua b1
            then cons cp <$> utf8_decode_estricto r1
            else None
        | _ => None
        end
      else if b0 <? 0xF0 then
        match r0 with
        | x1 :: x2 :: r2 =>
            let b1 := N_of_ascii x1 in
            let b2 := N_of_ascii x2 in
            let cp := (b0 - 0xE0) * 4096 + (b1 - 0x80) * 64 + (b2 - 0x80) in
            if continua b1 && continua b2 && (0x800 <=? cp)
               && negb (es_alto cp || es_bajo cp)
            then cons cp <$> utf8_decode_estricto r2
            else None
        | _ => None
        end
      else
        match r0 with
        | x1 :: x2 :: x3 :: r3 =>
            let b1 := N_of_ascii x1 in
            let b2 := N_of_ascii x2 in
            let b3 := N_of_ascii x3 in
            let cp := (b0 - 0xF0) * 262144 + (b1 - 0x80) * 4096
                      + (b2 - 0x80) * 64 + (b3 - 0x80) in
            if (b0 <=? 0xF4) && continua b1 && continua b2 && continua b3
               && (0x10000 <=? cp) && (cp <=? 0x10FFFF)
            then app (unidades_de_punto cp) <$> utf8_decode_estricto r3
            else None
        | _ => None
        end
  end.

Local Close Scope N_scope.

(** [Buffer.from(s, 'hex')] on a JavaScript string. *)
Fixpoint Buffer_from_hex_cadena (s : cadena) : Buffer :=
  match s with
  | a :: b :: resto =>
      match hex_valor_N a, hex_valor_N b with
      | Some h, Some l => ascii_of_N (16 * h + l) :: Buffer_from_hex_cadena resto
      | _, _ => []
      end
  | _ => []
  end.

Section Primitivas.

(** The primitives of node's [crypto] module.
    [aes_256_cbc_cifrar key iv datos] is [cipher.update(datos)] followed by
    [cipher.final()]; [aes_256_cbc_descifrar] is [None] when
    [decipher.final()] throws. [utf8_con_reemplazo] is what the decoder
    makes of bytes that are not well-formed UTF-8, with U+FFFD in the
    place of what it cannot decode. *)
Variable sha256 : Buffer -> Buffer.
Variable aes_256_cbc_cifrar : Buffer -> Buffer -> Buffer -> Buffer.
Variable aes_256_cbc_descifrar : Buffer -> Buffer -> Buffer -> option Buffer.
Variable trim : cadena -> cadena.
Variable utf8_con_reemplazo : Buffer -> cadena.

(** [process.env.ENCRYPTION_KEY]: [None] when the variable is not set. *)
Variable KEY_VAL : option cadena.

(** [buf.toString('utf8')] *)
Definition utf8_decode (b : Buffer) : cadena :=
  default (utf8_con_reemplazo b) (utf8_decode_estricto b).

(** A value that may be [null]; the empty string is falsy too. *)
Definition es_falsy (text : option cadena) : bool :=
  match text with
  | None | Some [] => true
  | Some _ => false
  end.

(** [createHash('sha256').update(cleanKey).digest()] *)
Definition ENCRYPTION_KEY : option Buffer :=
  if es_falsy KEY_VAL then None
  else
    let cleanKey := trim (default [] KEY_VAL) in
    Some (sha256 (utf8_encode cleanKey)).

(** [iv] is the value drawn by [crypto.randomBytes(IV_LENGTH)]. *)
Definition encrypt (iv : Buffer) (text : option cadena) : option cadena :=
  match ENCRYPTION_KEY, text with
  | Some key, Some t =>
      if es_falsy text then text
      else
        let encrypted :=
          unidades (toString_hex (aes_256_cbc_cifrar key iv (utf8_encode t))) in
        Some (unidades (toString_hex iv) ++ DOS_PUNTOS :: encrypted)
  | _, _ => text
  end.

(** [decipher.update(encryptedHex, 'hex', 'utf8') + decipher.final('utf8')]:
    a hexadecimal string of odd length is refused with an exception
    ([validateEncoding]). *)
Definition descifrar_hex (key iv : Buffer) (encryptedHex : cadena)
  : option cadena :=
  if Nat.odd (length encryptedHex) then None
  else utf8_decode
         <$> aes_256_cbc_descifrar key iv (Buffer_from_hex_cadena encryptedHex).

(** The body of the [try] block of [decrypt]: [None] is a thrown
    exception, [Some r] the value returned. *)
Definition decrypt_try (key : Buffer) (t : cadena) : option (option cadena) :=
  match split DOS_PUNTOS t with
  | [] => Some (Some t)
  | ivHex :: parts =>
      let encryptedHex := join DOS_PUNTOS parts in
      if es_falsy (Some ivHex) || es_falsy (Some encryptedHex) then Some (Some t)
      else
        let iv := Buffer_from_hex_cadena ivHex in
        if negb (length iv =? IV_LENGTH)%nat then Some (Some t)
        else
          match descifrar_hex key iv encryptedHex with
          | Some decrypted => Some (Some decrypted)
          | None => None
          end
  end.

Definition decrypt (text : option cadena) : option cadena :=
  match ENCRYPTION_KEY, text with
  | Some key, Some t =>
      if es_falsy text then text
      else if negb (includes DOS_PUNTOS t) then text
      else
        match decrypt_try key t with
        | Some r => r
        | None => text         (* catch (e) { return text; } *)
        end
  | _, _ => text
  end.

End Primitivas.

(** The stored values on which [decrypt] gives up: the separator is
    missing, the part before it does not decode to an IV of 16 bytes,
    the rest has an odd number of characters, or the decipher throws
    (damaged ciphertext, or a key under which the padding does not come
    out right). *)
Definition no_descifrable
    (aes_256_cbc_descifrar : Buffer -> Buffer -> Buffer -> option Buffer)
    (key : Buffer) (t : cadena) : Prop :=
  includes DOS_PUNTOS t = false
  \/ exists ivHex parts,
       split DOS_PUNTOS t = ivHex :: parts
       /\ (length (Buffer_from_hex_cadena ivHex) <> IV_LENGTH
           \/ Nat.odd (length (join DOS_PUNTOS parts)) = true
           \/ aes_256_cbc_descifrar key (Buffer_from_hex_cadena ivHex)
                (Buffer_from_hex_cadena (join DOS_PUNTOS parts)) = None).

(** A stand-in for the cipher, to run the definitions on: it marks the
    data instead of enciphering them. *)
Definition cifrar_marca (key iv datos : Buffer) : Buffer := "#"%char :: datos.

Definition descifrar_marca (key iv cifrado : Buffer) : option Buffer :=
  match cifrado with
  | c :: datos => if decide (c = "#"%char) then Some datos else None
  | [] => None
  end.

(** A stand-in for the decoder on bytes that are not well-formed. *)
Definition solo_reemplazo (b : Buffer) : cadena := [REEMPLAZO].

End Cifrado.

(* ===================================================================== *)
(** * The database, the object store and the effects of the handlers *)
(* ===================================================================== *)

Module Sistema.

(** ** Tables *)

Record Emisor := {
  e_ruc : string;
  e_ambiente : string;
  e_p12_path : option string;
  e_p12_pass : option string
}.

(** [puntos_emision] joined with its [establecimientos] row. *)
Record PuntoEmision := {
  pe_emisor_id : Z;
  pe_estab_codigo : string;
  pe_codigo : string;
  pe_direccion : option string;
  pe_secuencial_actual : Z
}.

Record Invoice := {
  i_id : Z;
  i_emisor_id : Z;
  i_punto_emision_id : Z;
  i_secuencial : option string;
  i_clave_acceso : string;
  i_estado : string;
  i_importe_total : option Z;
  i_xml_path : option string;
  i_pdf_path : option string;
  i_mensajes_sri : option string;
  i_fecha_envio_sri : option Z;
  i_fecha_autorizacion : option string;
  i_created_at : Z
}.

Record Profile := { p_id : string; p_emisor_id : option Z }.

Record DB := {
  emisores : gmap Z Emisor;
  user_credits : gmap Z Z;             (* emisor_id -> balance *)
  profiles : list Profile;
  puntos_emision : gmap Z PuntoEmision;
  invoices : list Invoice              (* in insertion order *)
}.

(** The body of a webhook call. *)
Record Notificacion := {
  n_user_id : string;
  n_invoice_id : Z;
  n_clave_acceso : string;
  n_estado : string;
  n_mensaje_sri : option string
}.

(** Everything a handler can change: the committed database with the
    snapshot to which an open transaction of [client] rolls back, the
    objects of the store by bucket and key, and the webhook calls made. *)
Record Mundo := {
  db : DB;
  tx : option DB;
  minio : gmap (string * string) string;
  webhooks : list Notificacion
}.

Definition con_db (f : DB -> DB) (w : Mundo) : Mundo :=
  {| db := f (db w); tx := tx w; minio := minio w; webhooks := webhooks w |}.

Definition con_invoices (f : list Invoice -> list Invoice) (d : DB) : DB :=
  {| emisores := emisores d; user_credits := user_credits d;
     profiles := profiles d; puntos_emision := puntos_emision d;
     invoices := f (invoices d) |}.

Definition con_user_credits (f : gmap Z Z -> gmap Z Z) (d : DB) : DB :=
  {| emisores := emisores d; user_credits := f (user_credits d);
     profiles := profiles d; puntos_emision := puntos_emision d;
     invoices := invoices d |}.

Definition con_puntos_emision
    (f : gmap Z PuntoEmision -> gmap Z PuntoEmision) (d : DB) : DB :=
  {| emisores := emisores d; user_credits := user_credits d;
     profiles := profiles d; puntos_emision := f (puntos_emision d);
     invoices := invoices d |}.

(** ** Handlers: state and exceptions *)

Inductive Res (A : Type) :=
| Ok (a : A)
| Throw (err : string).
Arguments Ok {A} a.
Arguments Throw {A} err.

Definition M (S A : Type) : Type := S -> Res A * S.

Definition ret {S A} (a : A) : M S A := fun s => (Ok a, s).

Definition bind {S A B} (m : M S A) (k : A -> M S B) : M S B :=
  fun s =>
    match m s with
    | (Ok a, s') => k a s'
    | (Throw e, s') => (Throw e, s')
    end.

Definition throw {S A} (err : string) : M S A := fun s => (Throw err, s).

Definition try_catch {S A} (m : M S A) (handler : string -> M S A) : M S A :=
  fun s =>
    match m s with
    | (Ok a, s') => (Ok a, s')
    | (Throw e, s') => handler e s'
    end.

Definition modify {S} (f : S -> S) : M S unit := fun s => (Ok tt, f s).

Definition gets {S A} (f : S -> A) : M S A := fun s => (Ok (f s), s).

(** An awaited call whose result the surroundings decide. *)
Definition await {S A} (r : Res A) : M S A := fun s => (r, s).

Declare Scope mon_scope.
Delimit Scope mon_scope with mon.
Notation "x <- m ;; k" := (bind m (fun x => k))
  (at level 20, m at level 99, k at level 200, only parsing) : mon_scope.
Notation "m ;; k" := (bind m (fun _ => k))
  (at level 100, k at level 200, only parsing, right associativity) : mon_scope.
Local Open Scope mon_scope.

Fixpoint for_of {S A} (xs : list A) (body : A -> M S unit) : M S unit :=
  match xs with
  | [] => ret tt
  | x :: resto => body x ;; for_of resto body
  end.

(** ** Transactions on a pooled [client] *)

(** [tx] holds the database as it was when the transaction was opened,
    and [ROLLBACK] goes back to it: a handler runs alone on its client,
    so that what it undoes is what it wrote. On a client that was handed
    back with a transaction still open the database only warns at the
    next [BEGIN]; the properties of a rollback are therefore stated for
    a client with no transaction open, [tx w = None]. *)
Definition BEGIN : M Mundo unit :=
  modify (fun w => {| db := db w; tx := Some (db w); minio := minio w;
                      webhooks := webhooks w |}).

Definition COMMIT : M Mundo unit :=
  modify (fun w => {| db := db w; tx := None; minio := minio w;
                      webhooks := webhooks w |}).

Definition ROLLBACK : M Mundo unit :=
  modify (fun w => {| db := default (db w) (tx w); tx := None;
                      minio := minio w; webhooks := webhooks w |}).

(** ** Queries *)

(** [SELECT e.*, c.balance FROM emisores e JOIN user_credits c
     ON e.id = c.emisor_id WHERE e.id = $1 FOR UPDATE] *)
Definition SELECT_emisor_balance (emisorId : Z) : M Mundo (option (Emisor * Z)) :=
  gets (fun w =>
    match emisores (db w) !! emisorId, user_credits (db w) !! emisorId with
    | Some e, Some balance => Some (e, balance)
    | _, _ => None
    end).

(** The points of emission of one issuer with the given codes. *)
Definition SELECT_punto (estab punto : string) (emisorId : Z)
  : M Mundo (list (Z * PuntoEmision)) :=
  gets (fun w =>
    List.filter
      (fun '(_, p) =>
         bool_decide (pe_estab_codigo p = estab)
         && bool_decide (pe_codigo p = punto)
         && bool_decide (pe_emisor_id p = emisorId))
      (map_to_list (puntos_emision (db w)))).

(** Modelled from the spec: the database function [generar_secuencial],
    which is not among the sources. Section 4.6 step 4 gives it as
    [UPDATE ... SET secuencial_actual = secuencial_actual + 1
     RETURNING secuencial_actual]; the result is [None] (SQL null) when
    the point does not exist. *)
Definition generar_secuencial (punto_id : Z) : M Mundo (option Z) :=
  fun w =>
    match puntos_emision (db w) !! punto_id with
    | Some p =>
        let n := pe_secuencial_actual p + 1 in
        (Ok (Some n),
         con_db (con_puntos_emision
           (insert punto_id
              {| pe_emisor_id := pe_emisor_id p;
                 pe_estab_codigo := pe_estab_codigo p;
                 pe_codigo := pe_codigo p;
                 pe_direccion := pe_direccion p;
                 pe_secuencial_actual := n |})) w)
    | None => (Ok None, w)
    end.

(** [UPDATE invoices SET ... WHERE id = $n] *)
Definition UPDATE_invoices (id : Z) (set : Invoice -> Invoice) : M Mundo unit :=
  modify (con_db (con_invoices
    (map (fun inv => if decide (i_id inv = id) then set inv else inv)))).

(** [UPDATE user_credits SET balance = balance - 1 WHERE emisor_id = $1] *)
Definition UPDATE_user_credits_debito (emisor_id : Z) : M Mundo unit :=
  modify (con_db (con_user_credits (alter (fun balance => balance - 1) emisor_id))).

Definition siguiente_id (invs : list Invoice) : Z :=
  1 + foldr (fun inv m => Z.max (i_id inv) m) 0 invs.

(** [INSERT INTO invoices (...) VALUES (...)]: the statement fails when
    the database refuses the row. *)
Definition INSERT_invoice (aceptada : bool) (fila : Z -> Invoice) : M Mundo unit :=
  if aceptada then
    modify (con_db (con_invoices
      (fun invs => invs ++ [fila (siguiente_id invs)])))
  else throw "error: INSERT INTO invoices".

(** ** Object store (storageService.js) *)

Definition putObject (ok : bool) (bucket fileName contenido : string)
  : M Mundo unit :=
  if ok then
    modify (fun w => {| db := db w; tx := tx w;
                        minio := <[(bucket, fileName) := contenido]> (minio w);
                        webhooks := webhooks w |})
  else throw "error: putObject".

Definition uploadFile (ok : bool) (bucket fileName contenido : string)
  : M Mundo string :=
  putObject ok bucket fileName contenido ;;
  ret (bucket +:+ "/" +:+ fileName).

Definition deleteFile (ok : bool) (bucket fileName : string) : M Mundo bool :=
  if ok then
    modify (fun w => {| db := db w; tx := tx w;
                        minio := delete (bucket, fileName) (minio w);
                        webhooks := webhooks w |}) ;;
    ret true
  else throw "error: removeObject".

(** ** notifierService.js *)

(** [webhookUrl] is whether [WEB_HOOK_NOTIFICACIONES] is set; a failed
    POST is logged and swallowed, the call made is recorded either way. *)
Definition notificarCambioEstado (webhookUrl : bool)
    (user_uid : string) (id : Z) (clave_acceso estado : string)
    (detalle : option string) : M Mundo unit :=
  if webhookUrl then
    modify (fun w => {| db := db w; tx := tx w; minio := minio w;
                        webhooks := webhooks w ++
                          [ {| n_user_id := user_uid; n_invoice_id := id;
                               n_clave_acceso := clave_acceso;
                               n_estado := estado;
                               n_mensaje_sri := detalle |} ] |})
  else ret tt.

End Sistema.

(* ===================================================================== *)
(** * POST /integrations/invoice (routes/integracion.js) *)
(* ===================================================================== *)

Module Integracion.

Import Sistema.
Local Open Scope mon_scope.

Record FacturaData := {
  fd_establecimiento : option string;
  fd_punto_emision : option string;
  fd_items : option (list (Calculadora.Item float));
  fd_cliente_identificacion : option string;
  fd_cliente_nombre : option string
}.

(** What the surroundings of one request decide: the clock, the outcome
    of building and signing the XML (steps 6 and 7, which read the P12
    from the store), of rendering the PDF, of the two uploads and of the
    INSERT. *)
Record Entorno := {
  luxon : AccessKey.Luxon;
  fechaFormatoClave : AccessKey.str;
  ahoraJS : Z;
  xmlFirmado : Res string;
  pdfStream : Res string;
  subida_xml_ok : bool;
  subida_pdf_ok : bool;
  insert_ok : bool
}.

Inductive Respuesta :=
| R201 (claveAcceso : string) (creditos_restantes : Z) (xml pdf : string)
| R402 (mensaje : string)
| R500 (error : string).

Definition o_cadena (defecto : string) (o : option string) : string :=
  default defecto (Calculadora.js_or Calculadora.cadena_falsy o (Some defecto)).

Definition calculos_de (items : option (list (Calculadora.Item float)))
  : M Mundo (Calculadora.Resultado float) :=
  match items with
  | Some its => ret (Calculadora.calcularTotalesEImpuestos its)
  | None => throw "Cannot read properties of undefined (reading 'map')"
  end.

Definition clave_o_error (r : AccessKey.resultado) : M Mundo string :=
  match r with
  | AccessKey.Clave c => ret (string_of_list_ascii c)
  | AccessKey.ErrorClaveBase _ _ => throw "Clave base inválida"
  end.

(** The [try] block after [BEGIN]. *)
Definition emitir (env : Entorno) (emisorId : Z)
    (facturaData : FacturaData) : M Mundo Respuesta :=
    ((* 1. issuer and credits, FOR UPDATE *)
     emisorRes <- SELECT_emisor_balance emisorId ;;
     match emisorRes with
     | None => ret (R402 "Créditos insuficientes.")
     | Some (emisor, balance) =>
       if balance <=? 0 then ret (R402 "Créditos insuficientes.")
       else
         let balanceRestante := balance - 1 in
         (* 2. point of emission *)
         ptoRes <- SELECT_punto (o_cadena "001" (fd_establecimiento facturaData))
                     (o_cadena "100" (fd_punto_emision facturaData)) emisorId ;;
         match ptoRes with
         | [] => throw "Establecimiento o Punto de Emisión no válido."
         | (punto_id, puntoEmision) :: _ =>
           (* 3. sequential *)
           secuencialRaw <- generar_secuencial punto_id ;;
           match secuencialRaw with
           | None | Some 0 => throw "Secuencial nulo para el punto."
           | Some n =>
             let secuencial :=
               AccessKey.padStart 9 (AccessKey.number_toString (Some n)) in
             (* 5. totals and access key *)
             calculos <- calculos_de (fd_items facturaData) ;;
             claveAcceso <-
               clave_o_error
                 (AccessKey.generarClaveAcceso (luxon env)
                    (Some (fechaFormatoClave env)) (AccessKey.lit "01")
                    (AccessKey.lit (e_ruc emisor))
                    (AccessKey.lit (e_ambiente emisor))
                    (AccessKey.lit (pe_estab_codigo puntoEmision
                                    +:+ pe_codigo puntoEmision))
                    secuencial None) ;;
             (* 6, 7. XML and signature *)
             xml <- await (xmlFirmado env) ;;
             (* 8. store *)
             pdf <- await (pdfStream env) ;;
             let xmlPathRelative := e_ruc emisor +:+ "/" +:+ claveAcceso +:+ ".xml" in
             let pdfPathRelative := e_ruc emisor +:+ "/" +:+ claveAcceso +:+ ".pdf" in
             uploadFile (subida_xml_ok env) "invoices" xmlPathRelative xml ;;
             putObject (subida_pdf_ok env) "invoices" pdfPathRelative pdf ;;
             (* 9. row *)
             INSERT_invoice (insert_ok env)
               (fun id =>
                  {| i_id := id;
                     i_emisor_id := emisorId;
                     i_punto_emision_id := punto_id;
                     i_secuencial := Some (string_of_list_ascii secuencial);
                     i_clave_acceso := claveAcceso;
                     i_estado := "FIRMADO";
                     i_importe_total :=
                       Calculadora.importeTotal (Calculadora.totales calculos);
                     i_xml_path := Some ("invoices/" +:+ xmlPathRelative);
                     i_pdf_path := Some ("invoices/" +:+ pdfPathRelative);
                     i_mensajes_sri := None;
                     i_fecha_envio_sri := None;
                     i_fecha_autorizacion := None;
                     i_created_at := ahoraJS env |}) ;;
             COMMIT ;;
             ret (R201 claveAcceso balanceRestante
                    ("invoices/" +:+ xmlPathRelative)
                    ("invoices/" +:+ pdfPathRelative))
           end
         end
     end).

Definition post_invoice (env : Entorno) (emisorId : Z)
    (facturaData : FacturaData) : M Mundo Respuesta :=
  try_catch
    (BEGIN ;; emitir env emisorId facturaData)
    (fun error => ROLLBACK ;; ret (R500 error)).

End Integracion.

(* ===================================================================== *)
(** * Signing job: firmarYEnviarLote *)
(* ===================================================================== *)

Module Firma.

Import Sistema.
Local Open Scope mon_scope.

Record InputCliente := {
  ic_detalles : option (list (Calculadora.Item float));
  ic_items : option (list (Calculadora.Item float))
}.

(** What the surroundings of one run decide. [signatureBlock] is what
    steps 3 and 4 make of the P12 and the document before the signature is
    put into the document: the signature element, or the exception of
    [forge] or of the signer. [pdfStream] is what [generarPDFStream] does
    once it has read [factura.infoTributaria]. [borrado_ok path] says
    whether [deleteFile] succeeds on [path] during the cleanup. *)
Record Entorno := {
  luxon : AccessKey.Luxon;
  ahora_yyyy_MM_dd : AccessKey.str;
  ahora_HHmmss : AccessKey.str;
  aleatorio : AccessKey.str;          (* Math.floor(Math.random() * 90 + 10) *)
  p12Buffer : Res string;
  signatureBlock : Res string;
  pdfStream : Res string;
  subida_xml_ok : bool;
  subida_pdf_ok : bool;
  update_ok : bool;
  borrado_ok : string -> bool
}.

(** The handler's state is the world together with the local variable
    [archivosSubidos]. *)
Definition Local : Type := Mundo * list string.

Definition en_mundo {A} (m : M Mundo A) : M Local A :=
  fun '(w, archivosSubidos) =>
    let '(r, w') := m w in (r, (w', archivosSubidos)).

Definition push (path : string) : M Local unit :=
  modify (fun '(w, archivosSubidos) => (w, archivosSubidos ++ [path])).

Definition nunca_falsy {A} (_ : A) : bool := false.

(** ** The document, its signature and its RIDE *)

Definition comilla : string := String (ascii_of_nat 34) EmptyString.

(** [create({ version: '1.0', encoding: 'UTF-8' })
       .ele('factura', { id: 'comprobante', version: '1.1.0' })]
    printed by [doc.end({ prettyPrint: false })]: the element gets no
    child, and an element without content is printed as an empty-element
    tag. *)
Definition xmlString : string :=
  "<?xml version=" +:+ comilla +:+ "1.0" +:+ comilla
  +:+ " encoding=" +:+ comilla +:+ "UTF-8" +:+ comilla +:+ "?>"
  +:+ "<factura id=" +:+ comilla +:+ "comprobante" +:+ comilla
  +:+ " version=" +:+ comilla +:+ "1.1.0" +:+ comilla +:+ "/>".

(** [s.includes(pat)] *)
Definition incluye (pat s : string) : bool :=
  match String.index 0 pat s with Some _ => true | None => false end.

(** [s.replace(pat, rep)] with a string pattern: the first occurrence. *)
Definition replace (pat rep s : string) : string :=
  match String.index 0 pat s with
  | Some i =>
      substring 0 i s +:+ rep
      +:+ substring (i + String.length pat) (String.length s) s
  | None => s
  end.

(** signer.js: [return xml.replace('</factura>',
    `${signatureBlock}</factura>`)], after the signature is computed. *)
Definition signInvoiceXmlCustom (env : Entorno) (xml : string)
  : M Local string :=
  bloque <- await (signatureBlock env) ;;
  ret (replace "</factura>" (bloque +:+ "</factura>") xml).

(** rideService.js, on a document whose root is [factura], as the one of
    the job is: the document is parsed and [factura.infoTributaria] is
    read first of all, [infoTrib.claveAcceso] next. A key of the parsed
    object is the name of a tag of the document: in a document without
    the tag, [infoTributaria] is undefined and the second read throws.
    What follows these reads is left to [pdfStream]. *)
Definition generarPDFStream (env : Entorno) (xmlString : string)
  : M Local string :=
  if incluye "<infoTributaria" xmlString then await (pdfStream env)
  else throw "Cannot read properties of undefined (reading 'claveAcceso')".

(** The cleanup loop of the [catch] block: a failing [deleteFile] is
    logged by its own [.catch] and the loop goes on. *)
Definition limpiar_archivos (env : Entorno) : M Local unit :=
  archivosSubidos <- gets snd ;;
  for_of archivosSubidos
    (fun path =>
       try_catch
         (en_mundo (deleteFile (borrado_ok env path) "invoices" path) ;; ret tt)
         (fun _ => ret tt)).

(** The [try] block from the sequential on, inside the transaction. *)
Definition firmar_en_transaccion (env : Entorno) (facturaId : Z)
    (emisor : Emisor) (punto_id : Z) (puntoEmisionDB : PuntoEmision)
  : M Local unit :=
     secRes <- en_mundo (generar_secuencial punto_id) ;;
     match secRes with
     | None => throw "Cannot read properties of null (reading 'toString')"
     | Some n =>
       let secuencialStr :=
         AccessKey.padStart 9 (AccessKey.number_toString (Some n)) in
       claveAcceso <-
         en_mundo (Integracion.clave_o_error
           (AccessKey.generarClaveAcceso (luxon env)
              (Some (ahora_yyyy_MM_dd env)) (AccessKey.lit "01")
              (AccessKey.lit (e_ruc emisor))
              (AccessKey.lit (e_ambiente emisor))
              (AccessKey.lit (pe_estab_codigo puntoEmisionDB
                              +:+ pe_codigo puntoEmisionDB))
              secuencialStr
              (Some (ahora_HHmmss env ++ aleatorio env)))) ;;
       xml <- signInvoiceXmlCustom env xmlString ;;
       pdf <- generarPDFStream env xml ;;
       (* C. uploads *)
       let xmlStoragePath := "signed/" +:+ e_ruc emisor +:+ "/" +:+ claveAcceso +:+ ".xml" in
       let pdfStoragePath := "signed/" +:+ e_ruc emisor +:+ "/" +:+ claveAcceso +:+ ".pdf" in
       (en_mundo (uploadFile (subida_xml_ok env) "invoices" xmlStoragePath xml) ;;
        push xmlStoragePath) ;;
       (en_mundo (putObject (subida_pdf_ok env) "invoices" pdfStoragePath pdf) ;;
        push pdfStoragePath) ;;
       (* D. row and commit *)
       (if update_ok env then
          en_mundo (UPDATE_invoices facturaId
            (fun inv =>
               {| i_id := i_id inv;
                  i_emisor_id := i_emisor_id inv;
                  i_punto_emision_id := i_punto_emision_id inv;
                  i_secuencial := i_secuencial inv;
                  i_clave_acceso := claveAcceso;
                  i_estado := "FIRMADO";
                  i_importe_total := i_importe_total inv;
                  i_xml_path := Some ("invoices/" +:+ xmlStoragePath);
                  i_pdf_path := Some ("invoices/" +:+ pdfStoragePath);
                  i_mensajes_sri := i_mensajes_sri inv;
                  i_fecha_envio_sri := i_fecha_envio_sri inv;
                  i_fecha_autorizacion := i_fecha_autorizacion inv;
                  i_created_at := i_created_at inv |}))
        else throw "error: UPDATE invoices") ;;
       en_mundo COMMIT
     end.

(** A. the preparation, outside the transaction: the password is
    decrypted and the P12 downloaded; the totals are computed. *)
Definition preparar (env : Entorno) (inputCliente : InputCliente)
    (emisor : Emisor) : M Local (Calculadora.Resultado float) :=
  match e_p12_path emisor with
  | None => throw "Cannot read properties of null (reading 'split')"
  | Some _ => await (p12Buffer env)
  end ;;
  let detallesArr :=
    default []
      (Calculadora.js_or nunca_falsy
         (Calculadora.js_or nunca_falsy (ic_detalles inputCliente)
            (ic_items inputCliente))
         (Some [])) in
  ret (Calculadora.calcularTotalesEImpuestos detallesArr).

Definition firmarYEnviarLote (env : Entorno) (facturaId : Z)
    (inputCliente : InputCliente) (emisor : Emisor)
    (punto_id : Z) (puntoEmisionDB : PuntoEmision) : M Local unit :=
  try_catch
    (preparar env inputCliente emisor ;;
     en_mundo BEGIN ;;
     firmar_en_transaccion env facturaId emisor punto_id puntoEmisionDB)
    (fun err =>
       en_mundo ROLLBACK ;;
       limpiar_archivos env ;;
       throw err).

End Firma.

(* ===================================================================== *)
(** * Settlement worker (workers/authWorker.js) *)
(* ===================================================================== *)

Module Worker.

Import Sistema.
Local Open Scope mon_scope.

(** A row of either SELECT of the worker. *)
Record Fila := {
  f_id : Z;
  f_xml_path : option string;
  f_clave_acceso : string;
  f_ambiente : string;
  f_ruc : string;
  f_emisor_db_id : Z;
  f_user_uid : string;
  f_created_at : Z
}.

Definition antes (a b : Fila) : Prop := f_created_at a <= f_created_at b.

#[global] Instance antes_dec : RelDecision antes :=
  fun a b => Z_le_dec (f_created_at a) (f_created_at b).

(** [FROM invoices i JOIN emisores e ON i.emisor_id = e.id
     JOIN profiles p ON e.id = p.emisor_id] for one invoice. *)
Definition filas_de (d : DB) (inv : Invoice) : list Fila :=
  match emisores d !! i_emisor_id inv with
  | Some e =>
      map (fun p =>
             {| f_id := i_id inv;
                f_xml_path := i_xml_path inv;
                f_clave_acceso := i_clave_acceso inv;
                f_ambiente := e_ambiente e;
                f_ruc := e_ruc e;
                f_emisor_db_id := i_emisor_id inv;
                f_user_uid := p_id p;
                f_created_at := i_created_at inv |})
          (List.filter
             (fun p => bool_decide (p_emisor_id p = Some (i_emisor_id inv)))
             (profiles d))
  | None => []
  end.

(** [... WHERE i.estado = $estado ORDER BY i.created_at ASC LIMIT 15] *)
Definition filas_por_estado (estado : string) (d : DB) : list Fila :=
  take 15
    (merge_sort antes
       (flat_map (filas_de d)
          (List.filter (fun inv => bool_decide (i_estado inv = estado))
             (invoices d)))).

Definition SELECT_por_estado (estado : string) : M Mundo (list Fila) :=
  gets (fun w => filas_por_estado estado (db w)).

(** The answer of the reception service for one row, after the download
    of the XML, the POST and the parsing: any of them may throw. [json]
    is [JSON.stringify(respRecepcion.comprobantes || respRecepcion)],
    [respuesta] is [respRecepcion] itself as the webhook body carries
    it. *)
Inductive RespuestaRecepcion :=
| ErrorRecepcion (err : string)
| Recepcion (estado : string) (json : string) (respuesta : string).

Record AutorizacionSRI := {
  a_estado : string;
  a_comprobante : string;
  a_fechaAutorizacion : string;
  a_mensajes : option string           (* JSON.stringify(mensajes) *)
}.

(** The answer of the authorization service: [numeroComprobantes] after
    [parseInt] ([None] is NaN) and the authorization records. *)
Inductive RespuestaAutorizacion :=
| ErrorAutorizacion (err : string)
| Autorizaciones (numeroComprobantes : option Z)
                 (autorizacion : list AutorizacionSRI).

Record Entorno := {
  webhookUrl : bool;
  NOW : Z;
  sri_recepcion : Fila -> RespuestaRecepcion;
  sri_autorizacion : Fila -> RespuestaAutorizacion;
  subida_ok : Fila -> bool
}.

Definition set_recibida (ahora : Z) (inv : Invoice) : Invoice :=
  {| i_id := i_id inv; i_emisor_id := i_emisor_id inv;
     i_punto_emision_id := i_punto_emision_id inv;
     i_secuencial := i_secuencial inv; i_clave_acceso := i_clave_acceso inv;
     i_estado := "RECIBIDA";
     i_importe_total := i_importe_total inv;
     i_xml_path := i_xml_path inv; i_pdf_path := i_pdf_path inv;
     i_mensajes_sri := i_mensajes_sri inv;
     i_fecha_envio_sri := Some ahora;
     i_fecha_autorizacion := i_fecha_autorizacion inv;
     i_created_at := i_created_at inv |}.

Definition set_devuelta (errorMsg : string) (ahora : Z) (inv : Invoice) : Invoice :=
  {| i_id := i_id inv; i_emisor_id := i_emisor_id inv;
     i_punto_emision_id := i_punto_emision_id inv;
     i_secuencial := i_secuencial inv; i_clave_acceso := i_clave_acceso inv;
     i_estado := "DEVUELTA";
     i_importe_total := i_importe_total inv;
     i_xml_path := i_xml_path inv; i_pdf_path := i_pdf_path inv;
     i_mensajes_sri := Some errorMsg;
     i_fecha_envio_sri := Some ahora;
     i_fecha_autorizacion := i_fecha_autorizacion inv;
     i_created_at := i_created_at inv |}.

Definition set_autorizado (xml_path fechaAutorizacion : string) (inv : Invoice)
  : Invoice :=
  {| i_id := i_id inv; i_emisor_id := i_emisor_id inv;
     i_punto_emision_id := i_punto_emision_id inv;
     i_secuencial := i_secuencial inv; i_clave_acceso := i_clave_acceso inv;
     i_estado := "AUTORIZADO";
     i_importe_total := i_importe_total inv;
     i_xml_path := Some xml_path; i_pdf_path := i_pdf_path inv;
     i_mensajes_sri := i_mensajes_sri inv;
     i_fecha_envio_sri := i_fecha_envio_sri inv;
     i_fecha_autorizacion := Some fechaAutorizacion;
     i_created_at := i_created_at inv |}.

Definition set_estado_final (estadoFinal : string) (msg : option string)
    (inv : Invoice) : Invoice :=
  {| i_id := i_id inv; i_emisor_id := i_emisor_id inv;
     i_punto_emision_id := i_punto_emision_id inv;
     i_secuencial := i_secuencial inv; i_clave_acceso := i_clave_acceso inv;
     i_estado := estadoFinal;
     i_importe_total := i_importe_total inv;
     i_xml_path := i_xml_path inv; i_pdf_path := i_pdf_path inv;
     i_mensajes_sri := msg;
     i_fecha_envio_sri := i_fecha_envio_sri inv;
     i_fecha_autorizacion := i_fecha_autorizacion inv;
     i_created_at := i_created_at inv |}.

Definition notificar (env : Entorno) (factura : Fila) (estado : string)
    (detalle : option string) : M Mundo unit :=
  notificarCambioEstado (webhookUrl env) (f_user_uid factura) (f_id factura)
    (f_clave_acceso factura) estado detalle.

(** The [try] block of the loop of JOB 1 for one row. *)
Definition enviar_factura (env : Entorno) (factura : Fila) : M Mundo unit :=
  match sri_recepcion env factura with
  | ErrorRecepcion err => throw err
  | Recepcion estado json respuesta =>
      if decide (estado = "RECIBIDA") then
        UPDATE_invoices (f_id factura) (set_recibida (NOW env)) ;;
        notificar env factura "RECIBIDA" None
      else
        UPDATE_invoices (f_id factura) (set_devuelta json (NOW env)) ;;
        notificar env factura "DEVUELTA" (Some respuesta)
  end.

(** One turn of the loop: the [catch] logs the error and goes on. *)
Definition intentar_envio (env : Entorno) (factura : Fila) : M Mundo unit :=
  try_catch (enviar_factura env factura) (fun _ => ret tt).

(** JOB 1: technical reception. *)
Definition enviarFacturasAlSRI (env : Entorno) : M Mundo unit :=
  try_catch
    (rows <- SELECT_por_estado "FIRMADO" ;;
     for_of rows (intentar_envio env))
    (fun _ => ret tt).

(** The [try] block of the loop of JOB 2 for one row. *)
Definition autorizar_factura (env : Entorno) (factura : Fila) : M Mundo unit :=
  match sri_autorizacion env factura with
  | ErrorAutorizacion err => throw err
  | Autorizaciones numeroComprobantes autorizaciones =>
      if bool_decide (0 < default 0 numeroComprobantes) then
        match autorizaciones with
        | [] => throw "Cannot read properties of undefined (reading 'estado')"
        | autorizacion :: _ =>
            if decide (a_estado autorizacion = "AUTORIZADO") then
              let xmlAuthPath :=
                "authorized/" +:+ f_ruc factura +:+ "/"
                  +:+ f_clave_acceso factura +:+ ".xml" in
              uploadFile (subida_ok env factura) "invoices" xmlAuthPath
                (a_comprobante autorizacion) ;;
              UPDATE_invoices (f_id factura)
                (set_autorizado ("invoices/" +:+ xmlAuthPath)
                   (a_fechaAutorizacion autorizacion)) ;;
              UPDATE_user_credits_debito (f_emisor_db_id factura) ;;
              notificar env factura "AUTORIZADO" None
            else
              let estadoFinal :=
                if decide (a_estado autorizacion = "NO AUTORIZADO")
                then "RECHAZADO" else a_estado autorizacion in
              let msg := a_mensajes autorizacion in
              UPDATE_invoices (f_id factura) (set_estado_final estadoFinal msg) ;;
              notificar env factura estadoFinal (a_mensajes autorizacion)
        end
      else ret tt
  end.

Definition intentar_autorizacion (env : Entorno) (factura : Fila) : M Mundo unit :=
  try_catch (autorizar_factura env factura) (fun _ => ret tt).

(** JOB 2: legal authorization. *)
Definition autorizarFacturasSRI (env : Entorno) : M Mundo unit :=
  try_catch
    (rows <- SELECT_por_estado "RECIBIDA" ;;
     for_of rows (intentar_autorizacion env))
    (fun _ => ret tt).

(** A tick of one of the two cron jobs. *)
Inductive Tick :=
| TickEnvio (env : Entorno)
| TickAutorizacion (env : Entorno).

Definition tick (t : Tick) (w : Mundo) : Mundo :=
  match t with
  | TickEnvio env => snd (enviarFacturasAlSRI env w)
  | TickAutorizacion env => snd (autorizarFacturasSRI env w)
  end.

Definition ejecutar (ticks : list Tick) (w : Mundo) : Mundo :=
  fold_left (fun w t => tick t w) ticks w.

(** ** Runs that overlap

    [app.js] starts JOB 1 every 20 seconds and JOB 2 every minute with
    [cron.schedule], whether or not an earlier run has ended, and a run
    gives way at each of its [await]s. A run in flight is the part of
    its batch that is still to be processed. The process moves by two
    kinds of step: cron starts a run, which is its SELECT, or a run in
    flight takes the turn of its next row. A [tick] is a run whose
    turns follow its SELECT with no other step in between. *)
Inductive Trabajo := Envio | Autorizacion.

Record Corrida := { trabajo : Trabajo; pendientes : list Fila }.

Inductive Evento :=
| Arranca (job : Trabajo)
| Turno (i : nat) (env : Entorno).

Definition Proceso : Type := Mundo * list Corrida.

Definition estado_que_busca (job : Trabajo) : string :=
  match job with
  | Envio => "FIRMADO"
  | Autorizacion => "RECIBIDA"
  end.

Definition intentar (job : Trabajo) : Entorno -> Fila -> M Mundo unit :=
  match job with
  | Envio => intentar_envio
  | Autorizacion => intentar_autorizacion
  end.

Definition paso (ev : Evento) (p : Proceso) : Proceso :=
  let '(w, corridas) := p in
  match ev with
  | Arranca job =>
      (w, corridas
          ++ [ {| trabajo := job;
                  pendientes := filas_por_estado (estado_que_busca job) (db w) |} ])
  | Turno i env =>
      match corridas !! i with
      | Some {| trabajo := job; pendientes := factura :: resto |} =>
          (snd (intentar job env factura w),
           <[i := {| trabajo := job; pendientes := resto |}]> corridas)
      | _ => p
      end
  end.

Definition transcurrir (eventos : list Evento) (p : Proceso) : Proceso :=
  fold_left (fun p ev => paso ev p) eventos p.

End Worker.

(* ===================================================================== *)
(** * Scenarios *)
(* ===================================================================== *)

Module Escenarios.

Import Sistema.

(** The issuer of scenario S1 of the specification, with its default
    establishment 001 and point 100, and one user profile. *)
Definition emisor_1 : Emisor :=
  {| e_ruc := "1790011674001"; e_ambiente := "1";
     e_p12_path := Some "certificates/1790011674001/certificate_1.p12";
     e_p12_pass := None |}.

Definition punto_100 : PuntoEmision :=
  {| pe_emisor_id := 1; pe_estab_codigo := "001"; pe_codigo := "100";
     pe_direccion := None; pe_secuencial_actual := 0 |}.

Definition mundo_inicial (balance : Z) : Mundo :=
  {| db := {| emisores := {[ 1 := emisor_1 ]};
              user_credits := {[ 1 := balance ]};
              profiles := [ {| p_id := "uid-1"; p_emisor_id := Some 1 |} ];
              puntos_emision := {[ 7 := punto_100 ]};
              invoices := [] |};
     tx := None;
     minio := ∅;
     webhooks := [] |}.

(** A request with one line of 100.00 at 15%. *)
Definition factura_s1 : Integracion.FacturaData :=
  {| Integracion.fd_establecimiento := None;
     Integracion.fd_punto_emision := None;
     Integracion.fd_items := Some [Calculadora.linea 1 100 15]%float;
     Integracion.fd_cliente_identificacion := Some "1710034065";
     Integracion.fd_cliente_nombre := Some "Juan Perez" |}.

(** Everything around the request works. *)
Definition entorno_ok : Integracion.Entorno :=
  {| Integracion.luxon := AccessKey.reloj_ejemplo;
     Integracion.fechaFormatoClave := AccessKey.lit "2026-02-23";
     Integracion.ahoraJS := 1000;
     Integracion.xmlFirmado := Ok "<factura id=comprobante/>";
     Integracion.pdfStream := Ok "%PDF";
     Integracion.subida_xml_ok := true;
     Integracion.subida_pdf_ok := true;
     Integracion.insert_ok := true |}.

(** Both uploads work and the INSERT is refused. *)
Definition entorno_insert_falla : Integracion.Entorno :=
  {| Integracion.luxon := AccessKey.reloj_ejemplo;
     Integracion.fechaFormatoClave := AccessKey.lit "2026-02-23";
     Integracion.ahoraJS := 1000;
     Integracion.xmlFirmado := Ok "<factura id=comprobante/>";
     Integracion.pdfStream := Ok "%PDF";
     Integracion.subida_xml_ok := true;
     Integracion.subida_pdf_ok := true;
     Integracion.insert_ok := false |}.

(** The authority receives and authorizes whatever it is sent. *)
Definition sri_autoriza : Worker.Entorno :=
  {| Worker.webhookUrl := true;
     Worker.NOW := 2000;
     Worker.sri_recepcion := fun _ => Worker.Recepcion "RECIBIDA" "{}" "{}";
     Worker.sri_autorizacion := fun _ =>
       Worker.Autorizaciones (Some 1)
         [ {| Worker.a_estado := "AUTORIZADO";
              Worker.a_comprobante := "<autorizacion/>";
              Worker.a_fechaAutorizacion := "2026-02-23T10:11:12-05:00";
              Worker.a_mensajes := None |} ];
     Worker.subida_ok := fun _ => true |}.

(** The authority answers every query with [numeroComprobantes = 0]. *)
Definition sri_sin_comprobantes : Worker.Entorno :=
  {| Worker.webhookUrl := true;
     Worker.NOW := 3000;
     Worker.sri_recepcion := fun _ => Worker.Recepcion "RECIBIDA" "{}" "{}";
     Worker.sri_autorizacion := fun _ => Worker.Autorizaciones (Some 0) [];
     Worker.subida_ok := fun _ => true |}.

(** Two requests through the integrated route, one after the other. *)
Definition tras_dos_emisiones (balance : Z) : Mundo :=
  snd (Integracion.post_invoice entorno_ok 1 factura_s1
         (snd (Integracion.post_invoice entorno_ok 1 factura_s1
                 (mundo_inicial balance)))).

(** ... then a tick of the submit job and a tick of the authorize job. *)
Definition tras_autorizar (balance : Z) : Mundo :=
  Worker.ejecutar
    [Worker.TickEnvio sri_autoriza; Worker.TickAutorizacion sri_autoriza]
    (tras_dos_emisiones balance).

(** The signing job on a pending invoice, with everything around it
    working: the P12 is there and signs, the store and the database
    accept what they are given. *)
Definition entorno_firma : Firma.Entorno :=
  {| Firma.luxon := AccessKey.reloj_ejemplo;
     Firma.ahora_yyyy_MM_dd := AccessKey.lit "2026-02-23";
     Firma.ahora_HHmmss := AccessKey.lit "101112";
     Firma.aleatorio := AccessKey.lit "42";
     Firma.p12Buffer := Ok "p12";
     Firma.signatureBlock := Ok "<ds:Signature Id=Signature></ds:Signature>";
     Firma.pdfStream := Ok "%PDF";
     Firma.subida_xml_ok := true;
     Firma.subida_pdf_ok := true;
     Firma.update_ok := true;
     Firma.borrado_ok := fun _ => true |}.

(** A world with one invoice accepted by POST /invoices/emit. *)
Definition mundo_pendiente : Mundo :=
  {| db := {| emisores := {[ 1 := emisor_1 ]};
              user_credits := {[ 1 := 10 ]};
              profiles := [ {| p_id := "uid-1"; p_emisor_id := Some 1 |} ];
              puntos_emision := {[ 7 := punto_100 ]};
              invoices :=
                [ {| i_id := 1; i_emisor_id := 1; i_punto_emision_id := 7;
                     i_secuencial := None;
                     i_clave_acceso := "PENDING-0011223344556677";
                     i_estado := "PENDIENTE";
                     i_importe_total := Some 11500;
                     i_xml_path := None; i_pdf_path := None;
                     i_mensajes_sri := None; i_fecha_envio_sri := None;
                     i_fecha_autorizacion := None; i_created_at := 900 |} ] |};
     tx := None;
     minio := ∅;
     webhooks := [] |}.




Definition balance_de (w : Mundo) : option Z := user_credits (db w) !! 1.

Definition estados_de (w : Mundo) : list string := map i_estado (invoices (db w)).


End Escenarios.

(* ===================================================================== *)
(** * Public downloads (routes/public.js) *)
(* ===================================================================== *)

Module Publico.

Import Sistema.
Local Open Scope mon_scope.

(** [/^\d{49}$/.test(claveAcceso)] *)
Definition clave_valida (claveAcceso : string) : bool :=
  let s := AccessKey.lit claveAcceso in
  (length s =? 49)%nat && forallb AccessKey.is_digit s.

Inductive Respuesta :=
| R200 (stream : string)
| R400 (texto : string)
| R404 (texto : string).

(** [minioClient.getObject]: it throws when the object does not exist. *)
Definition getObject (bucket fileName : string) : M Mundo string :=
  fun w =>
    match minio w !! (bucket, fileName) with
    | Some contenido => (Ok contenido, w)
    | None => (Throw "NoSuchKey", w)
    end.

(** [const [bucket, ...pathParts] = fullPath.split('/')] and
    [pathParts.join('/')]. The array that [split] returns is never empty. *)
Definition separar_ruta (fullPath : string) : string * string :=
  match Cifrado.split "/" (AccessKey.lit fullPath) with
  | bucket :: pathParts =>
      (string_of_list_ascii bucket,
       string_of_list_ascii (Cifrado.join "/" pathParts))
  | [] => (""%string, ""%string)
  end.

(** [SELECT ... FROM invoices WHERE clave_acceso = $1] *)
Definition SELECT_por_clave (claveAcceso : string) : M Mundo (list Invoice) :=
  gets (fun w =>
    List.filter (fun inv => bool_decide (i_clave_acceso inv = claveAcceso))
      (invoices (db w))).

(** GET /public/pdf/:claveAcceso *)
Definition get_pdf (claveAcceso : string) : M Mundo Respuesta :=
  if negb (clave_valida claveAcceso) then ret (R400 "Clave inválida")
  else
    try_catch
      (result <- SELECT_por_clave claveAcceso ;;
       match result with
       | [] => ret (R404 "Factura no encontrada")
       | fila :: _ =>
           match i_pdf_path fila with
           | None =>
               throw "Cannot read properties of null (reading 'split')"
           | Some fullPath =>
               let '(bucket, fileName) := separar_ruta fullPath in
               stream <- getObject bucket fileName ;;
               ret (R200 stream)
           end
       end)
      (fun _ => ret (R404 "Archivo no encontrado")).

(** GET /public/xml/:claveAcceso *)
Definition get_xml (claveAcceso : string) : M Mundo Respuesta :=
  if negb (clave_valida claveAcceso) then ret (R400 "Clave inválida")
  else
    try_catch
      (result <- SELECT_por_clave claveAcceso ;;
       match result with
       | [] => ret (R404 "Factura no encontrada")
       | fila :: _ =>
           match i_xml_path fila with
           | None =>
               throw "Cannot read properties of null (reading 'split')"
           | Some xml_path =>
               let '(bucket, fileName) := separar_ruta xml_path in
               stream <- getObject bucket fileName ;;
               ret (R200 stream)
           end
       end)
      (fun _ => ret (R404 "Archivo no encontrado")).

End Publico.

(* ===================================================================== *)
(** * POST /integrations/validate (routes/integracion.js) *)
(* ===================================================================== *)

Module Validacion.

Import Sistema.
Local Open Scope mon_scope.

Inductive Respuesta :=
| R200 (id secuencial_actual : Z) (direccion : option string)
| R400 (error : string)
| R404 (error : string)
| R500 (error : string).

(** [!codigo] for a field of the body: [None] is a field that is absent. *)
Definition falta (codigo : option string) : bool :=
  match codigo with
  | Some c => Calculadora.cadena_falsy c
  | None => true
  end.

Definition post_validate (emisor_id : Z) (estab_codigo punto_codigo : option string)
  : M Mundo Respuesta :=
  if falta estab_codigo || falta punto_codigo then
    ret (R400 "estab_codigo y punto_codigo son requeridos.")
  else
    try_catch
      (rows <- SELECT_punto (default "" estab_codigo) (default "" punto_codigo)
                 emisor_id ;;
       match rows with
       | [] =>
           ret (R404 "La combinación de establecimiento y punto de emisión no existe para este emisor.")
       | (id, p) :: _ => ret (R200 id (pe_secuencial_actual p) (pe_direccion p))
       end)
      (fun error => ret (R500 error)).

End Validacion.

(* ===================================================================== *)
(** * Choice of the signing certificate and key (the signer and the
      invoicing service) *)
(* ===================================================================== *)

Module Certificado.

Import AccessKey Cifrado Sistema.

(** The [keyUsage] extension of a certificate as node-forge parses it. *)
Record KeyUsage := {
  digitalSignature : bool;
  nonRepudiation : bool;
  keyEncipherment : bool
}.

(** [cA] is the truth value of [cert.cA]; [keyUsage] is
    [cert.getExtension('keyUsage')], [None] when there is none. *)
Record Cert := {
  cA : bool;
  keyUsage : option KeyUsage;
  serialNumber : string
}.

(** A bag of type certBag: [cert] is [None] when the bag holds no parsed
    certificate, [cb_localKeyId] is [attributes.localKeyId], an array. *)
Record CertBag := {
  cert : option Cert;
  cb_localKeyId : option (list Buffer)
}.

(** A bag of type pkcs8ShroudedKeyBag; [key] names the private key. *)
Record KeyBag := {
  key : string;
  kb_localKeyId : option (list Buffer);
  kb_friendlyName : option (list str)
}.

(** [ku && ku.digitalSignature === true && ku.nonRepudiation === true] *)
Definition firma_y_no_repudio (c : Cert) : bool :=
  match keyUsage c with
  | Some ku => digitalSignature ku && nonRepudiation ku
  | None => false
  end.

(** [ku && ku.digitalSignature === true] *)
Definition solo_firma (c : Cert) : bool :=
  match keyUsage c with
  | Some ku => digitalSignature ku
  | None => false
  end.

(** The three callbacks of [bags.find] in [_seleccionarCertDeFirma]. *)
Definition prioridad_1 (b : CertBag) : bool :=
  match cert b with
  | Some c => if cA c then false else firma_y_no_repudio c
  | None => false
  end.

Definition prioridad_2 (b : CertBag) : bool :=
  match cert b with
  | Some c => if cA c then false else solo_firma c
  | None => false
  end.

Definition prioridad_3 (b : CertBag) : bool :=
  match cert b with
  | Some c => negb (cA c)
  | None => false
  end.

(** [a || b] on the result of [find]. *)
Definition o_si_no {A} (a b : option A) : option A :=
  match a with
  | Some _ => a
  | None => b
  end.

(** [arr?.[0]] *)
Definition primero {A} (arr : option (list A)) : option A :=
  match arr with
  | Some (x :: _) => Some x
  | _ => None
  end.

(** [_seleccionarCertDeFirma(p12)], on the bags of type certBag of the
    P12: the certificate chosen and its [localKeyId]. *)
Definition _seleccionarCertDeFirma (bags : list CertBag)
  : Res (Cert * option Buffer) :=
  let targetBag :=
    o_si_no (o_si_no (List.find prioridad_1 bags) (List.find prioridad_2 bags))
            (List.find prioridad_3 bags) in
  match targetBag with
  | None => Throw "[Signer] No se encontró certificado de firma digital en el P12."
  | Some b =>
      match cert b with
      | Some c => Ok (c, primero (cb_localKeyId b))
      | None => Throw "Cannot read properties of undefined"
      end
  end.

(** [seleccionarCertificadoDeFirma(certBags)] of the invoicing service.
    Its diagnostic [forEach] reads [bag.cert.getExtension] of every bag
    and throws on a bag without certificate. *)
Definition seleccionarCertificadoDeFirma (certBags : list CertBag) : Res CertBag :=
  if existsb (fun bag => match cert bag with None => true | Some _ => false end)
       certBags
  then Throw "Cannot read properties of undefined (reading 'getExtension')"
  else
    let target :=
      o_si_no (o_si_no (List.find prioridad_1 certBags)
                 (List.find prioridad_2 certBags))
              (List.find prioridad_3 certBags) in
    match target with
    | None =>
        Throw "No se encontró un certificado de firma digital válido en el P12."
    | Some b => Ok b
    end.

(** [s.includes(aguja)] *)
Fixpoint empieza_con (aguja s : str) : bool :=
  match aguja, s with
  | [], _ => true
  | a :: aguja', c :: s' => bool_decide (a = c) && empieza_con aguja' s'
  | _ :: _, [] => false
  end.

Fixpoint contiene (aguja s : str) : bool :=
  empieza_con aguja s
  || match s with
     | [] => false
     | _ :: s' => contiene aguja s'
     end.

Definition no_vacio (b : option Buffer) : option Buffer :=
  match b with
  | Some [] => None
  | otro => otro
  end.

Section Llave.

(** [String.prototype.toLowerCase] *)
Variable toLowerCase : str -> str.

(** The callback of [keyBags.find] that compares the identifiers. *)
Definition mismo_id (certKeyId : Buffer) (bag : KeyBag) : bool :=
  match no_vacio (primero (kb_localKeyId bag)) with
  | Some keyId => bool_decide (toString_hex keyId = toString_hex certKeyId)
  | None => false
  end.

(** The callback that looks for "Signing Key" in the [friendlyName]. *)
Definition es_signing_key (bag : KeyBag) : bool :=
  let name :=
    match primero (kb_friendlyName bag) with
    | Some (c :: n) => c :: n
    | _ => []
    end in
  contiene (lit "signing key") (toLowerCase name).

(** [_seleccionarLlaveDeFirma(p12, localKeyIdCert)], on the bags of type
    pkcs8ShroudedKeyBag of the P12. *)
Definition _seleccionarLlaveDeFirma (keyBags : list KeyBag)
    (localKeyIdCert : option Buffer) : Res string :=
  match keyBags with
  | [] => Throw "[Signer] No se encontraron llaves privadas en el P12."
  | [unica] => Ok (key unica)
  | _ =>
      let matchById :=
        match no_vacio localKeyIdCert with
        | Some certKeyId => List.find (mismo_id certKeyId) keyBags
        | None => None
        end in
      match matchById with
      | Some bag => Ok (key bag)
      | None =>
          match List.find es_signing_key keyBags with
          | Some bag => Ok (key bag)
          | None =>
              match last keyBags with
              | Some bag => Ok (key bag)
              | None => Throw "Cannot read properties of undefined"
              end
          end
      end
  end.

End Llave.

End Certificado.

(* ===================================================================== *)
(** * POST /invoices/emit (routes/invoices.js) *)
(* ===================================================================== *)

Module Emit.

Import Sistema.
Local Open Scope mon_scope.

(** The fields of the body that the route reads. [cliente] is whether
    the field is truthy. *)
Record Cuerpo := {
  cliente : bool;
  items : option (list (Calculadora.Item float));
  establecimiento : option string;
  punto_emision : option string
}.

(** What the surroundings of one request decide: whether
    [new Date(emisor.p12_expiration) < new Date()], the bytes drawn by
    [randomBytes(8)], the time of the INSERT and whether it is accepted. *)
Record Entorno := {
  firma_expirada : bool;
  aleatorio : Cifrado.Buffer;
  NOW : Z;
  insert_ok : bool
}.

Inductive Respuesta :=
| R200 (invoice_id : Z) (estado : string)
| R400 (mensaje : string)
| R402 (mensaje : string)
| R403 (mensaje : string)
| R404 (mensaje : string)
| R500 (error : string).

(** [!emisorId]: the id is missing or 0. *)
Definition sin_emisor (emisorId : option Z) : bool :=
  match emisorId with
  | Some id => id =? 0
  | None => true
  end.

(** [!items || items.length === 0] *)
Definition sin_items (items : option (list (Calculadora.Item float))) : bool :=
  match items with
  | Some (_ :: _) => false
  | _ => true
  end.

(** [!emisor.p12_path] *)
Definition sin_firma (p12_path : option string) : bool :=
  match p12_path with
  | Some p => Calculadora.cadena_falsy p
  | None => true
  end.

Definition post_emit (env : Entorno) (emisorId : option Z) (body : Cuerpo)
  : M Mundo Respuesta :=
  if sin_emisor emisorId then ret (R403 "Emisor no identificado en la sesión.")
  else if negb (cliente body) || sin_items (items body) then
    ret (R400 "Datos del cliente o items faltantes.")
  else
    let emisorId := default 0 emisorId in
    try_catch
      (emisorRes <- SELECT_emisor_balance emisorId ;;
       match emisorRes with
       | None =>
           throw "Cannot read properties of undefined (reading 'p12_path')"
       | Some (emisor, balance) =>
           if sin_firma (e_p12_path emisor) then
             ret (R400 "No has subido tu firma electrónica (.p12).")
           else if balance <=? 0 then
             ret (R402 "Saldo de créditos insuficiente.")
           else if firma_expirada env then
             ret (R400 "Tu firma electrónica ha expirado.")
           else
             let calculos :=
               Calculadora.calcularTotalesEImpuestos (default [] (items body)) in
             ptoRes <- SELECT_punto
                         (Integracion.o_cadena "001" (establecimiento body))
                         (Integracion.o_cadena "100" (punto_emision body))
                         emisorId ;;
             match ptoRes with
             | [] => ret (R404 "Punto de emisión no encontrado.")
             | (puntoEmisionId, _) :: _ =>
                 let tempClave :=
                   "PENDING-"
                   +:+ string_of_list_ascii (Cifrado.toString_hex (aleatorio env)) in
                 invoice_id <- gets (fun w => siguiente_id (invoices (db w))) ;;
                 INSERT_invoice (insert_ok env)
                   (fun id =>
                      {| i_id := id;
                         i_emisor_id := emisorId;
                         i_punto_emision_id := puntoEmisionId;
                         i_secuencial := None;
                         i_clave_acceso := tempClave;
                         i_estado := "PENDIENTE";
                         i_importe_total :=
                           Calculadora.importeTotal (Calculadora.totales calculos);
                         i_xml_path := None;
                         i_pdf_path := None;
                         i_mensajes_sri := None;
                         i_fecha_envio_sri := None;
                         i_fecha_autorizacion := None;
                         i_created_at := NOW env |}) ;;
                 ret (R200 invoice_id "PENDIENTE")
             end
       end)
      (fun _ => ret (R500 "Error interno al procesar la factura.")).

End Emit.


(* ===================================================================== *)
(** * API keys (routes/apiKeys.js, middlewares/apiKeyAuth.js) *)
(* ===================================================================== *)

Module ApiKeys.

Import Sistema.
Local Open Scope mon_scope.

(** A row of [api_keys]. The columns that can be NULL are options;
    [k_emisor_id] is one of them because [req.emisor_id] is undefined for
    a session without profile. *)
Record ApiKey := {
  k_id : string;
  k_emisor_id : option Z;
  k_key_hash : string;
  k_key_prefix : string;
  k_nombre : string;
  k_revoked : option bool;
  k_created_at : Z;
  k_last_used_at : option Z;
  k_revoked_at : option Z
}.

(** The table, in the order in which a scan returns its rows. *)
Definition Tabla := list ApiKey.

(** What the surroundings of one request decide: the bytes drawn by
    [randomBytes(24)], the columns that the INSERT leaves to the
    database ([id], [revoked], [created_at], [last_used_at],
    [revoked_at]), the time of [NOW()], and whether each query is
    accepted. *)
Record Entorno := {
  aleatorio : Cifrado.Buffer;
  por_defecto : ApiKey;
  NOW : Z;
  select_ok : bool;
  insert_ok : bool;
  update_ok : bool
}.

(** [a = b] in SQL: never true on NULL. *)
Definition igual_sql (a b : option Z) : bool :=
  match a, b with
  | Some x, Some y => x =? y
  | _, _ => false
  end.

(** [revoked = false] in SQL. *)
Definition vigente (k : ApiKey) : bool :=
  match k_revoked k with
  | Some false => true
  | _ => false
  end.

Section Llaves.

(** [crypto.createHash('sha256').update(s).digest('hex')] *)
Variable sha256_hex : string -> string.

(** ** GET /keys *)

Record Listada := {
  l_id : string;
  l_nombre : string;
  l_emisor_id : option Z;
  l_created_at : Z;
  l_last_used_at : option Z
}.

Definition listar (k : ApiKey) : Listada :=
  {| l_id := k_id k; l_nombre := k_nombre k; l_emisor_id := k_emisor_id k;
     l_created_at := k_created_at k; l_last_used_at := k_last_used_at k |}.

(** [ORDER BY created_at DESC] *)
Definition despues (a b : ApiKey) : Prop := k_created_at b <= k_created_at a.

#[global] Instance despues_dec : RelDecision despues :=
  fun a b => Z_le_dec (k_created_at b) (k_created_at a).

Inductive RespuestaLista :=
| L200 (keys : list Listada)
| L500 (error : string).

Definition get_keys (env : Entorno) (emisor_id : option Z)
  : M Tabla RespuestaLista :=
  try_catch
    (if select_ok env then
       rows <- gets (fun t =>
                 merge_sort despues
                   (List.filter
                      (fun k => igual_sql (k_emisor_id k) emisor_id && vigente k)
                      t)) ;;
       ret (L200 (listar <$> rows))
     else throw "error: SELECT FROM api_keys")
    (fun error => ret (L500 error)).

(** ** POST /keys *)

Inductive Respuesta :=
| R200 (mensaje : string)
| R201 (key_id : string) (api_key : string) (created_at : Z)
| R400 (mensaje : string)
| R404 (mensaje : string)
| R500 (error : string).

(** [!nombre] *)
Definition sin_nombre (nombre : option string) : bool :=
  match nombre with
  | Some n => Calculadora.cadena_falsy n
  | None => true
  end.

(** [INSERT INTO api_keys (emisor_id, key_hash, key_prefix, nombre)
     VALUES ($1, $2, $3, $4) RETURNING id, created_at] *)
Definition INSERT_api_key (env : Entorno) (emisor_id : option Z)
    (keyHash prefix nombre : string) : M Tabla ApiKey :=
  if insert_ok env then
    let fila :=
      {| k_id := k_id (por_defecto env);
         k_emisor_id := emisor_id;
         k_key_hash := keyHash;
         k_key_prefix := prefix;
         k_nombre := nombre;
         k_revoked := k_revoked (por_defecto env);
         k_created_at := k_created_at (por_defecto env);
         k_last_used_at := k_last_used_at (por_defecto env);
         k_revoked_at := k_revoked_at (por_defecto env) |} in
    modify (fun t => t ++ [fila]) ;;
    ret fila
  else throw "error: INSERT INTO api_keys".

Definition post_keys (env : Entorno) (emisor_id : option Z)
    (nombre : option string) : M Tabla Respuesta :=
  if sin_nombre nombre then
    ret (R400 "El nombre de la aplicación es requerido")
  else
    let nombre := default "" nombre in
    try_catch
      (let prefix := "kp_live" in
       let secret :=
         string_of_list_ascii (Cifrado.toString_hex (aleatorio env)) in
       let rawKey := prefix +:+ "_" +:+ secret in
       let keyHash := sha256_hex rawKey in
       fila <- INSERT_api_key env emisor_id keyHash prefix nombre ;;
       ret (R201 (k_id fila) rawKey (k_created_at fila)))
      (fun _ => ret (R500 "No se pudo generar la llave")).

(** ** DELETE /keys/:id *)

(** [UPDATE api_keys SET revoked = true, revoked_at = NOW()
     WHERE id = $1 AND emisor_id = $2 RETURNING id]; the result is
    [rowCount]. *)
Definition suya (id : string) (emisor_id : option Z) (k : ApiKey) : bool :=
  bool_decide (k_id k = id) && igual_sql (k_emisor_id k) emisor_id.

Definition revocar (ahora : Z) (k : ApiKey) : ApiKey :=
  {| k_id := k_id k;
     k_emisor_id := k_emisor_id k;
     k_key_hash := k_key_hash k;
     k_key_prefix := k_key_prefix k;
     k_nombre := k_nombre k;
     k_revoked := Some true;
     k_created_at := k_created_at k;
     k_last_used_at := k_last_used_at k;
     k_revoked_at := Some ahora |}.

Definition UPDATE_revocar (env : Entorno) (id : string) (emisor_id : option Z)
  : M Tabla nat :=
  if update_ok env then
    rowCount <- gets (fun t => length (List.filter (suya id emisor_id) t)) ;;
    modify (fun t =>
      (fun k => if suya id emisor_id k then revocar (NOW env) k else k) <$> t) ;;
    ret rowCount
  else throw "error: UPDATE api_keys".

Definition delete_key (env : Entorno) (id : string) (emisor_id : option Z)
  : M Tabla Respuesta :=
  try_catch
    (rowCount <- UPDATE_revocar env id emisor_id ;;
     if (rowCount =? 0)%nat then
       ret (R404 "Llave no encontrada o no pertenece a tu usuario")
     else ret (R200 "API Key revocada exitosamente"))
    (fun error => ret (R500 error)).

(** ** apiKeyMiddleware *)

(** Either the next handler runs, with [req.emisor_id] and
    [req.user.app_name] set, or the middleware answers. *)
Inductive Paso :=
| Next (emisor_id : option Z) (app_name : string)
| P401 (error : string)
| P403 (error : string)
| P500 (error : string).

(** [!apiKey] *)
Definition sin_llave (apiKey : option string) : bool :=
  match apiKey with
  | Some k => Calculadora.cadena_falsy k
  | None => true
  end.

(** [SELECT emisor_id, nombre FROM api_keys
     WHERE key_hash = $1 AND revoked = false] *)
Definition SELECT_por_hash (env : Entorno) (keyHash : string)
  : M Tabla (list ApiKey) :=
  if select_ok env then
    gets (List.filter
            (fun k => bool_decide (k_key_hash k = keyHash) && vigente k))
  else throw "error: SELECT FROM api_keys".

Definition usar (ahora : Z) (k : ApiKey) : ApiKey :=
  {| k_id := k_id k;
     k_emisor_id := k_emisor_id k;
     k_key_hash := k_key_hash k;
     k_key_prefix := k_key_prefix k;
     k_nombre := k_nombre k;
     k_revoked := k_revoked k;
     k_created_at := k_created_at k;
     k_last_used_at := Some ahora;
     k_revoked_at := k_revoked_at k |}.

(** [UPDATE api_keys SET last_used_at = NOW() WHERE key_hash = $1]. The
    query is sent without [await] and without a handler: a refusal
    changes neither the table nor the answer. The model runs it before
    the next handler. *)
Definition UPDATE_ultimo_uso (env : Entorno) (keyHash : string) : M Tabla unit :=
  if update_ok env then
    modify (fun t =>
      (fun k =>
         if bool_decide (k_key_hash k = keyHash) then usar (NOW env) k else k)
      <$> t)
  else ret tt.

Definition apiKeyMiddleware (env : Entorno) (apiKey : option string)
  : M Tabla Paso :=
  if sin_llave apiKey then ret (P401 "API Key faltante")
  else
    let apiKey := default "" apiKey in
    try_catch
      (let keyHash := sha256_hex apiKey in
       keyRes <- SELECT_por_hash env keyHash ;;
       match keyRes with
       | [] => ret (P403 "API Key inválida o revocada")
       | fila :: _ =>
           UPDATE_ultimo_uso env keyHash ;;
           ret (Next (k_emisor_id fila) (k_nombre fila))
       end)
      (fun _ => ret (P500 "Error validando API Key")).

End Llaves.

End ApiKeys.

(* ===================================================================== *)
(** * POST /api/admin/topup (routes/admin.js, behind serviceAuth) *)
(* ===================================================================== *)

Module Admin.

Import Sistema.
Local Open Scope mon_scope.

Record TransactionLog := {
  tl_target_emisor_id : Z;
  tl_amount : string;
  tl_action_type : string;
  tl_description : string
}.

(** The world of the other handlers with the table [transaction_logs],
    and the state of that table to which an open transaction rolls
    back. *)
Record Estado := {
  mundo : Mundo;
  transaction_logs : list TransactionLog;
  tx_logs : option (list TransactionLog)
}.

Definition en_mundo {A} (m : M Mundo A) : M Estado A :=
  fun s =>
    let (r, w) := m (mundo s) in
    (r, {| mundo := w; transaction_logs := transaction_logs s;
           tx_logs := tx_logs s |}).

Definition BEGIN : M Estado unit :=
  en_mundo Sistema.BEGIN ;;
  modify (fun s => {| mundo := mundo s;
                      transaction_logs := transaction_logs s;
                      tx_logs := Some (transaction_logs s) |}).

Definition COMMIT : M Estado unit :=
  en_mundo Sistema.COMMIT ;;
  modify (fun s => {| mundo := mundo s;
                      transaction_logs := transaction_logs s;
                      tx_logs := None |}).

Definition ROLLBACK : M Estado unit :=
  en_mundo Sistema.ROLLBACK ;;
  modify (fun s => {| mundo := mundo s;
                      transaction_logs :=
                        default (transaction_logs s) (tx_logs s);
                      tx_logs := None |}).

(** Whether the database accepts the UPDATE and the INSERT. *)
Record Entorno := {
  update_ok : bool;
  insert_ok : bool
}.

Inductive Respuesta :=
| R200 (nuevo_balance : Z)
| R400 (mensaje : string)
| R403 (mensaje : string)
| R500 (error : string).

(** ** serviceMiddleware *)

(** [!n8nKey || n8nKey !== process.env.N8N_API_KEY]; [None] stands for
    [next()]. *)
Definition serviceMiddleware (N8N_API_KEY n8nKey : option string)
  : option Respuesta :=
  if match n8nKey with
     | Some k => Calculadora.cadena_falsy k
     | None => true
     end
     || negb (bool_decide (n8nKey = N8N_API_KEY))
  then Some (R403 "Acceso denegado a servicios internos")
  else None.

(** ** The handler *)

(** A field of the JSON body, of any type, as the handler sees it:
    [truthy] is whether [!v] is false, [texto] the text that the driver
    sends for [v] as a query parameter, [cadena] is [String(v)], and
    [entero] is [parseInt(v)] as the driver writes it, [None] when it is
    NaN or is not written as an integer. So the number [-5] is
    [(true, "-5", "-5", Some (-5))], the string ["0"] is
    [(true, "0", "0", Some 0)], the number [0] is
    [(false, "0", "0", Some 0)] and the string ["12abc"] is
    [(true, "12abc", "12abc", Some 12)]. *)
Record Valor := {
  truthy : bool;
  texto : string;
  cadena : string;
  entero : option Z
}.

(** The fields of the body; [None] is a field that is absent. *)
Record Cuerpo := {
  ruc : option Valor;
  amount : option Valor;
  reference_id : option Valor
}.

(** [!v] *)
Definition falta (v : option Valor) : bool :=
  match v with
  | Some x => negb (truthy x)
  | None => true
  end.

(** [SELECT id FROM emisores WHERE ruc = $1] *)
Definition SELECT_id_por_ruc (ruc : string) : M Estado (list Z) :=
  gets (fun s =>
    fst <$> List.filter (fun '(_, e) => bool_decide (e_ruc e = ruc))
              (map_to_list (emisores (db (mundo s))))).

(** [UPDATE user_credits SET balance = balance + $1, last_updated = NOW()
     WHERE emisor_id = $2 RETURNING balance] with [$1 = parseInt(amount)];
    the result is [rows]. [balance] is an integer column: a parameter
    that is not written as an integer is refused. *)
Definition UPDATE_user_credits_recarga (ok : bool) (monto : option Z)
    (emisorId : Z) : M Estado (list Z) :=
  match monto with
  | None => throw "invalid input syntax for type integer"
  | Some monto =>
      if ok then
        fila <- gets (fun s => user_credits (db (mundo s)) !! emisorId) ;;
        match fila with
        | Some balance =>
            en_mundo (modify (con_db (con_user_credits
              (insert emisorId (balance + monto))))) ;;
            ret [balance + monto]
        | None => ret []
        end
      else throw "error: UPDATE user_credits"
  end.

(** [INSERT INTO transaction_logs (target_emisor_id, amount, action_type,
     description) VALUES ($1, $2, 'STRIPE_RECHARGE', $3)] with
    [$2 = amount], the field as it came. *)
Definition INSERT_transaction_log (ok : bool) (emisorId : Z)
    (amount description : string) : M Estado unit :=
  if ok then
    modify (fun s =>
      {| mundo := mundo s;
         transaction_logs :=
           transaction_logs s
           ++ [{| tl_target_emisor_id := emisorId;
                  tl_amount := amount;
                  tl_action_type := "STRIPE_RECHARGE";
                  tl_description := description |}];
         tx_logs := tx_logs s |})
  else throw "error: INSERT INTO transaction_logs".

(** [reference_id || 'N/A'] inside the template string. *)
Definition referencia (reference_id : option Valor) : string :=
  match reference_id with
  | Some v => if truthy v then cadena v else "N/A"
  | None => "N/A"
  end.

Definition post_topup (env : Entorno) (body : Cuerpo) : M Estado Respuesta :=
  if falta (ruc body) || falta (amount body) then
    ret (R400 "RUC y monto son requeridos")
  else
    let ruc := ruc body in
    let amount := amount body in
    try_catch
      (BEGIN ;;
       emisorRes <- SELECT_id_por_ruc (default "" (texto <$> ruc)) ;;
       match emisorRes with
       | [] =>
           throw ("Emisor con RUC " +:+ default "" (cadena <$> ruc)
                  +:+ " no encontrado")
       | emisorId :: _ =>
           updateRes <- UPDATE_user_credits_recarga (update_ok env)
                          (amount ≫= entero) emisorId ;;
           INSERT_transaction_log (insert_ok env) emisorId
             (default "" (texto <$> amount))
             ("Recarga n8n - Ref: " +:+ referencia (reference_id body)) ;;
           COMMIT ;;
           match updateRes with
           | nuevo :: _ => ret (R200 nuevo)
           | [] =>
               throw
                 "Cannot read properties of undefined (reading 'balance')"
           end
       end)
      (fun error => ROLLBACK ;; ret (R500 error)).

(** The route: [router.post('/topup', serviceAuth, ...)]. *)
Definition topup (N8N_API_KEY n8nKey : option string) (env : Entorno)
    (body : Cuerpo) : M Estado Respuesta :=
  match serviceMiddleware N8N_API_KEY n8nKey with
  | Some respuesta => ret respuesta
  | None => post_topup env body
  end.

End Admin.
(* ===================================================================== *)
(** * Properties of the access-key builder *)
(* ===================================================================== *)

Module AccessKeyProps.

Import AccessKey.

Lemma digitos_app s t : digitos s -> digitos t -> digitos (s ++ t).
Proof. unfold digitos. intros; apply Forall_app; auto. Qed.

Lemma digitos_take n s : digitos s -> digitos (take n s).
Proof. unfold digitos. apply Forall_take. Qed.

Lemma digitos_limpiar s : digitos (limpiar s).
Proof.
  unfold digitos, limpiar. apply List.Forall_forall. intros c Hc.
  apply List.filter_In in Hc. tauto.
Qed.

Lemma digitos_padStart n s : digitos s -> digitos (padStart n s).
Proof.
  intros Hs. unfold padStart. apply digitos_app; [|exact Hs].
  unfold digitos. apply Forall_replicate. reflexivity.
Qed.

Lemma length_padStart n s : length (padStart n s) = Nat.max n (length s).
Proof. unfold padStart. rewrite length_app, length_replicate. lia. Qed.

Lemma length_campo n s : length (substring0 n (padStart n s)) = n.
Proof. unfold substring0. rewrite length_take, length_padStart. lia. Qed.

Lemma digitos_clave_base lx fecha tipo ruc amb serie sec cod :
  digitos (clave_base lx fecha tipo ruc amb serie sec cod).
Proof.
  unfold clave_base, substring0.
  repeat apply digitos_app;
    try (apply digitos_take; try apply digitos_padStart; apply digitos_limpiar).
  unfold digitos. repeat constructor.
Qed.

(** The length of the base only depends on the three fields that are
    not padded. *)
Lemma length_clave_base lx fecha tipo ruc amb serie sec cod :
  length (clave_base lx fecha tipo ruc amb serie sec cod)
  = (Nat.min 8 (length (limpiar (finalFecha_de lx fecha)))
     + Nat.min 13 (length (limpiar ruc))
     + Nat.min 1 (length (limpiar amb)) + 26)%nat.
Proof.
  unfold clave_base. rewrite !length_app, !length_campo.
  unfold substring0. rewrite !length_take. simpl. lia.
Qed.

(** *** The loop computes the weighted sum *)

Lemma peso_siguiente i : (if peso i =? 7 then 2 else peso i + 1) = peso (S i).
Proof.
  unfold peso.
  assert (Hi : (i mod 6 < 6)%nat) by (apply Nat.mod_upper_bound; lia).
  assert (HS : (S i mod 6 = if (i mod 6 =? 5)%nat then 0 else S (i mod 6))%nat).
  { replace (S i) with (1 + i)%nat by lia.
    rewrite Nat.Div0.add_mod, (Nat.mod_small 1 6) by lia.
    destruct (i mod 6 =? 5)%nat eqn:E.
    - apply Nat.eqb_eq in E. rewrite E. reflexivity.
    - apply Nat.eqb_neq in E. apply Nat.mod_small. lia. }
  rewrite HS. destruct (i mod 6 =? 5)%nat eqn:E.
  - apply Nat.eqb_eq in E. rewrite E. reflexivity.
  - apply Nat.eqb_neq in E.
    destruct (2 + Z.of_nat (i mod 6) =? 7) eqn:E7; [apply Z.eqb_eq in E7|]; lia.
Qed.

Lemma parseInt_char_digito c :
  is_digit c = true -> parseInt_char c = Some (valor_digito c).
Proof. unfold parseInt_char, valor_digito. intros ->. reflexivity. Qed.

Lemma valor_digito_rango c : is_digit c = true -> 0 <= valor_digito c <= 9.
Proof.
  unfold is_digit, valor_digito. intros H.
  apply andb_true_iff in H as [H1 H2].
  apply Nat.leb_le in H1, H2. lia.
Qed.

Lemma modulo11_loop_suma l : forall s i,
  digitos l ->
  modulo11_loop l (Some s) (peso i)
  = Some (s + suma_ponderada (map valor_digito l) i).
Proof.
  induction l as [|c l IH]; intros s i Hl; simpl.
  - f_equal. lia.
  - inversion Hl as [|? ? Hc Hl']; subst.
    rewrite (parseInt_char_digito c Hc), peso_siguiente, IH by exact Hl'.
    f_equal. lia.
Qed.

Lemma suma_ponderada_nonneg l : forall i,
  Forall (fun d => 0 <= d) l -> 0 <= suma_ponderada l i.
Proof.
  induction l as [|d l IH]; intros i Hl; simpl; [lia|].
  inversion Hl; subst. specialize (IH (S i) ltac:(assumption)).
  assert (0 <= peso i) by (unfold peso; lia). nia.
Qed.

Lemma digitos_rev s : digitos s -> digitos (rev s).
Proof. unfold digitos. intros H. apply Forall_rev. exact H. Qed.

Lemma valores_nonneg s : digitos s -> Forall (fun d => 0 <= d) (map valor_digito s).
Proof.
  unfold digitos. intros H. apply Forall_map. eapply Forall_impl; [exact H|].
  intros c Hc. simpl. apply valor_digito_rango in Hc. lia.
Qed.

(** [modulo11] refines the check digit of the specification. *)
Lemma modulo11_spec s :
  digitos s -> modulo11 s = Some (digito_spec (map valor_digito s)).
Proof.
  intros Hs. unfold modulo11, digito_spec.
  change 2 with (peso 0) at 1.
  rewrite modulo11_loop_suma by (apply digitos_rev; exact Hs).
  rewrite Z.add_0_l, <- map_rev.
  pose proof (suma_ponderada_nonneg _ 0 (valores_nonneg _ (digitos_rev _ Hs))) as Hn.
  rewrite Z.rem_mod_nonneg by lia.
  destruct (_ =? 11); [reflexivity|]. destruct (_ =? 10); reflexivity.
Qed.

Lemma digito_spec_rango l : 0 <= digito_spec l <= 9.
Proof.
  unfold digito_spec.
  pose proof (Z.mod_pos_bound (suma_ponderada (rev l) 0) 11 ltac:(lia)) as Hm.
  destruct (_ =? 11) eqn:E1; [lia|]. destruct (_ =? 10) eqn:E2; [lia|].
  apply Z.eqb_neq in E1, E2. lia.
Qed.

Lemma number_toString_digito d :
  0 <= d <= 9 ->
  exists c, number_toString (Some d) = [c] /\ is_digit c = true
            /\ valor_digito c = d.
Proof.
  intros Hd.
  assert (d = 0 \/ d = 1 \/ d = 2 \/ d = 3 \/ d = 4 \/ d = 5 \/ d = 6
          \/ d = 7 \/ d = 8 \/ d = 9) as Hc by lia.
  repeat (destruct Hc as [-> | Hc]); [..|subst d];
    (eexists; split; [reflexivity | split; reflexivity]).
Qed.

(** C3: whenever the access-key builder returns, the key has exactly 49
    characters, all of them decimal digits, and its last digit is the
    modulo-11 check digit of the first 48 (weights 2..7 cycling from the
    right, [11 - sum mod 11], 11 becoming 0 and 10 becoming 1); when the
    concatenated base does not measure 48 the builder throws instead. *)
Theorem generarClaveAcceso_correcta lx fecha tipo ruc amb serie sec cod :
  (forall claveFinal,
     generarClaveAcceso lx fecha tipo ruc amb serie sec cod = Clave claveFinal ->
     length claveFinal = 49%nat
     /\ digitos claveFinal
     /\ exists c,
          claveFinal = take 48 claveFinal ++ [c]
          /\ valor_digito c = digito_spec (map valor_digito (take 48 claveFinal)))
  /\ (length (clave_base lx fecha tipo ruc amb serie sec cod) <> 48%nat ->
      generarClaveAcceso lx fecha tipo ruc amb serie sec cod
      = ErrorClaveBase
          (length (clave_base lx fecha tipo ruc amb serie sec cod))
          (clave_base lx fecha tipo ruc amb serie sec cod)).
Proof.
  unfold generarClaveAcceso.
  set (base := clave_base lx fecha tipo ruc amb serie sec cod).
  pose proof (digitos_clave_base lx fecha tipo ruc amb serie sec cod) as Hd.
  fold base in Hd. split.
  - intros claveFinal. destruct (length base =? 48)%nat eqn:E; simpl; [|discriminate].
    apply Nat.eqb_eq in E. intros [= <-].
    rewrite (modulo11_spec base Hd).
    destruct (number_toString_digito _ (digito_spec_rango (map valor_digito base)))
      as (c & Hc & Hdig & Hval).
    rewrite Hc.
    assert (Htake : take 48 (base ++ [c]) = base)
      by (rewrite take_app_le by lia; apply take_ge; lia).
    repeat split.
    + rewrite length_app, E. reflexivity.
    + apply digitos_app; [exact Hd|]. repeat constructor. exact Hdig.
    + exists c. rewrite Htake. split; [reflexivity | exact Hval].
  - intros Hne. apply Nat.eqb_neq in Hne. rewrite Hne. reflexivity.
Qed.

Lemma generarClaveAcceso_correcta_witness :
  let k := lit "2302202601179001167400110011000000001231011123411" in
  length k = 49%nat /\ digitos k
  /\ exists c, k = take 48 k ++ [c]
       /\ valor_digito c = digito_spec (map valor_digito (take 48 k)).
Proof.
  apply (proj1 (generarClaveAcceso_correcta reloj_ejemplo
                  (Some (lit "2026-02-23")) (lit "01") (lit "1790011674001")
                  (lit "1") (lit "001100") (lit "000000123") None)).
  reflexivity.
Defined.

(** *** Truncation of over-long components *)

Lemma limpiar_app s x : limpiar (s ++ x) = limpiar s ++ limpiar x.
Proof. unfold limpiar. apply List.filter_app. Qed.

Lemma padStart_largo n s : (n <= length s)%nat -> padStart n s = s.
Proof.
  intros H. unfold padStart. replace (n - length s)%nat with 0%nat by lia.
  reflexivity.
Qed.

Lemma campo_descarta n s x :
  (n <= length (limpiar s))%nat ->
  substring0 n (limpiar (s ++ x)) = substring0 n (limpiar s).
Proof.
  intros H. unfold substring0. rewrite limpiar_app. apply take_app_le. exact H.
Qed.

Lemma campo_relleno_descarta n s x :
  (n <= length (limpiar s))%nat ->
  substring0 n (padStart n (limpiar (s ++ x)))
  = substring0 n (padStart n (limpiar s)).
Proof.
  intros H. rewrite !padStart_largo.
  - apply campo_descarta. exact H.
  - exact H.
  - rewrite limpiar_app, length_app. lia.
Qed.

Lemma length_limpiar s : (length (limpiar s) <= length s)%nat.
Proof. unfold limpiar. apply List.filter_length_le. Qed.

Lemma tomar_campo (a b : str) n :
  length a = n -> take n (a ++ b) = a /\ drop n (a ++ b) = b.
Proof.
  intros <-. split; [apply take_app_length|apply drop_app_length].
Qed.

(** The fields of a base of 48 characters, read back by position. *)
Lemma clave_base_campos lx fecha tipo ruc amb serie sec cod (dv : str) :
  length (clave_base lx fecha tipo ruc amb serie sec cod) = 48%nat ->
  let k := clave_base lx fecha tipo ruc amb serie sec cod ++ dv in
  take 8 k = substring0 8 (limpiar (finalFecha_de lx fecha))
  /\ take 2 (drop 8 k) = substring0 2 (padStart 2 (limpiar tipo))
  /\ take 13 (drop 10 k) = substring0 13 (limpiar ruc)
  /\ take 1 (drop 23 k) = substring0 1 (limpiar amb)
  /\ take 6 (drop 24 k) = substring0 6 (padStart 6 (limpiar serie))
  /\ take 9 (drop 30 k) = substring0 9 (padStart 9 (limpiar sec))
  /\ take 8 (drop 39 k)
     = substring0 8 (padStart 8 (limpiar (codigoFinal_de lx cod))).
Proof.
  intros H48 k. subst k.
  pose proof (length_clave_base lx fecha tipo ruc amb serie sec cod) as Hlen.
  rewrite H48 in Hlen. unfold clave_base.
  set (p1 := substring0 8 (limpiar (finalFecha_de lx fecha))).
  set (p2 := substring0 2 (padStart 2 (limpiar tipo))).
  set (p3 := substring0 13 (limpiar ruc)).
  set (p4 := substring0 1 (limpiar amb)).
  set (p5 := substring0 6 (padStart 6 (limpiar serie))).
  set (p6 := substring0 9 (padStart 9 (limpiar sec))).
  set (p7 := substring0 8 (padStart 8 (limpiar (codigoFinal_de lx cod)))).
  assert (H1 : length p1 = 8%nat)
    by (unfold p1, substring0; rewrite length_take; lia).
  assert (H2 : length p2 = 2%nat) by apply length_campo.
  assert (H3 : length p3 = 13%nat)
    by (unfold p3, substring0; rewrite length_take; lia).
  assert (H4 : length p4 = 1%nat)
    by (unfold p4, substring0; rewrite length_take; lia).
  assert (H5 : length p5 = 6%nat) by apply length_campo.
  assert (H6 : length p6 = 9%nat) by apply length_campo.
  assert (H7 : length p7 = 8%nat) by apply length_campo.
  rewrite <- !app_assoc.
  set (K := p1 ++ _).
  replace (drop 39 K) with (drop 9 (drop 30 K)) by (rewrite drop_drop; reflexivity).
  replace (drop 30 K) with (drop 6 (drop 24 K)) by (rewrite drop_drop; reflexivity).
  replace (drop 24 K) with (drop 1 (drop 23 K)) by (rewrite drop_drop; reflexivity).
  replace (drop 23 K) with (drop 13 (drop 10 K)) by (rewrite drop_drop; reflexivity).
  replace (drop 10 K) with (drop 2 (drop 8 K)) by (rewrite drop_drop; reflexivity).
  subst K.
  destruct (tomar_campo p1 (p2 ++ p3 ++ p4 ++ p5 ++ p6 ++ p7 ++ lit "1" ++ dv) 8 H1)
    as [-> ->].
  destruct (tomar_campo p2 (p3 ++ p4 ++ p5 ++ p6 ++ p7 ++ lit "1" ++ dv) 2 H2)
    as [-> ->].
  destruct (tomar_campo p3 (p4 ++ p5 ++ p6 ++ p7 ++ lit "1" ++ dv) 13 H3)
    as [-> ->].
  destruct (tomar_campo p4 (p5 ++ p6 ++ p7 ++ lit "1" ++ dv) 1 H4) as [-> ->].
  destruct (tomar_campo p5 (p6 ++ p7 ++ lit "1" ++ dv) 6 H5) as [-> ->].
  destruct (tomar_campo p6 (p7 ++ lit "1" ++ dv) 9 H6) as [-> ->].
  destruct (tomar_campo p7 (lit "1" ++ dv) 8 H7) as [-> _].
  repeat split; reflexivity.
Qed.

(** C9: every cleaned component is cut to its width and nothing is
    rejected for being too long. In every key that the builder returns,
    the field of the RUC holds the first 13 digits of the cleaned RUC,
    and the fields of the serial, the sequential and the numeric code
    hold the first 6, 9 and 8 digits of the cleaned component as soon as
    it has that many (the date and the environment are cut to 8 and 1
    digits alike): digits beyond the width do not reach the key, so that
    appending any text to a component that is long enough leaves the
    result as it was. The error of the 48-character check is raised
    exactly when the date, the RUC or the environment has too few digits
    after cleaning, never because a component is too long. *)
Theorem generarClaveAcceso_trunca lx fecha tipo ruc amb serie sec cod :
  ((exists n base,
      generarClaveAcceso lx fecha tipo ruc amb serie sec cod
      = ErrorClaveBase n base)
   <-> ((length (limpiar (finalFecha_de lx fecha)) < 8)%nat
        \/ (length (limpiar ruc) < 13)%nat
        \/ (length (limpiar amb) < 1)%nat))
  /\ (forall x, (13 <= length (limpiar ruc))%nat ->
       generarClaveAcceso lx fecha tipo (ruc ++ x) amb serie sec cod
       = generarClaveAcceso lx fecha tipo ruc amb serie sec cod)
  /\ (forall x, (9 <= length (limpiar sec))%nat ->
       generarClaveAcceso lx fecha tipo ruc amb serie (sec ++ x) cod
       = generarClaveAcceso lx fecha tipo ruc amb serie sec cod)
  /\ (forall x, (6 <= length (limpiar serie))%nat ->
       generarClaveAcceso lx fecha tipo ruc amb (serie ++ x) sec cod
       = generarClaveAcceso lx fecha tipo ruc amb serie sec cod)
  /\ (forall c x, (8 <= length (limpiar c))%nat ->
       generarClaveAcceso lx fecha tipo ruc amb serie sec (Some (c ++ x))
       = generarClaveAcceso lx fecha tipo ruc amb serie sec (Some c))
  /\ (forall k,
        generarClaveAcceso lx fecha tipo ruc amb serie sec cod = Clave k ->
        take 8 k = take 8 (limpiar (finalFecha_de lx fecha))
        /\ take 13 (drop 10 k) = take 13 (limpiar ruc)
        /\ take 1 (drop 23 k) = take 1 (limpiar amb)
        /\ ((6 <= length (limpiar serie))%nat ->
            take 6 (drop 24 k) = take 6 (limpiar serie))
        /\ ((9 <= length (limpiar sec))%nat ->
            take 9 (drop 30 k) = take 9 (limpiar sec))
        /\ ((8 <= length (limpiar (codigoFinal_de lx cod)))%nat ->
            take 8 (drop 39 k) = take 8 (limpiar (codigoFinal_de lx cod)))).
Proof.
  split; [|split; [|split; [|split; [|split]]]].
  - unfold generarClaveAcceso.
    pose proof (length_clave_base lx fecha tipo ruc amb serie sec cod) as Hl.
    destruct (length (clave_base lx fecha tipo ruc amb serie sec cod) =? 48)%nat
      eqn:E; simpl.
    + apply Nat.eqb_eq in E. split; [intros (n & b & Hnb); discriminate | lia].
    + apply Nat.eqb_neq in E. split; [lia | eauto].
  - intros x H. unfold generarClaveAcceso, clave_base.
    rewrite (campo_descarta 13 ruc x H). reflexivity.
  - intros x H. unfold generarClaveAcceso, clave_base.
    rewrite (campo_relleno_descarta 9 sec x H). reflexivity.
  - intros x H. unfold generarClaveAcceso, clave_base.
    rewrite (campo_relleno_descarta 6 serie x H). reflexivity.
  - intros c x H. unfold generarClaveAcceso, clave_base.
    assert (Hc : codigoFinal_de lx (Some (c ++ x)) = c ++ x
                 /\ codigoFinal_de lx (Some c) = c).
    { pose proof (length_limpiar c). unfold codigoFinal_de.
      destruct c as [|a c']; [simpl in *; lia|]. split; reflexivity. }
    destruct Hc as [-> ->].
    rewrite (campo_relleno_descarta 8 c x H). reflexivity.
  - intros k. unfold generarClaveAcceso.
    destruct (length (clave_base lx fecha tipo ruc amb serie sec cod) =? 48)%nat
      eqn:H48; simpl; [|discriminate].
    apply Nat.eqb_eq in H48. intros [= <-].
    match goal with
    | |- context [clave_base lx fecha tipo ruc amb serie sec cod ++ ?dv] =>
        destruct (clave_base_campos lx fecha tipo ruc amb serie sec cod dv H48)
          as (H1 & _ & H3 & H4 & H5 & H6 & H7)
    end.
    unfold substring0 in *.
    split; [exact H1|]. split; [exact H3|]. split; [exact H4|].
    split; [|split].
    + intros Hl. rewrite H5, (padStart_largo 6 _ Hl). reflexivity.
    + intros Hl. rewrite H6, (padStart_largo 9 _ Hl). reflexivity.
    + intros Hl. rewrite H7, (padStart_largo 8 _ Hl). reflexivity.
Qed.

Lemma generarClaveAcceso_trunca_witness :
  let largo :=
    generarClaveAcceso reloj_ejemplo (Some (lit "2026-02-23")) (lit "01")
      (lit "1790011674001" ++ lit "999") (lit "1") (lit "001100")
      (lit "9876543210") None in
  largo = Clave (lit "2302202601179001167400110011009876543211011123410")
  /\ largo
     = generarClaveAcceso reloj_ejemplo (Some (lit "2026-02-23")) (lit "01")
         (lit "1790011674001") (lit "1") (lit "001100") (lit "9876543210")
         None
  /\ take 13 (drop 10 (lit "2302202601179001167400110011009876543211011123410"))
     = lit "1790011674001"
  /\ take 9 (drop 30 (lit "2302202601179001167400110011009876543211011123410"))
     = lit "987654321".
Proof.
  intros largo.
  assert (Hk : largo
               = Clave (lit "2302202601179001167400110011009876543211011123410"))
    by (vm_compute; reflexivity).
  pose proof (generarClaveAcceso_trunca reloj_ejemplo
                (Some (lit "2026-02-23")) (lit "01")
                (lit "1790011674001") (lit "1") (lit "001100")
                (lit "9876543210") None) as (_ & Hruc & _).
  pose proof (generarClaveAcceso_trunca reloj_ejemplo
                (Some (lit "2026-02-23")) (lit "01")
                (lit "1790011674001" ++ lit "999") (lit "1") (lit "001100")
                (lit "9876543210") None)
    as (_ & _ & _ & _ & _ & Hcampos).
  destruct (Hcampos _ Hk) as (_ & H3 & _ & _ & H6 & _).
  split; [exact Hk|]. split; [apply Hruc; simpl; lia|].
  split; [exact H3|]. apply H6. simpl. lia.
Defined.

End AccessKeyProps.

(* ===================================================================== *)
(** * Properties of the tax calculator *)
(* ===================================================================== *)

Module CalculadoraProps.

Import Calculadora.
Local Open Scope Q_scope.

(** ** Rounding *)

Lemma redondear_error x :
  - (1 # 2) <= inject_Z (redondear x) - x <= 1 # 2.
Proof.
  unfold redondear. destruct (Qle_bool 0 x) eqn:E.
  - pose proof (Qfloor_le (x + (1 # 2))) as H1.
    pose proof (Qlt_floor (x + (1 # 2))) as H2.
    rewrite inject_Z_plus in H2. change (inject_Z 1) with 1 in H2. lra.
  - pose proof (Qfloor_le (- x + (1 # 2))) as H1.
    pose proof (Qlt_floor (- x + (1 # 2))) as H2.
    rewrite inject_Z_plus in H2. change (inject_Z 1) with 1 in H2.
    rewrite inject_Z_opp. lra.
Qed.

Lemma redondear_comp x y : x == y -> redondear x = redondear y.
Proof.
  intros H. unfold redondear.
  rewrite (Qleb_comp 0 0 (Qeq_refl 0) x y H).
  rewrite (Qfloor_comp (x + (1 # 2)) (y + (1 # 2))) by (rewrite H; reflexivity).
  rewrite (Qfloor_comp (- x + (1 # 2)) (- y + (1 # 2))) by (rewrite H; reflexivity).
  reflexivity.
Qed.

Lemma toFixed2_Q_comp x y : x == y -> toFixed2_Q x = toFixed2_Q y.
Proof. intros H. unfold toFixed2_Q. apply redondear_comp. rewrite H. reflexivity. Qed.

(** The formatted amount is within half a cent of the exact one. *)
Lemma toFixed2_Q_error x :
  - (1 # 2) <= inject_Z (toFixed2_Q x) - 100 * x <= 1 # 2.
Proof. unfold toFixed2_Q. pose proof (redondear_error (x * 100)). lra. Qed.

(** ** Sums over the accumulated entries *)

Definition bases (imps : list (Acumulado Q)) : Q :=
  suma_Q (map imp_baseImponible imps).

Definition valores (imps : list (Acumulado Q)) : Q :=
  suma_Q (map imp_valor imps).

Lemma suma_Q_app l l' : suma_Q (l ++ l') == suma_Q l + suma_Q l'.
Proof. induction l as [|x l IH]; simpl; [|rewrite IH]; lra. Qed.

Lemma suma_Q_perm l l' : Permutation l l' -> suma_Q l == suma_Q l'.
Proof.
  induction 1 as [| x l l' _ IH | x y l | l l' l'' _ IH1 _ IH2]; simpl.
  - reflexivity.
  - rewrite IH. reflexivity.
  - lra.
  - rewrite IH1. exact IH2.
Qed.

Ltac q_simpl :=
  cbn [add sub mul div de_Z clave_igual eq_estricto Numero_Q] in *;
  change (inject_Z 0) with 0 in *; change (inject_Z 100) with 100 in *.

Lemma acumular_sumas imps tarifa infoSri base valor :
  bases (acumular imps tarifa infoSri base valor) == bases imps + base
  /\ valores (acumular imps tarifa infoSri base valor) == valores imps + valor.
Proof.
  unfold bases, valores.
  induction imps as [|imp imps [IHb IHv]]; simpl; q_simpl.
  - split; lra.
  - destruct (Qeq_bool (imp_tarifa imp) tarifa); simpl.
    + split; lra.
    + rewrite IHb, IHv. split; lra.
Qed.

Lemma procesar_item_acum (ac : Acum Q) item :
  fst (procesar_item ac item)
  = {| ac_totalSinImpuestos := ac_totalSinImpuestos ac + base_de item;
       ac_totalDescuento :=
         ac_totalDescuento ac
         + o_num (js_or falsy (descuento item) (Some (de_Z 0)));
       impuestosAcumulados :=
         acumular (impuestosAcumulados ac) (tarifa_de item)
           (default CODIGOS_IVA_0 (CODIGOS_IVA_get (tarifa_de item)))
           (base_de item) (valor_de item) |}.
Proof. reflexivity. Qed.

Lemma recorrer_cons {num} `{Numero num} (item : Item num) items ac :
  fst (recorrer (item :: items) ac)
  = fst (recorrer items (fst (procesar_item ac item))).
Proof.
  cbn [recorrer]. destruct (procesar_item ac item) as [ac1 det].
  cbn [fst]. destruct (recorrer items ac1) as [ac2 dets]. reflexivity.
Qed.

Lemma recorrer_sumas items : forall ac,
  ac_totalSinImpuestos (fst (recorrer items ac))
    == ac_totalSinImpuestos ac + suma_Q (map base_de items)
  /\ bases (impuestosAcumulados (fst (recorrer items ac)))
    == bases (impuestosAcumulados ac) + suma_Q (map base_de items)
  /\ valores (impuestosAcumulados (fst (recorrer items ac)))
    == valores (impuestosAcumulados ac) + suma_Q (map valor_de items).
Proof.
  induction items as [|item items IH]; intros ac.
  - simpl. repeat split; lra.
  - rewrite recorrer_cons.
    destruct (IH (fst (procesar_item ac item))) as (IH1 & IH2 & IH3).
    rewrite procesar_item_acum in IH1, IH2, IH3. simpl in IH1, IH2, IH3.
    destruct (acumular_sumas (impuestosAcumulados ac) (tarifa_de item)
                (default CODIGOS_IVA_0 (CODIGOS_IVA_get (tarifa_de item)))
                (base_de item) (valor_de item)) as [Hb Hv].
    rewrite IH1, IH2, IH3, Hb, Hv. simpl. repeat split; lra.
Qed.

(** ** [Object.values] only reorders the entries *)

Section Orden.
Context {num : Type} `{Numero num}.

Lemma insertar_por_indice_perm (imp : Acumulado num) orden :
  Permutation (insertar_por_indice imp orden) (imp :: orden).
Proof.
  induction orden as [|x orden IH]; simpl; [reflexivity|].
  destruct (indice_de imp <=? indice_de x)%N; [reflexivity|].
  rewrite IH. apply perm_swap.
Qed.

Lemma ordenar_por_indice_perm (imps : list (Acumulado num)) :
  Permutation (ordenar_por_indice imps) imps.
Proof.
  induction imps as [|imp imps IH]; simpl; [reflexivity|].
  rewrite insertar_por_indice_perm, IH. reflexivity.
Qed.

Lemma particion_perm {A} (f : A -> bool) l :
  Permutation (List.filter f l ++ List.filter (fun x => negb (f x)) l) l.
Proof.
  induction l as [|x l IH]; simpl; [reflexivity|].
  destruct (f x); simpl.
  - rewrite IH. reflexivity.
  - rewrite <- Permutation_middle, IH. reflexivity.
Qed.

Lemma Object_values_perm (imps : list (Acumulado num)) :
  Permutation (Object_values imps) imps.
Proof.
  unfold Object_values. rewrite ordenar_por_indice_perm. apply particion_perm.
Qed.

End Orden.

(** ** Keys of [impuestosAcumulados] *)

(** Naming the same key is an equivalence on the numbers. *)
Class Claves (num : Type) `{Numero num} : Prop := {
  clave_refl : forall a : num, clave_igual a a = true;
  clave_sym : forall a b : num, clave_igual a b = clave_igual b a;
  clave_trans : forall a b c : num,
    clave_igual a b = true -> clave_igual b c = true -> clave_igual a c = true
}.

(** What [clave_igual] decides on doubles. *)
Definition misma_clave (x y : spec_float) : Prop :=
  match x, y with
  | S754_zero _, S754_zero _ => True
  | S754_infinity s, S754_infinity s' => s = s'
  | S754_nan, S754_nan => True
  | S754_finite s m e, S754_finite s' m' e' => s = s' /\ m = m' /\ e = e'
  | _, _ => False
  end.

Lemma SFeqb_true x y :
  SFeqb x y = true <-> misma_clave x y /\ x <> S754_nan.
Proof.
  unfold SFeqb.
  destruct x as [s|s| |s m e], y as [s'|s'| |s' m' e']; cbn;
    try (destruct s); try (destruct s'); cbn;
    try solve [split; [discriminate
                      | intros [Hm Hn];
                        first [contradiction | discriminate | congruence
                              | destruct Hm as (? & ? & ?); discriminate]]];
    try solve [split; [intros _; split; [first [exact I | reflexivity]
                                        | discriminate]
                      | reflexivity]].
  all: change (PosDef.Pos.compare_cont Eq m m') with (Pos.compare m m').
  all: destruct (Z.compare_spec e e') as [He|He|He];
      try (split; [discriminate | intros [(_ & _ & ->) _]; lia]).
  all: destruct (Pos.compare_spec m m') as [Hm|Hm|Hm]; cbn;
      try (split; [discriminate | intros [(_ & -> & _) _]; lia]).
  all: subst; (split; [intros _; split; [auto | discriminate] | reflexivity]).
Qed.

Lemma SFeqb_refl x : x <> S754_nan -> SFeqb x x = true.
Proof.
  intros Hx. apply SFeqb_true. split; [destruct x; cbn; auto | exact Hx].
Qed.

Lemma SFeqb_nan x : SFeqb x x = false <-> x = S754_nan.
Proof.
  split.
  - intros Hx. destruct x as [s|s| |s m e]; try reflexivity;
      rewrite SFeqb_refl in Hx by discriminate; discriminate.
  - intros ->. reflexivity.
Qed.

Lemma clave_igual_float (a b : float) :
  clave_igual a b = true <-> misma_clave (Prim2SF a) (Prim2SF b).
Proof.
  cbn [clave_igual Numero_float]. unfold is_nan.
  rewrite !FloatAxioms.eqb_spec. split.
  - intros Hc. apply orb_true_iff in Hc as [Hc|Hc].
    + apply SFeqb_true in Hc as [Hc _]. exact Hc.
    + apply andb_true_iff in Hc as [Ha Hb].
      apply negb_true_iff, SFeqb_nan in Ha. apply negb_true_iff, SFeqb_nan in Hb.
      rewrite Ha, Hb. exact I.
  - intros Hm.
    destruct (Prim2SF a) as [s|s| |s m e], (Prim2SF b) as [s'|s'| |s' m' e'];
      cbn in Hm; try contradiction.
    + reflexivity.
    + subst. destruct s'; reflexivity.
    + reflexivity.
    + destruct Hm as (-> & -> & ->).
      rewrite SFeqb_refl by discriminate. reflexivity.
Qed.

Lemma misma_clave_refl x : misma_clave x x.
Proof. destruct x; cbn; auto. Qed.

Lemma misma_clave_sym x y : misma_clave x y -> misma_clave y x.
Proof.
  destruct x, y; cbn; try contradiction; auto.
  intros (-> & -> & ->). auto.
Qed.

Lemma misma_clave_trans x y z :
  misma_clave x y -> misma_clave y z -> misma_clave x z.
Proof.
  destruct x, y, z; cbn; try contradiction; auto; try congruence.
  intros (-> & -> & ->) (-> & -> & ->). auto.
Qed.

#[global] Instance Claves_float : Claves float.
Proof.
  split.
  - intros a. apply clave_igual_float, misma_clave_refl.
  - intros a b.
    destruct (clave_igual a b) eqn:E1, (clave_igual b a) eqn:E2; try reflexivity.
    + apply clave_igual_float, misma_clave_sym, clave_igual_float in E1.
      congruence.
    + apply clave_igual_float, misma_clave_sym, clave_igual_float in E2.
      congruence.
  - intros a b c Hab Hbc. apply clave_igual_float.
    apply clave_igual_float in Hab, Hbc.
    exact (misma_clave_trans _ _ _ Hab Hbc).
Qed.

(** ** One entry for each tariff *)

Section Agrupacion.
Context {num : Type} `{Numero num} `{!Claves num}.























(** ** The totals as sums over the entries *)






End Agrupacion.

Lemma bases_Object_values imps : bases (Object_values imps) == bases imps.
Proof.
  unfold bases. apply suma_Q_perm, Permutation_map, Object_values_perm.
Qed.

Lemma valores_Object_values imps : valores (Object_values imps) == valores imps.
Proof.
  unfold valores. apply suma_Q_perm, Permutation_map, Object_values_perm.
Qed.

(** ** The two closing loops *)

Lemma reduce_valores (l : list (Acumulado Q)) : forall sum,
  fold_left (fun sum imp => add sum (imp_valor imp)) l sum == sum + valores l.
Proof.
  unfold valores.
  induction l as [|imp l IH]; intros sum; simpl; [lra|].
  rewrite IH. q_simpl. lra.
Qed.

Lemma forEach_subtotales (l : list (Acumulado Q)) : forall s0 siva,
  let r := fold_left
             (fun '(s0, siva) imp =>
                if eq_estricto (imp_tarifa imp) (de_Z 0)
                then (add s0 (imp_baseImponible imp), siva)
                else (s0, add siva (imp_baseImponible imp)))
             l (s0, siva) in
  fst r + snd r == s0 + siva + bases l.
Proof.
  unfold bases.
  induction l as [|imp l IH]; intros s0 siva; simpl; [lra|].
  destruct (Qeq_bool (imp_tarifa imp) (inject_Z 0)); rewrite IH; q_simpl; lra.
Qed.

Lemma totalIvaGeneral_valores imps : totalIvaGeneral_de imps == valores imps.
Proof.
  unfold totalIvaGeneral_de. rewrite reduce_valores, valores_Object_values.
  q_simpl. lra.
Qed.

Lemma subtotales_bases imps :
  fst (subtotales_de imps) + snd (subtotales_de imps) == bases imps.
Proof.
  unfold subtotales_de.
  pose proof (forEach_subtotales (Object_values imps) (de_Z 0) (de_Z 0)) as H.
  cbv zeta in H. rewrite H, bases_Object_values. q_simpl. lra.
Qed.

(** ** Accumulated rounding *)

Lemma centavos_Some (f : Q -> Z) (vg : list Q) :
  centavos (map (fun v => Some (f v)) vg) = Some (map f vg).
Proof.
  unfold centavos. induction vg as [|v vg IH]; simpl; [reflexivity|].
  rewrite IH. reflexivity.
Qed.

Lemma suma_error (vg : list Q) :
  - (inject_Z (Z.of_nat (length vg)) * (1 # 2))
  <= inject_Z (suma_Z (map toFixed2_Q vg)) - 100 * suma_Q vg
  <= inject_Z (Z.of_nat (length vg)) * (1 # 2).
Proof.
  induction vg as [|v vg IH].
  - cbn [length map suma_Z suma_Q foldr].
    change (inject_Z (Z.of_nat 0)) with 0. change (inject_Z 0) with 0. lra.
  - cbn [length map suma_Z suma_Q foldr].
    fold (suma_Z (map toFixed2_Q vg)). fold (suma_Q vg).
    rewrite Nat2Z.inj_succ, <- Z.add_1_r, !inject_Z_plus.
    change (inject_Z 1) with 1.
    pose proof (toFixed2_Q_error v). lra.
Qed.

Lemma cota_entera (d n : Z) :
  - (inject_Z n * (1 # 2)) <= inject_Z d <= inject_Z n * (1 # 2) ->
  (2 * Z.abs d <= n)%Z.
Proof.
  intros [H1 H2].
  assert (inject_Z (- n) <= inject_Z (2 * d)) as Ha
    by (rewrite inject_Z_opp, inject_Z_mult; change (inject_Z 2) with 2; lra).
  assert (inject_Z (2 * d) <= inject_Z n) as Hb
    by (rewrite inject_Z_mult; change (inject_Z 2) with 2; lra).
  rewrite <- Zle_Qle in Ha, Hb. lia.
Qed.

(** ** Zeros, infinities and NaN of binary64 *)















(** ** The totals on binary64 *)



(** The roundings of the additions alone can move the figures apart by
    any number of cents: with a line of 1e16 at 0% and a line of 1 at
    15%, [importeTotal] and [totalSinImpuestos] are both 1e16 while the
    tax is 0.15, and [subtotal_0 + subtotal_iva] is one unit above
    [totalSinImpuestos]. With a quantity that is not a number, no total
    is a number. *)
Lemma totales_sin_cota :
  let r := calcularTotalesEImpuestos grande_y_pequena in
  totalSinImpuestos (totales r) = Some (10 ^ 18)%Z
  /\ importeTotal (totales r) = Some (10 ^ 18)%Z
  /\ map t_valor (totalConImpuestosXml r) = [Some 0%Z; Some 15%Z]
  /\ subtotal_0 (totales r) = Some (10 ^ 18)%Z
  /\ subtotal_iva (totales r) = Some 100%Z
  /\ totales (calcularTotalesEImpuestos cantidad_NaN)
     = {| totalSinImpuestos := None; totalDescuento := Some 0%Z;
          importeTotal := None; totalIva := None;
          subtotal_0 := Some 0%Z; subtotal_iva := None |}.
Proof. vm_compute. repeat split; reflexivity. Qed.

(** With exact arithmetic in place of binary64, the two relations hold
    between the amounts before formatting, and the formatting of each
    amount on its own lets [importeTotal] and [totalSinImpuestos] plus
    the per-tariff taxes drift apart by half a cent for each of the
    [k + 2] amounts involved, and [subtotal_0 + subtotal_iva] by one cent
    from [totalSinImpuestos]. *)
Lemma totales_exactos_cuadran (items : list (Item Q)) :
  let r := calcularTotalesEImpuestos items in
  let T := suma_Q (map base_de items) in
  let V := suma_Q (map valor_de items) in
  totalSinImpuestos (totales r) = Some (toFixed2_Q T)
  /\ importeTotal (totales r) = Some (toFixed2_Q (T + V))
  /\ (exists vg : list Q,
        map t_valor (totalConImpuestosXml r)
        = map (fun v => Some (toFixed2_Q v)) vg
        /\ suma_Q vg == V)
  /\ (exists s0 siva : Q,
        subtotal_0 (totales r) = Some (toFixed2_Q s0)
        /\ subtotal_iva (totales r) = Some (toFixed2_Q siva)
        /\ s0 + siva == T)
  /\ (exists sin imp vs s0 siva,
        totalSinImpuestos (totales r) = Some sin
        /\ importeTotal (totales r) = Some imp
        /\ centavos (map t_valor (totalConImpuestosXml r)) = Some vs
        /\ subtotal_0 (totales r) = Some s0
        /\ subtotal_iva (totales r) = Some siva
        /\ (2 * Z.abs (imp - (sin + suma_Z vs)) <= Z.of_nat (length vs) + 2)%Z
        /\ (Z.abs (s0 + siva - sin) <= 1)%Z).
Proof.
  intros r T V. subst r. unfold calcularTotalesEImpuestos.
  pose proof (recorrer_sumas items
                {| ac_totalSinImpuestos := de_Z 0; ac_totalDescuento := de_Z 0;
                   impuestosAcumulados := [] |}) as (H1 & H2 & H3).
  destruct (recorrer items _) as [ac dets]. cbn [fst] in H1, H2, H3.
  cbn [ac_totalSinImpuestos impuestosAcumulados] in H1, H2, H3.
  fold T in H1, H2. fold V in H3.
  unfold bases, valores in H2, H3. cbn [map suma_Q foldr] in H2, H3.
  fold (bases (impuestosAcumulados ac)) in H2. fold (valores (impuestosAcumulados ac)) in H3.
  q_simpl.
  pose proof (subtotales_bases (impuestosAcumulados ac)) as Hs.
  destruct (subtotales_de (impuestosAcumulados ac)) as [s0 siva]. cbn [fst snd] in Hs.
  cbn [totales totalConImpuestosXml totalSinImpuestos importeTotal subtotal_0
       subtotal_iva toFixed2 Numero_Q].
  pose proof (totalIvaGeneral_valores (impuestosAcumulados ac)) as Hiva.
  pose proof (valores_Object_values (impuestosAcumulados ac)) as Hov.
  set (vg := map imp_valor (Object_values (impuestosAcumulados ac))).
  assert (Hmap : map t_valor
                   (map (fun imp : Acumulado Q =>
                           {| t_codigo := imp_codigo imp;
                              t_codigoPorcentaje := imp_codigoPorcentaje imp;
                              t_baseImponible := Some (toFixed2_Q (imp_baseImponible imp));
                              t_valor := Some (toFixed2_Q (imp_valor imp)) |})
                        (Object_values (impuestosAcumulados ac)))
                 = map (fun v => Some (toFixed2_Q v)) vg).
  { subst vg. rewrite !map_map. reflexivity. }
  assert (Hvg : suma_Q vg == V)
    by (change (valores (Object_values (impuestosAcumulados ac)) == V); lra).
  assert (HT : ac_totalSinImpuestos ac == T) by lra.
  assert (HI : ac_totalSinImpuestos ac + totalIvaGeneral_de (impuestosAcumulados ac)
               == T + V) by lra.
  assert (HS : s0 + siva == T) by lra.
  rewrite (toFixed2_Q_comp _ _ HT), (toFixed2_Q_comp _ _ HI), Hmap.
  split; [reflexivity|]. split; [reflexivity|].
  split; [exists vg; split; [reflexivity | exact Hvg]|].
  split; [exists s0, siva; repeat split; exact HS|].
  exists (toFixed2_Q T), (toFixed2_Q (T + V)), (map toFixed2_Q vg),
    (toFixed2_Q s0), (toFixed2_Q siva).
  rewrite centavos_Some, length_map.
  repeat split.
  - apply cota_entera.
    unfold Z.sub. rewrite !inject_Z_plus, inject_Z_opp, !inject_Z_plus.
    change (inject_Z 2) with 2.
    pose proof (suma_error vg). pose proof (toFixed2_Q_error T).
    pose proof (toFixed2_Q_error (T + V)). lra.
  - assert (2 * Z.abs (toFixed2_Q s0 + toFixed2_Q siva - toFixed2_Q T) <= 3)%Z;
      [|lia].
    apply cota_entera.
    unfold Z.sub. rewrite !inject_Z_plus, inject_Z_opp. change (inject_Z 3) with 3.
    pose proof (toFixed2_Q_error s0). pose proof (toFixed2_Q_error siva).
    pose proof (toFixed2_Q_error T). lra.
Qed.


(** ** Unknown tariffs *)

(** A tariff outside the table gets the codes of the 0% row, on the line
    and on its aggregate entry. *)
Lemma tarifa_desconocida_codigos {num} `{Numero num} (ac : Acum num) item :
  CODIGOS_IVA_get (tarifa_de item) = None ->
  d_codigo (det_impuesto (snd (procesar_item ac item))) = "2"%string
  /\ d_codigoPorcentaje (det_impuesto (snd (procesar_item ac item))) = "0"%string.
Proof. intros Hn. unfold procesar_item. simpl. rewrite Hn. split; reflexivity. Qed.

(** The tax of a line is computed from its own tariff, whether the
    table knows the tariff or not. *)
Lemma valor_de_linea (ac : Acum Q) item :
  d_valor (det_impuesto (snd (procesar_item ac item)))
  = Some (toFixed2_Q (valor_de item)).
Proof. reflexivity. Qed.

(** C7, at the input where the code departs from it: a line of 100.00
    at the unsupported tariff 50 carries the codes ("2", "0") of the 0%
    row on the line and on the aggregate entry, but its tax is 50.00 and
    not 0.00, the total is 150.00, and its base is counted in
    [subtotal_iva]. *)
Theorem tarifa_desconocida_cobra_impuesto :
  let r := calcularTotalesEImpuestos tarifa_50_float in
  map (fun d => (d_codigo (det_impuesto d),
                 d_codigoPorcentaje (det_impuesto d),
                 d_valor (det_impuesto d))) (detallesXml r)
  = [("2", "0", Some 5000%Z)]%string
  /\ map (fun t => (t_codigo t, t_codigoPorcentaje t, t_valor t))
         (totalConImpuestosXml r)
     = [("2", "0", Some 5000%Z)]%string
  /\ totalIva (totales r) = Some 5000%Z
  /\ importeTotal (totales r) = Some 15000%Z
  /\ subtotal_0 (totales r) = Some 0%Z
  /\ subtotal_iva (totales r) = Some 10000%Z.
Proof. vm_compute. repeat split; reflexivity. Qed.

Lemma tarifa_desconocida_cobra_impuesto_Q :
  let r := calcularTotalesEImpuestos tarifa_50_Q in
  map (fun d => d_valor (det_impuesto d)) (detallesXml r) = [Some 5000%Z]
  /\ importeTotal (totales r) = Some 15000%Z.
Proof. vm_compute. split; reflexivity. Qed.

End CalculadoraProps.

(* ===================================================================== *)
(** * Properties of encrypt and decrypt *)
(* ===================================================================== *)

Module CifradoProps.

Import AccessKey Cifrado.

(** ** The 'hex' encoding *)

Definition dos_puntos : ascii := ":"%char.

Lemma hex_byte (x : ascii) :
  let n := N_of_ascii x in
  hex_valor (hex_digit (n / 16)) = Some (n / 16)%N
  /\ hex_valor (hex_digit (n mod 16)) = Some (n mod 16)%N
  /\ ascii_of_N (16 * (n / 16) + n mod 16) = x
  /\ hex_digit (n / 16) <> dos_puntos
  /\ hex_digit (n mod 16) <> dos_puntos.
Proof.
  destruct x as [b0 b1 b2 b3 b4 b5 b6 b7].
  destruct b0, b1, b2, b3, b4, b5, b6, b7; cbv zeta;
    (split; [reflexivity|]); (split; [reflexivity|]); (split; [reflexivity|]);
    split; discriminate.
Qed.

Lemma Buffer_from_hex_toString_hex (b : Buffer) :
  Buffer_from_hex (toString_hex b) = b.
Proof.
  induction b as [|x b IH]; [reflexivity|].
  cbn [toString_hex Buffer_from_hex].
  destruct (hex_byte x) as (H1 & H2 & H3 & _).
  cbv zeta in H1, H2, H3. rewrite H1, H2, H3, IH. reflexivity.
Qed.

Lemma length_toString_hex (b : Buffer) :
  length (toString_hex b) = (2 * length b)%nat.
Proof. induction b as [|x b IH]; simpl; [reflexivity|]. rewrite IH. lia. Qed.

Lemma toString_hex_sin_separador (b : Buffer) :
  Forall (fun c => c <> dos_puntos) (toString_hex b).
Proof.
  induction b as [|x b IH]; simpl; [constructor|].
  destruct (hex_byte x) as (_ & _ & _ & H4 & H5).
  repeat constructor; assumption.
Qed.

Lemma toString_hex_no_vacio (b : Buffer) : b <> [] -> toString_hex b <> [].
Proof. destruct b; [contradiction | discriminate]. Qed.

Lemma odd_doble n : Nat.odd (2 * n) = false.
Proof.
  rewrite <- Nat.negb_even, Nat.even_mul. reflexivity.
Qed.

(** The same on JavaScript strings. *)
Lemma Buffer_from_hex_unidades (s : str) :
  Buffer_from_hex_cadena (unidades s) = Buffer_from_hex s.
Proof.
  revert s. fix IH 1. intros [|a [|b s]]; try reflexivity.
  cbn [unidades fmap list_fmap Buffer_from_hex_cadena Buffer_from_hex].
  unfold hex_valor. fold (unidades s). rewrite (IH s). reflexivity.
Qed.

Lemma length_unidades (s : str) : length (unidades s) = length s.
Proof. apply length_fmap. Qed.

Lemma unidades_sin_separador (b : Buffer) :
  Forall (fun u => u <> DOS_PUNTOS) (unidades (toString_hex b)).
Proof.
  unfold unidades. apply Forall_fmap.
  eapply Forall_impl; [apply toString_hex_sin_separador|].
  intros c Hc Hu. apply Hc.
  rewrite <- (ascii_N_embedding c), Hu. reflexivity.
Qed.

Lemma unidades_no_vacio (b : Buffer) : b <> [] -> unidades (toString_hex b) <> [].
Proof. destruct b; [contradiction | discriminate]. Qed.

(** ** [split], [join], [includes] *)

Section Separador.
Context {A : Type} `{EqDecision A}.
Implicit Types (sep : A) (s t : list A).

Lemma split_sin_separador sep s :
  Forall (fun c => c <> sep) s -> split sep s = [s].
Proof.
  induction 1 as [|c s Hc _ IH]; simpl; [reflexivity|].
  destruct (decide (c = sep)); [contradiction|]. rewrite IH. reflexivity.
Qed.

Lemma split_primero sep s t :
  Forall (fun c => c <> sep) s ->
  split sep (s ++ sep :: t) = s :: split sep t.
Proof.
  induction 1 as [|c s Hc _ IH]; simpl.
  - destruct (decide (sep = sep)); [reflexivity | contradiction].
  - destruct (decide (c = sep)); [contradiction|]. rewrite IH. reflexivity.
Qed.

Lemma includes_app_separador sep s t :
  includes sep (s ++ sep :: t) = true.
Proof.
  unfold includes. rewrite existsb_app. cbn [existsb].
  rewrite (bool_decide_eq_true_2 (sep = sep)) by reflexivity.
  apply orb_true_r.
Qed.

End Separador.

Lemma es_falsy_Some (l : list N) :
  l <> [] -> es_falsy (@Some (list N) l) = false.
Proof. destruct l; [contradiction | reflexivity]. Qed.

(** ** UTF-8: what was encoded is decoded again *)

Local Open Scope N_scope.

#[local] Ltac Zify.zify_post_hook ::= Z.to_euclidean_division_equations.

#[local] Ltac decidir :=
  repeat match goal with
    | |- context [N.ltb ?a ?b] => destruct (N.ltb_spec a b); try lia
    | |- context [N.leb ?a ?b] => destruct (N.leb_spec a b); try lia
    end.

Lemma utf8_decode_estricto_punto (cp : N) (resto : Buffer) :
  cp < 0x110000 -> es_alto cp || es_bajo cp = false ->
  utf8_decode_estricto (utf8_de_punto cp ++ resto)
  = app (unidades_de_punto cp) <$> utf8_decode_estricto resto.
Proof.
  intros Hcp Hs. unfold es_alto, es_bajo in Hs.
  assert (Hno : cp < 0xD800 \/ 0xDFFF < cp).
  { revert Hs. decidir; cbn; try discriminate; intros _; lia. }
  clear Hs. unfold utf8_de_punto, unidades_de_punto.
  destruct (N.ltb_spec cp 0x80) as [H1|H1];
    [|destruct (N.ltb_spec cp 0x800) as [H2|H2];
      [|destruct (N.ltb_spec cp 0x10000) as [H3|H3]]];
    cbn [app utf8_decode_estricto]; cbv zeta;
    rewrite ?N_ascii_embedding by lia;
    unfold continua, es_alto, es_bajo;
    decidir; cbn [andb orb negb].
  - destruct (utf8_decode_estricto resto); reflexivity.
  - replace ((0xC0 + cp / 64 - 0xC0) * 64 + (0x80 + cp mod 64 - 0x80)) with cp
      by lia.
    destruct (utf8_decode_estricto resto); reflexivity.
  - replace ((0xE0 + cp / 4096 - 0xE0) * 4096
             + (0x80 + (cp / 64) mod 64 - 0x80) * 64
             + (0x80 + cp mod 64 - 0x80)) with cp by lia.
    destruct (utf8_decode_estricto resto); reflexivity.
  - replace ((0xE0 + cp / 4096 - 0xE0) * 4096
             + (0x80 + (cp / 64) mod 64 - 0x80) * 64
             + (0x80 + cp mod 64 - 0x80)) with cp by lia.
    destruct (utf8_decode_estricto resto); reflexivity.
  - replace ((0xF0 + cp / 262144 - 0xF0) * 262144
             + (0x80 + (cp / 4096) mod 64 - 0x80) * 4096
             + (0x80 + (cp / 64) mod 64 - 0x80) * 64
             + (0x80 + cp mod 64 - 0x80)) with cp by lia.
    unfold unidades_de_punto. decidir.
    destruct (utf8_decode_estricto resto); reflexivity.
Qed.

Lemma utf8_ida_y_vuelta_estricto (s : cadena) :
  bien_formada s = true -> utf8_decode_estricto (utf8_encode s) = Some s.
Proof.
  remember (length s) as n eqn:Hn. revert s Hn.
  induction n as [n IH] using lt_wf_ind. intros [|u resto] Hn Hbien;
    [reflexivity|].
  cbn [bien_formada utf8_encode] in *.
  destruct (es_alto u) eqn:Halto.
  - destruct resto as [|v resto']; [discriminate|].
    apply andb_true_iff in Hbien as [Hbajo Hbien]. rewrite Hbajo.
    unfold es_alto in Halto. unfold es_bajo in Hbajo.
    assert (Hu : 0xD800 <= u <= 0xDBFF)
      by (revert Halto; decidir; cbn; try discriminate; intros _; lia).
    assert (Hv : 0xDC00 <= v <= 0xDFFF)
      by (revert Hbajo; decidir; cbn; try discriminate; intros _; lia).
    rewrite utf8_decode_estricto_punto.
    + rewrite (IH (length resto')) by (cbn in Hn; first [lia | reflexivity | assumption]).
      cbn [fmap option_fmap option_map]. unfold unidades_de_punto.
      decidir. cbn [app]. f_equal. f_equal; [lia|]. f_equal. lia.
    + lia.
    + unfold es_alto, es_bajo. decidir; reflexivity.
  - apply andb_true_iff in Hbien as [Hbien Hresto].
    apply andb_true_iff in Hbien as [Hbajo Hrango].
    apply negb_true_iff in Hbajo. rewrite Hbajo.
    apply N.ltb_lt in Hrango.
    rewrite utf8_decode_estricto_punto.
    + rewrite (IH (length resto)) by (cbn in Hn; first [lia | reflexivity | assumption]).
      cbn [fmap option_fmap option_map]. unfold unidades_de_punto.
      decidir. reflexivity.
    + lia.
    + rewrite Halto, Hbajo. reflexivity.
Qed.

Local Close Scope N_scope.

(** ** Round trip and tolerance *)

Section Propiedades.

Variable sha256 : Buffer -> Buffer.
Variable aes_256_cbc_cifrar : Buffer -> Buffer -> Buffer -> Buffer.
Variable aes_256_cbc_descifrar : Buffer -> Buffer -> Buffer -> option Buffer.
Variable trim : cadena -> cadena.
Variable utf8_con_reemplazo : Buffer -> cadena.
Variable master_secret : cadena.

(** AES-256-CBC deciphers what it enciphered under the same key and IV,
    and its output is never empty (PKCS#7 always adds padding). *)
Hypothesis aes_ida_y_vuelta : forall key iv datos,
  length iv = IV_LENGTH ->
  aes_256_cbc_descifrar key iv (aes_256_cbc_cifrar key iv datos) = Some datos.
Hypothesis aes_no_vacio : forall key iv datos,
  aes_256_cbc_cifrar key iv datos <> [].

(** The encryption key is configured. *)
Hypothesis configurada : master_secret <> [].

Let key := sha256 (utf8_encode (trim master_secret)).
Let cifra := encrypt sha256 aes_256_cbc_cifrar trim (Some master_secret).
Let descifra :=
  decrypt sha256 aes_256_cbc_descifrar trim utf8_con_reemplazo
    (Some master_secret).

Lemma ENCRYPTION_KEY_configurada :
  ENCRYPTION_KEY sha256 trim (Some master_secret) = Some key.
Proof.
  unfold ENCRYPTION_KEY, cadena.
  rewrite es_falsy_Some by exact configurada. reflexivity.
Qed.

Lemma utf8_ida_y_vuelta (t : cadena) :
  bien_formada t = true ->
  utf8_decode utf8_con_reemplazo (utf8_encode t) = t.
Proof.
  intros Ht. unfold utf8_decode.
  rewrite (utf8_ida_y_vuelta_estricto t Ht). reflexivity.
Qed.

Lemma encrypt_forma (iv : Buffer) (t : cadena) :
  t <> [] ->
  cifra iv (Some t)
  = Some (unidades (toString_hex iv) ++ DOS_PUNTOS
          :: unidades (toString_hex
                         (aes_256_cbc_cifrar key iv (utf8_encode t)))).
Proof.
  intros Ht. unfold cifra, encrypt.
  rewrite ENCRYPTION_KEY_configurada. unfold cadena.
  rewrite es_falsy_Some by exact Ht. reflexivity.
Qed.

Lemma decrypt_tolerante (t : cadena) :
  no_descifrable aes_256_cbc_descifrar key t -> descifra (Some t) = Some t.
Proof.
  intros Hno. unfold descifra, decrypt. rewrite ENCRYPTION_KEY_configurada.
  destruct (es_falsy (Some t)); [reflexivity|].
  destruct (includes DOS_PUNTOS t) eqn:Hinc; [|reflexivity]. cbn [negb].
  destruct Hno as [Hno | (ivHex & parts & Hsplit & Hno)]; [congruence|].
  unfold decrypt_try. rewrite Hsplit.
  destruct (es_falsy (Some ivHex) || es_falsy (Some (join DOS_PUNTOS parts)));
    [reflexivity|].
  destruct (length (Buffer_from_hex_cadena ivHex) =? IV_LENGTH)%nat eqn:Hlen;
    cbn [negb]; [|reflexivity].
  unfold descifrar_hex.
  destruct Hno as [Hno | [Hno | Hno]].
  - apply Nat.eqb_eq in Hlen. contradiction.
  - rewrite Hno. reflexivity.
  - rewrite Hno. destruct (Nat.odd _); reflexivity.
Qed.

(** The other stored values: what the decipher hands out is decoded and
    returned, whatever key the value was enciphered with. *)
Lemma decrypt_descifrado (t ivHex : cadena) (parts : list cadena)
    (datos : Buffer) :
  includes DOS_PUNTOS t = true ->
  split DOS_PUNTOS t = ivHex :: parts ->
  ivHex <> [] -> join DOS_PUNTOS parts <> [] ->
  length (Buffer_from_hex_cadena ivHex) = IV_LENGTH ->
  Nat.odd (length (join DOS_PUNTOS parts)) = false ->
  aes_256_cbc_descifrar key (Buffer_from_hex_cadena ivHex)
    (Buffer_from_hex_cadena (join DOS_PUNTOS parts)) = Some datos ->
  descifra (Some t) = Some (utf8_decode utf8_con_reemplazo datos).
Proof.
  intros Hinc Hsplit Hiv Henc Hlen Hpar Hdes.
  unfold descifra, decrypt. rewrite ENCRYPTION_KEY_configurada.
  assert (Ht : t <> []) by (intros ->; discriminate Hinc).
  unfold cadena. rewrite (es_falsy_Some _ Ht), Hinc. cbn [negb].
  unfold decrypt_try, cadena. rewrite Hsplit, (es_falsy_Some _ Hiv),
    (es_falsy_Some _ Henc). cbn [orb].
  rewrite Hlen, Nat.eqb_refl. cbn [negb].
  unfold descifrar_hex. rewrite Hpar, Hdes. reflexivity.
Qed.

Lemma decrypt_encrypt_utf8 (iv : Buffer) (t : cadena) :
  length iv = IV_LENGTH -> t <> [] ->
  descifra (cifra iv (Some t))
  = Some (utf8_decode utf8_con_reemplazo (utf8_encode t)).
Proof.
  intros Hiv Ht. rewrite (encrypt_forma iv t Ht).
  set (c := aes_256_cbc_cifrar key iv (utf8_encode t)).
  assert (Hc : c <> []) by apply aes_no_vacio.
  assert (Hivne : iv <> []) by (intros ->; discriminate Hiv).
  apply (decrypt_descifrado _ (unidades (toString_hex iv))
           [unidades (toString_hex c)]).
  - apply includes_app_separador.
  - rewrite split_primero by apply unidades_sin_separador.
    rewrite split_sin_separador by apply unidades_sin_separador. reflexivity.
  - apply unidades_no_vacio, Hivne.
  - apply unidades_no_vacio, Hc.
  - rewrite Buffer_from_hex_unidades, Buffer_from_hex_toString_hex. exact Hiv.
  - cbn [join]. rewrite length_unidades, length_toString_hex. apply odd_doble.
  - cbn [join]. rewrite !Buffer_from_hex_unidades, !Buffer_from_hex_toString_hex.
    apply aes_ida_y_vuelta, Hiv.
Qed.

(** A string that is a single surrogate comes back as U+FFFD, whatever
    the cipher. *)
Lemma sustituto_suelto (iv : Buffer) (u : N) :
  length iv = IV_LENGTH -> es_alto u || es_bajo u = true ->
  descifra (cifra iv (Some [u])) = Some [REEMPLAZO].
Proof.
  intros Hiv Hu. rewrite decrypt_encrypt_utf8 by (exact Hiv || discriminate).
  f_equal. unfold utf8_decode.
  assert (utf8_encode [u] = utf8_de_punto REEMPLAZO) as ->; [|reflexivity].
  cbn [utf8_encode]. destruct (es_alto u); [reflexivity|].
  cbn [orb] in Hu. rewrite Hu. apply app_nil_r.
Qed.

(** C8, as amended: with an encryption key configured, the output of
    [encrypt] on a non-empty string is the IV in hexadecimal, a colon,
    and in hexadecimal the AES-256-CBC ciphertext of the UTF-8 encoding
    of the string, under the key SHA-256 of the trimmed master secret.
    [decrypt] undoes [encrypt] up to that encoding: it returns the
    string when no surrogate in it is without its partner, and the
    string with U+FFFD in the place of such surrogates otherwise.
    [decrypt] returns the stored value unchanged when the separator is
    missing, the IV is malformed or the decipher throws. When the
    decipher does not throw, what it hands out is decoded and returned,
    also under a key that is not the one of the stored value. *)
Theorem encrypt_decrypt :
  (forall (iv : Buffer) (t : cadena), length iv = IV_LENGTH -> t <> [] ->
     descifra (cifra iv (Some t))
     = Some (utf8_decode utf8_con_reemplazo (utf8_encode t)))
  /\ (forall (iv : Buffer) (t : cadena), length iv = IV_LENGTH -> t <> [] ->
        bien_formada t = true ->
        descifra (cifra iv (Some t)) = Some t)
  /\ (forall (iv : Buffer) (t : cadena), t <> [] ->
        cifra iv (Some t)
        = Some (unidades (toString_hex iv) ++ DOS_PUNTOS
                :: unidades
                     (toString_hex
                        (aes_256_cbc_cifrar
                           (sha256 (utf8_encode (trim master_secret))) iv
                           (utf8_encode t)))))
  /\ (forall t : cadena,
        no_descifrable aes_256_cbc_descifrar
          (sha256 (utf8_encode (trim master_secret))) t ->
        descifra (Some t) = Some t)
  /\ (forall (t ivHex : cadena) (parts : list cadena) (datos : Buffer),
        includes DOS_PUNTOS t = true ->
        split DOS_PUNTOS t = ivHex :: parts ->
        ivHex <> [] -> join DOS_PUNTOS parts <> [] ->
        length (Buffer_from_hex_cadena ivHex) = IV_LENGTH ->
        Nat.odd (length (join DOS_PUNTOS parts)) = false ->
        aes_256_cbc_descifrar (sha256 (utf8_encode (trim master_secret)))
          (Buffer_from_hex_cadena ivHex)
          (Buffer_from_hex_cadena (join DOS_PUNTOS parts)) = Some datos ->
        descifra (Some t) = Some (utf8_decode utf8_con_reemplazo datos)).
Proof.
  split; [exact decrypt_encrypt_utf8|]. split.
  { intros iv t Hiv Ht Hbien.
    rewrite (decrypt_encrypt_utf8 iv t Hiv Ht), (utf8_ida_y_vuelta t Hbien).
    reflexivity. }
  split; [exact encrypt_forma|]. split; [exact decrypt_tolerante|].
  exact decrypt_descifrado.
Qed.

End Propiedades.

(** A password with a letter of two bytes, a sign of three and a pair
    of surrogates: "cl", U+00E1, "ve", U+20AC, U+1F511. *)
Definition clave_ejemplo : cadena := [99; 108; 225; 118; 101; 8364; 55357; 56593]%N.

Lemma encrypt_decrypt_witness :
  decrypt (fun b => b) descifrar_marca (fun s => s) solo_reemplazo
    (Some (unidades (lit "secreto")))
    (encrypt (fun b => b) cifrar_marca (fun s => s)
       (Some (unidades (lit "secreto")))
       (lit "0123456789abcdef") (Some clave_ejemplo))
  = Some clave_ejemplo.
Proof.
  apply (proj1 (proj2 (encrypt_decrypt (fun b => b) cifrar_marca
                  descifrar_marca (fun s => s) solo_reemplazo
                  (unidades (lit "secreto"))
                  (fun key iv datos _ => eq_refl)
                  (fun key iv datos H => eq_ind (cifrar_marca key iv datos)
                     (fun l => match l with [] => False | _ => True end) I [] H)
                  (fun H => eq_ind (unidades (lit "secreto"))
                     (fun l => match l with [] => False | _ => True end) I [] H)))).
  - reflexivity.
  - discriminate.
  - reflexivity.
Defined.

(** C8, counterexample: a string whose only unit is a surrogate without
    partner, U+D83D, does not come back from [decrypt]: [encrypt]
    enciphers the bytes of U+FFFD in its place, and U+FFFD is what
    [decrypt] returns. *)
Lemma sustituto_suelto_no_vuelve :
  let cifrado :=
    encrypt (fun b => b) cifrar_marca (fun s => s)
      (Some (unidades (lit "secreto")))
      (lit "0123456789abcdef") (Some [55357%N]) in
  decrypt (fun b => b) descifrar_marca (fun s => s) solo_reemplazo
    (Some (unidades (lit "secreto"))) cifrado
  = Some [REEMPLAZO]
  /\ decrypt (fun b => b) descifrar_marca (fun s => s) solo_reemplazo
       (Some (unidades (lit "secreto"))) cifrado
     <> Some [55357%N].
Proof. vm_compute. split; [reflexivity | discriminate]. Qed.

End CifradoProps.

(* ===================================================================== *)
(** * Reasoning about handlers *)
(* ===================================================================== *)

Module SistemaProps.

Import Sistema.
Local Open Scope mon_scope.

(** A handler preserves a property of the state when the property holds
    after it whenever it held before, whether it returns or throws. *)
Definition preserva {S A} (I : S -> Prop) (m : M S A) : Prop :=
  forall s, I s -> I (snd (m s)).

Section Preserva.
Context {S : Type} (I : S -> Prop).

Lemma preserva_ret {A} (a : A) : preserva I (ret a).
Proof. intros s Hs. exact Hs. Qed.

Lemma preserva_throw {A} err : preserva I (@throw S A err).
Proof. intros s Hs. exact Hs. Qed.

Lemma preserva_await {A} (r : Res A) : preserva I (await r).
Proof. intros s Hs. exact Hs. Qed.

Lemma preserva_gets {A} (f : S -> A) : preserva I (gets f).
Proof. intros s Hs. exact Hs. Qed.

Lemma preserva_modify (f : S -> S) :
  (forall s, I s -> I (f s)) -> preserva I (modify f).
Proof. intros Hf s Hs. apply Hf, Hs. Qed.

Lemma preserva_bind {A B} (m : M S A) (k : A -> M S B) :
  preserva I m -> (forall a, preserva I (k a)) -> preserva I (bind m k).
Proof.
  intros Hm Hk s Hs. unfold bind. specialize (Hm s Hs).
  destruct (m s) as [[a|e] s']; simpl in *; [apply Hk, Hm | exact Hm].
Qed.

Lemma preserva_try_catch {A} (m : M S A) (h : string -> M S A) :
  preserva I m -> (forall e, preserva I (h e)) -> preserva I (try_catch m h).
Proof.
  intros Hm Hh s Hs. unfold try_catch. specialize (Hm s Hs).
  destruct (m s) as [[a|e] s']; simpl in *; [exact Hm | apply Hh, Hm].
Qed.

Lemma preserva_for_of {A} (xs : list A) (body : A -> M S unit) :
  (forall x, In x xs -> preserva I (body x)) -> preserva I (for_of xs body).
Proof.
  induction xs as [|x xs IH]; intros Hb; simpl.
  - apply preserva_ret.
  - apply preserva_bind; [apply Hb; left; reflexivity|].
    intros _. apply IH. intros y Hy. apply Hb. right. exact Hy.
Qed.

End Preserva.

(** A loop whose body leaves the state alone leaves the state alone. *)
Lemma for_of_sin_efecto {S A} (xs : list A) (body : A -> M S unit) s :
  (forall x, In x xs -> body x s = (Ok tt, s)) -> for_of xs body s = (Ok tt, s).
Proof.
  induction xs as [|x xs IH]; intros Hb; simpl; [reflexivity|].
  unfold bind. rewrite (Hb x) by (left; reflexivity).
  apply IH. intros y Hy. apply Hb. right. exact Hy.
Qed.

(** The steps that only touch the store or the webhook log preserve
    whatever is said about the database alone. *)
Definition solo_db (I : Mundo -> Prop) : Prop :=
  forall w w', db w' = db w -> tx w' = tx w -> I w -> I w'.

Lemma preserva_putObject I ok bucket fileName contenido :
  solo_db I -> preserva I (putObject ok bucket fileName contenido).
Proof.
  intros HI. unfold putObject. destruct ok; [|apply preserva_throw].
  apply preserva_modify. intros w Hw. eapply HI; [| |exact Hw]; reflexivity.
Qed.

Lemma preserva_uploadFile I ok bucket fileName contenido :
  solo_db I -> preserva I (uploadFile ok bucket fileName contenido).
Proof.
  intros HI. unfold uploadFile. apply preserva_bind.
  - apply preserva_putObject, HI.
  - intros _. apply preserva_ret.
Qed.

Lemma preserva_deleteFile I ok bucket fileName :
  solo_db I -> preserva I (deleteFile ok bucket fileName).
Proof.
  intros HI. unfold deleteFile. destruct ok; [|apply preserva_throw].
  apply preserva_bind; [|intros _; apply preserva_ret].
  apply preserva_modify. intros w Hw. eapply HI; [| |exact Hw]; reflexivity.
Qed.

Lemma preserva_notificarCambioEstado I url uid id clave estado detalle :
  solo_db I -> preserva I (notificarCambioEstado url uid id clave estado detalle).
Proof.
  intros HI. unfold notificarCambioEstado. destruct url; [|apply preserva_ret].
  apply preserva_modify. intros w Hw. eapply HI; [| |exact Hw]; reflexivity.
Qed.

End SistemaProps.

(* ===================================================================== *)
(** * Properties of the settlement worker *)
(* ===================================================================== *)

Module WorkerProps.

Import Sistema SistemaProps Worker.
Local Open Scope mon_scope.

(** ** Which rows a tick can touch *)

(** Relative to the world [w0] at the start of a tick: the table has the
    same rows in the same places, and every row whose id is not among
    [ids] is as it was. *)
Definition intactas (w0 : Mundo) (ids : list Z) (w : Mundo) : Prop :=
  map i_id (invoices (db w)) = map i_id (invoices (db w0))
  /\ forall k inv,
       invoices (db w0) !! k = Some inv -> ~ In (i_id inv) ids ->
       invoices (db w) !! k = Some inv.

Lemma intactas_refl w0 ids : intactas w0 ids w0.
Proof. split; [reflexivity | auto]. Qed.

Lemma intactas_solo_db w0 ids : solo_db (intactas w0 ids).
Proof. intros w w' Hdb _ [H1 H2]. unfold intactas. rewrite Hdb. split; assumption. Qed.

Lemma intactas_invoices w0 ids (f : Mundo -> Mundo) :
  (forall w, invoices (db (f w)) = invoices (db w)) ->
  preserva (intactas w0 ids) (modify f).
Proof.
  intros Hf. apply preserva_modify. intros w [H1 H2]. unfold intactas.
  rewrite Hf. split; assumption.
Qed.

Lemma UPDATE_invoices_intactas w0 ids id (set : Invoice -> Invoice) :
  In id ids -> (forall inv, i_id (set inv) = i_id inv) ->
  preserva (intactas w0 ids) (UPDATE_invoices id set).
Proof.
  intros Hid Hset. apply preserva_modify. intros w [H1 H2]. split; simpl.
  - rewrite <- H1, map_map. apply map_ext. intros inv. cbv beta.
    case_decide; [apply Hset | reflexivity].
  - intros k inv Hk Hno. rewrite list_lookup_fmap, (H2 k inv Hk Hno). simpl.
    case_decide; [subst id; contradiction | reflexivity].
Qed.

Lemma notificar_intactas w0 ids env factura estado detalle :
  preserva (intactas w0 ids) (notificar env factura estado detalle).
Proof. apply preserva_notificarCambioEstado, intactas_solo_db. Qed.

Lemma enviar_factura_intactas w0 ids env factura :
  In (f_id factura) ids -> preserva (intactas w0 ids) (enviar_factura env factura).
Proof.
  intros Hid. unfold enviar_factura.
  destruct (sri_recepcion env factura) as [err|estado json respuesta];
    [apply preserva_throw|].
  destruct (decide (estado = "RECIBIDA")).
  - apply preserva_bind; [|intros _; apply notificar_intactas].
    apply UPDATE_invoices_intactas; [exact Hid | reflexivity].
  - apply preserva_bind; [|intros _; apply notificar_intactas].
    apply UPDATE_invoices_intactas; [exact Hid | reflexivity].
Qed.

Lemma autorizar_factura_intactas w0 ids env factura :
  In (f_id factura) ids ->
  preserva (intactas w0 ids) (autorizar_factura env factura).
Proof.
  intros Hid. unfold autorizar_factura.
  destruct (sri_autorizacion env factura) as [err|n auts];
    [apply preserva_throw|].
  destruct (bool_decide (0 < default 0 n)); [|apply preserva_ret].
  destruct auts as [|autorizacion _]; [apply preserva_throw|].
  destruct (decide (a_estado autorizacion = "AUTORIZADO")).
  - apply preserva_bind;
      [apply preserva_uploadFile, intactas_solo_db|intros _].
    apply preserva_bind;
      [apply UPDATE_invoices_intactas; [exact Hid | reflexivity]|intros _].
    apply preserva_bind; [|intros _; apply notificar_intactas].
    apply intactas_invoices. reflexivity.
  - apply preserva_bind; [|intros _; apply notificar_intactas].
    apply UPDATE_invoices_intactas; [exact Hid | reflexivity].
Qed.

(** ** Which rows a tick selects *)





(** ** One tick *)








Lemma intentar_envio_intactas w0 ids env factura :
  In (f_id factura) ids -> preserva (intactas w0 ids) (intentar_envio env factura).
Proof.
  intros Hid. apply preserva_try_catch; [|intros _; apply preserva_ret].
  apply enviar_factura_intactas, Hid.
Qed.

Lemma intentar_autorizacion_intactas w0 ids env factura :
  In (f_id factura) ids ->
  preserva (intactas w0 ids) (intentar_autorizacion env factura).
Proof.
  intros Hid. apply preserva_try_catch; [|intros _; apply preserva_ret].
  apply autorizar_factura_intactas, Hid.
Qed.

(** ** The rows of a tick are distinct *)

Lemma a_lo_sumo_un_perfil (ps : list Profile) e :
  NoDup (omap p_emisor_id ps) ->
  (length (List.filter (fun p => bool_decide (p_emisor_id p = Some e)) ps) <= 1)%nat.
Proof.
  induction ps as [|p ps IH]; intros Hnd; cbn [List.filter]; [simpl; lia|].
  cbn [omap list_omap] in Hnd. case_bool_decide as Hd.
  - rewrite Hd in Hnd. apply NoDup_cons in Hnd as [Hno Hnd].
    assert (List.filter (fun p => bool_decide (p_emisor_id p = Some e)) ps = [])
      as ->; [|simpl; lia].
    destruct (List.filter _ ps) as [|q qs] eqn:Eq; [reflexivity|exfalso].
    assert (In q (List.filter (fun p => bool_decide (p_emisor_id p = Some e)) ps))
      as Hq by (rewrite Eq; left; reflexivity).
    apply List.filter_In in Hq as [Hq1 Hq2]. apply bool_decide_eq_true in Hq2.
    apply Hno. apply list_elem_of_In in Hq1.
    apply list_elem_of_omap. exists q. split; assumption.
  - apply IH. destruct (p_emisor_id p); [|exact Hnd].
    apply NoDup_cons in Hnd as [_ Hnd]. exact Hnd.
Qed.

Lemma filas_de_a_lo_sumo_una d inv :
  NoDup (omap p_emisor_id (profiles d)) ->
  filas_de d inv = []
  \/ exists fila, filas_de d inv = [fila] /\ f_id fila = i_id inv.
Proof.
  intros Hnd. unfold filas_de.
  destruct (emisores d !! i_emisor_id inv); [|left; reflexivity].
  pose proof (a_lo_sumo_un_perfil (profiles d) (i_emisor_id inv) Hnd) as Hl.
  destruct (List.filter _ (profiles d)) as [|p [|q qs]]; simpl in *.
  - left. reflexivity.
  - right. eexists. split; reflexivity.
  - lia.
Qed.

Lemma NoDup_filas d (l : list Invoice) :
  NoDup (omap p_emisor_id (profiles d)) -> NoDup (map i_id l) ->
  NoDup (map f_id (flat_map (filas_de d) l))
  /\ forall id, In id (map f_id (flat_map (filas_de d) l)) -> In id (map i_id l).
Proof.
  intros Hp. induction l as [|inv l IH]; simpl; intros Hnd.
  - split; [constructor | auto].
  - apply NoDup_cons in Hnd as [Hno Hnd]. destruct (IH Hnd) as [IH1 IH2].
    destruct (filas_de_a_lo_sumo_una d inv Hp) as [-> | (fila & -> & Hid)]; simpl.
    + split; [exact IH1 | intros id Hin; right; apply IH2, Hin].
    + rewrite Hid. split.
      * apply NoDup_cons. split; [|exact IH1].
        intros Hin. apply Hno. apply list_elem_of_In, IH2, list_elem_of_In, Hin.
      * intros id [<- | Hin]; [left; reflexivity | right; apply IH2, Hin].
Qed.

Lemma NoDup_filter_ids (f : Invoice -> bool) l :
  NoDup (map i_id l) -> NoDup (map i_id (List.filter f l)).
Proof.
  induction l as [|inv l IH]; simpl; intros Hnd; [constructor|].
  apply NoDup_cons in Hnd as [Hno Hnd].
  destruct (f inv); simpl; [|apply IH, Hnd].
  apply NoDup_cons. split; [|apply IH, Hnd].
  intros Hin. apply Hno. apply list_elem_of_In in Hin.
  apply List.in_map_iff in Hin as (x & Hx & Hin).
  apply List.filter_In in Hin as [Hin _].
  apply list_elem_of_In, List.in_map_iff. exists x. split; assumption.
Qed.

Lemma NoDup_filas_por_estado estado d :
  NoDup (omap p_emisor_id (profiles d)) -> NoDup (map i_id (invoices d)) ->
  NoDup (map f_id (filas_por_estado estado d)).
Proof.
  intros Hp Hnd. unfold filas_por_estado.
  eapply sublist_NoDup; [|apply fmap_sublist, sublist_take].
  rewrite merge_sort_Permutation.
  apply NoDup_filas; [exact Hp | apply NoDup_filter_ids, Hnd].
Qed.




(** A tick is a run that nothing interrupts. *)
Lemma turnos_seguidos job env (rows : list Fila) : forall w corridas,
  transcurrir (replicate (length rows) (Turno (length corridas) env))
    (w, corridas ++ [ {| trabajo := job; pendientes := rows |} ])
  = (snd (for_of rows (intentar job env) w),
     corridas ++ [ {| trabajo := job; pendientes := [] |} ]).
Proof.
  induction rows as [|factura rows IH]; intros w corridas; [reflexivity|].
  cbn [length replicate transcurrir fold_left paso].
  rewrite lookup_app_r, Nat.sub_diag by lia. cbn [lookup list_lookup].
  rewrite insert_app_r_alt, Nat.sub_diag by lia. cbn [insert list_insert].
  fold (transcurrir (replicate (length rows) (Turno (length corridas) env))).
  rewrite IH. f_equal. cbn [for_of].
  unfold bind at 1.
  assert (Hok : exists w1, intentar job env factura w = (Ok tt, w1)).
  { destruct job; cbn [intentar]; unfold intentar_envio, intentar_autorizacion,
      try_catch.
    - destruct (enviar_factura env factura w) as [[[]|err] w1]; eauto.
    - destruct (autorizar_factura env factura w) as [[[]|err] w1]; eauto. }
  destruct Hok as [w1 ->]. reflexivity.
Qed.

Lemma tick_sin_solape job env w :
  fst (transcurrir
         (Arranca job
          :: replicate (length (filas_por_estado (estado_que_busca job) (db w)))
               (Turno 0 env))
         (w, []))
  = tick (match job with
          | Envio => TickEnvio env
          | Autorizacion => TickAutorizacion env
          end) w.
Proof.
  set (rows := filas_por_estado (estado_que_busca job) (db w)).
  pose proof (turnos_seguidos job env rows w []) as H.
  change (length []) with 0%nat in H. cbn [app] in H.
  unfold transcurrir in *. cbn [fold_left paso app]. fold rows.
  rewrite H. cbn [fst]. subst rows.
  destruct job; cbn [tick estado_que_busca intentar];
    unfold enviarFacturasAlSRI, autorizarFacturasSRI, try_catch, bind,
      SELECT_por_estado, gets;
    match goal with
    | |- context [for_of ?rows ?f w] => destruct (for_of rows f w) as [[[]|?] ?]
    end; reflexivity.
Qed.


(** ** An answer without vouchers *)

(** C10: when the answer of the authorization service carries a
    [numeroComprobantes] that is not a positive number, the turn of the
    row leaves the world exactly as it was: no state transition, no
    [mensajes_sri], no debit, no upload, no webhook. When every selected
    row gets such an answer the whole tick changes nothing, and the next
    tick selects the same rows again. *)
Theorem sin_comprobantes_sin_efecto env :
  (forall factura w n autorizaciones,
     sri_autorizacion env factura = Autorizaciones n autorizaciones ->
     ~ 0 < default 0 n ->
     intentar_autorizacion env factura w = (Ok tt, w))
  /\ (forall w,
        (forall factura, In factura (filas_por_estado "RECIBIDA" (db w)) ->
           exists n autorizaciones,
             sri_autorizacion env factura = Autorizaciones n autorizaciones
             /\ ~ 0 < default 0 n) ->
        autorizarFacturasSRI env w = (Ok tt, w)
        /\ filas_por_estado "RECIBIDA" (db (tick (TickAutorizacion env) w))
           = filas_por_estado "RECIBIDA" (db w)).
Proof.
  assert (Hfila : forall factura w n autorizaciones,
            sri_autorizacion env factura = Autorizaciones n autorizaciones ->
            ~ 0 < default 0 n ->
            intentar_autorizacion env factura w = (Ok tt, w)).
  { intros factura w n auts Hresp Hn.
    unfold intentar_autorizacion, try_catch, autorizar_factura.
    rewrite Hresp, bool_decide_eq_false_2 by exact Hn. reflexivity. }
  split; [exact Hfila|].
  intros w Hrows.
  assert (Htick : autorizarFacturasSRI env w = (Ok tt, w)).
  { change (autorizarFacturasSRI env w)
      with (try_catch
              (for_of (filas_por_estado "RECIBIDA" (db w))
                 (intentar_autorizacion env))
              (fun _ => ret tt) w).
    unfold try_catch. rewrite for_of_sin_efecto; [reflexivity|].
    intros factura Hin. destruct (Hrows factura Hin) as (n & auts & Hresp & Hn).
    eapply Hfila; eassumption. }
  split; [exact Htick|]. simpl. rewrite Htick. reflexivity.
Qed.

Lemma sin_comprobantes_sin_efecto_witness :
  let w := snd (enviarFacturasAlSRI Escenarios.sri_autoriza
                  (Escenarios.tras_dos_emisiones 1)) in
  Escenarios.estados_de w = ["RECIBIDA"; "RECIBIDA"]
  /\ autorizarFacturasSRI Escenarios.sri_sin_comprobantes w = (Ok tt, w).
Proof.
  intros w. split; [reflexivity|].
  apply (proj2 (sin_comprobantes_sin_efecto Escenarios.sri_sin_comprobantes) w).
  intros factura _. exists (Some 0), []. split; [reflexivity | simpl; lia].
Defined.

(** ** The debit on authorization *)

(** The debit of the authorization job is a plain decrement of the
    stored balance, whatever the balance is. *)
Lemma debito_sin_guarda env factura w n autorizacion resto balance :
  sri_autorizacion env factura = Autorizaciones (Some n) (autorizacion :: resto) ->
  0 < n -> a_estado autorizacion = "AUTORIZADO" ->
  subida_ok env factura = true ->
  user_credits (db w) !! f_emisor_db_id factura = Some balance ->
  user_credits (db (snd (autorizar_factura env factura w)))
    !! f_emisor_db_id factura = Some (balance - 1).
Proof.
  intros Hresp Hn Hest Hup Hbal. unfold autorizar_factura.
  rewrite Hresp. simpl. rewrite bool_decide_eq_true_2 by exact Hn.
  destruct (decide (a_estado autorizacion = "AUTORIZADO")); [|contradiction].
  rewrite Hup. unfold notificar, notificarCambioEstado.
  destruct (webhookUrl env); simpl;
    rewrite lookup_alter_eq, Hbal; reflexivity.
Qed.

(** C2, at the input where the code departs from it: an issuer with one
    credit issues two invoices through the integrated route (which checks
    the balance and debits nothing); the worker submits both and, on
    authorizing them, debits twice: the stored balance ends at -1. *)
Theorem debito_diferido_bajo_cero :
  Escenarios.balance_de (Escenarios.mundo_inicial 1) = Some 1
  /\ Escenarios.estados_de (Escenarios.tras_dos_emisiones 1)
     = ["FIRMADO"; "FIRMADO"]
  /\ Escenarios.balance_de (Escenarios.tras_dos_emisiones 1) = Some 1
  /\ Escenarios.estados_de (Escenarios.tras_autorizar 1)
     = ["AUTORIZADO"; "AUTORIZADO"]
  /\ Escenarios.balance_de (Escenarios.tras_autorizar 1) = Some (-1).
Proof. vm_compute. repeat split; reflexivity. Qed.

End WorkerProps.

(* ===================================================================== *)
(** * Properties of the integrated route *)
(* ===================================================================== *)

Module IntegracionProps.

Import Sistema SistemaProps Integracion.
Local Open Scope mon_scope.

(** The stored balances are [c], also after a rollback. *)
Definition creditos_son (c : gmap Z Z) (w : Mundo) : Prop :=
  user_credits (db w) = c /\ forall d, tx w = Some d -> user_credits d = c.

Lemma creditos_son_solo_db c : solo_db (creditos_son c).
Proof.
  intros w w' Hdb Htx [H1 H2]. unfold creditos_son. rewrite Hdb, Htx.
  split; assumption.
Qed.

Lemma generar_secuencial_creditos c punto_id :
  preserva (creditos_son c) (generar_secuencial punto_id).
Proof.
  intros w [H1 H2]. unfold generar_secuencial.
  destruct (puntos_emision (db w) !! punto_id); simpl; split; assumption.
Qed.

Lemma INSERT_invoice_creditos c aceptada fila :
  preserva (creditos_son c) (INSERT_invoice aceptada fila).
Proof.
  unfold INSERT_invoice. destruct aceptada; [|apply preserva_throw].
  apply preserva_modify. intros w [H1 H2]. split; assumption.
Qed.

Lemma COMMIT_creditos c : preserva (creditos_son c) COMMIT.
Proof.
  apply preserva_modify. intros w [H1 H2]. split; [exact H1 | discriminate].
Qed.

Lemma ROLLBACK_creditos c : preserva (creditos_son c) ROLLBACK.
Proof.
  apply preserva_modify. intros w [H1 H2]. split; [|discriminate]. simpl.
  destruct (tx w) as [d|]; simpl; [apply H2; reflexivity | exact H1].
Qed.

(** Walks down a handler written with [bind], [match] and [if]. *)
Ltac descender :=
  repeat first
    [ apply preserva_ret | apply preserva_throw | apply preserva_await
    | apply preserva_gets
    | apply preserva_bind; [|intros ?]
    | match goal with
      | |- preserva _ (match ?x with _ => _ end) => destruct x
      | |- preserva _ (if ?b then _ else _) => destruct b
      end ].

Lemma emitir_creditos c env emisorId facturaData :
  preserva (creditos_son c) (emitir env emisorId facturaData).
Proof.
  unfold emitir, calculos_de, clave_o_error, SELECT_emisor_balance, SELECT_punto.
  descender;
    first [ apply generar_secuencial_creditos
          | apply INSERT_invoice_creditos
          | apply COMMIT_creditos
          | apply preserva_uploadFile, creditos_son_solo_db
          | apply preserva_putObject, creditos_son_solo_db ].
Qed.

(** The route never writes to [user_credits]: whatever the request and
    its outcome, the stored balances are the ones found. *)
Lemma post_invoice_no_toca_creditos env emisorId facturaData w :
  user_credits (db (snd (post_invoice env emisorId facturaData w)))
  = user_credits (db w).
Proof.
  change (post_invoice env emisorId facturaData w)
    with (try_catch (emitir env emisorId facturaData)
            (fun error => ROLLBACK ;; ret (R500 error))
            {| db := db w; tx := Some (db w); minio := minio w;
               webhooks := webhooks w |}).
  apply (preserva_try_catch (creditos_son (user_credits (db w)))).
  - apply emitir_creditos.
  - intros e. apply preserva_bind; [apply ROLLBACK_creditos|].
    intros _. apply preserva_ret.
  - split; [reflexivity|]. intros d [= <-]. reflexivity.
Qed.

Lemma emitir_201 env emisorId facturaData w clave r xml pdf w' :
  emitir env emisorId facturaData w = (Ok (R201 clave r xml pdf), w') ->
  exists balance,
    user_credits (db w) !! emisorId = Some balance /\ 0 < balance
    /\ r = balance - 1.
Proof.
  unfold emitir. unfold bind at 1. unfold SELECT_emisor_balance, gets.
  destruct (emisores (db w) !! emisorId) as [emisor|]; [|discriminate].
  destruct (user_credits (db w) !! emisorId) as [balance|]; [|discriminate].
  destruct (balance <=? 0) eqn:Hb; [discriminate|]. apply Z.leb_gt in Hb.
  intros H. exists balance. split; [reflexivity|]. split; [exact Hb|].
  revert H. generalize (balance - 1). intros r0.
  repeat first
    [ match goal with
      | |- bind ?m ?k ?s = _ -> _ =>
          unfold bind at 1; destruct (m s) as [[?|?] ?]; [|discriminate]
      | |- (match ?x with _ => _ end) ?s = _ -> _ => destruct x; try discriminate
      | |- (let _ := _ in _) _ = _ -> _ => cbv zeta
      end ];
    unfold ret; intros [= _ -> _ _]; reflexivity.
Qed.

(** Every answer 201 reports one credit less than the stored balance,
    and the stored balance is the same after the answer as before. *)
Lemma post_invoice_201 env emisorId facturaData w clave r xml pdf :
  fst (post_invoice env emisorId facturaData w) = Ok (R201 clave r xml pdf) ->
  exists balance,
    user_credits (db w) !! emisorId = Some balance /\ 0 < balance
    /\ r = balance - 1
    /\ user_credits (db (snd (post_invoice env emisorId facturaData w)))
         !! emisorId = Some balance.
Proof.
  intros H. rewrite post_invoice_no_toca_creditos. revert H.
  change (post_invoice env emisorId facturaData w)
    with (try_catch (emitir env emisorId facturaData)
            (fun error => ROLLBACK ;; ret (R500 error))
            {| db := db w; tx := Some (db w); minio := minio w;
               webhooks := webhooks w |}).
  unfold try_catch.
  destruct (emitir env emisorId facturaData _) as [[resp|e] w1] eqn:E.
  - cbn [fst]. intros [= ->]. apply emitir_201 in E as (b & H1 & H2 & H3).
    exists b. repeat split; assumption.
  - cbn. discriminate.
Qed.

(** C1, at the inputs where the code departs from it. With a stored
    balance of 10, a successful issuance answers 201 with
    [creditos_restantes = 9] and leaves the stored balance at 10. With a
    stored balance of 1, two issuances in a row both succeed, two invoice
    rows are committed, and the stored balance is still 1. *)
Theorem emision_integrada_no_descuenta :
  (exists clave xml pdf,
     fst (post_invoice Escenarios.entorno_ok 1 Escenarios.factura_s1
            (Escenarios.mundo_inicial 10))
     = Ok (R201 clave 9 xml pdf))
  /\ Escenarios.balance_de
       (snd (post_invoice Escenarios.entorno_ok 1 Escenarios.factura_s1
               (Escenarios.mundo_inicial 10))) = Some 10
  /\ (exists clave xml pdf,
        fst (post_invoice Escenarios.entorno_ok 1 Escenarios.factura_s1
               (Escenarios.mundo_inicial 1))
        = Ok (R201 clave 0 xml pdf))
  /\ (exists clave xml pdf,
        fst (post_invoice Escenarios.entorno_ok 1 Escenarios.factura_s1
               (snd (post_invoice Escenarios.entorno_ok 1 Escenarios.factura_s1
                       (Escenarios.mundo_inicial 1))))
        = Ok (R201 clave 0 xml pdf))
  /\ Escenarios.estados_de (Escenarios.tras_dos_emisiones 1)
     = ["FIRMADO"; "FIRMADO"]
  /\ Escenarios.balance_de (Escenarios.tras_dos_emisiones 1) = Some 1.
Proof.
  split; [vm_compute; eauto|]. split; [vm_compute; reflexivity|].
  split; [vm_compute; eauto|]. split; [vm_compute; eauto|].
  split; vm_compute; reflexivity.
Qed.

(** C5, at the input where the code departs from it: both artifacts are
    uploaded and the INSERT is refused. The route answers 500 and rolls
    the transaction back (the database is as before, no invoice row),
    but the XML and the PDF stay in the store under the would-be key. *)
Theorem emision_integrada_deja_artefactos :
  let w := Escenarios.mundo_inicial 10 in
  let r := post_invoice Escenarios.entorno_insert_falla 1
             Escenarios.factura_s1 w in
  let clave := "2302202601179001167400110011000000000011011123416"%string in
  fst r = Ok (R500 "error: INSERT INTO invoices")
  /\ db (snd r) = db w
  /\ invoices (db (snd r)) = []
  /\ minio w = ∅
  /\ minio (snd r) !! ("invoices", "1790011674001/" +:+ clave +:+ ".xml")%string
     = Some "<factura id=comprobante/>"%string
  /\ minio (snd r) !! ("invoices", "1790011674001/" +:+ clave +:+ ".pdf")%string
     = Some "%PDF"%string.
Proof. vm_compute. repeat split; reflexivity. Qed.

End IntegracionProps.

(* ===================================================================== *)
(** * Properties of the signing job *)
(* ===================================================================== *)

Module FirmaProps.

Import Sistema SistemaProps Firma.
Local Open Scope mon_scope.

(** [I] holds in the state in which the handler throws. *)
Definition al_lanzar {S A} (I : S -> Prop) (m : M S A) : Prop :=
  forall s, I s -> forall e s', m s = (Throw e, s') -> I s'.

Lemma preserva_al_lanzar {S A} (I : S -> Prop) (m : M S A) :
  preserva I m -> al_lanzar I m.
Proof. intros Hm s Hs e s' E. specialize (Hm s Hs). rewrite E in Hm. exact Hm. Qed.

Lemma al_lanzar_bind {S A B} (I : S -> Prop) (m : M S A) (k : A -> M S B) :
  preserva I m -> (forall a, al_lanzar I (k a)) -> al_lanzar I (bind m k).
Proof.
  intros Hm Hk s Hs e s'. unfold bind. specialize (Hm s Hs).
  destruct (m s) as [[a|e1] s1]; simpl in *.
  - apply (Hk a s1 Hm).
  - intros [= _ <-]. exact Hm.
Qed.

(** Inside the transaction opened on the world [w]: a rollback leads back
    to the database of [w], and every object of the store was already
    there in [w] or is listed in [archivosSubidos]. *)
Definition en_transaccion (w : Mundo) (s : Local) : Prop :=
  tx (fst s) = Some (db w)
  /\ forall k v, minio (fst s) !! k = Some v ->
       minio w !! k = Some v \/ exists p, In p (snd s) /\ k = ("invoices"%string, p).

Lemma en_mundo_db w {A} (m : M Mundo A) :
  (forall w1, tx (snd (m w1)) = tx w1 /\ minio (snd (m w1)) = minio w1) ->
  preserva (en_transaccion w) (en_mundo m).
Proof.
  intros Hm [w1 l] [H1 H2]. unfold en_transaccion, en_mundo.
  destruct (Hm w1) as [Htx Hmin].
  destruct (m w1) as [r w2]. cbn in *. split.
  - rewrite Htx. exact H1.
  - rewrite Hmin. exact H2.
Qed.

Lemma subir_y_anotar w ok path contenido :
  preserva (en_transaccion w)
    (en_mundo (putObject ok "invoices" path contenido) ;; push path).
Proof.
  intros [w1 l] [H1 H2]. unfold en_transaccion, bind, en_mundo, putObject, push.
  destruct ok; cbn in *; [|split; assumption].
  split; [exact H1|]. intros k v Hk.
  destruct (decide (k = ("invoices"%string, path))) as [->|Hne].
  - right. exists path. split; [apply in_or_app; right; left|]; reflexivity.
  - rewrite lookup_insert_ne in Hk by (intros Hc; apply Hne; symmetry; exact Hc).
    destruct (H2 k v Hk) as [?|(p & Hp & ->)]; [left; assumption|].
    right. exists p. split; [apply in_or_app; left; exact Hp | reflexivity].
Qed.

Lemma subir_archivo_y_anotar w ok path contenido :
  preserva (en_transaccion w)
    (en_mundo (uploadFile ok "invoices" path contenido) ;; push path).
Proof.
  intros [w1 l] Hs.
  pose proof (subir_y_anotar w ok path contenido (w1, l) Hs) as H.
  unfold en_transaccion, bind, en_mundo, uploadFile, putObject, push in *.
  destruct ok; cbn in *; exact H.
Qed.

Lemma preserva_signInvoiceXmlCustom (I : Local -> Prop) env xml :
  preserva I (signInvoiceXmlCustom env xml).
Proof.
  intros s Hs. unfold signInvoiceXmlCustom, bind, await.
  destruct (signatureBlock env); exact Hs.
Qed.

Lemma preserva_generarPDFStream (I : Local -> Prop) env xml :
  preserva I (generarPDFStream env xml).
Proof.
  unfold generarPDFStream.
  destruct (incluye _ xml); [apply preserva_await | apply preserva_throw].
Qed.

(** The document of the job has no closing tag of [factura] to put the
    signature in front of, and no [infoTributaria]. *)
Lemma xmlString_sin_firma (bloque : string) :
  replace "</factura>" (bloque +:+ "</factura>") xmlString = xmlString.
Proof. reflexivity. Qed.

Lemma xmlString_sin_infoTributaria :
  incluye "<infoTributaria" xmlString = false.
Proof. reflexivity. Qed.

Lemma firmar_en_transaccion_al_lanzar w env facturaId emisor punto_id punto :
  al_lanzar (en_transaccion w)
    (firmar_en_transaccion env facturaId emisor punto_id punto).
Proof.
  unfold firmar_en_transaccion.
  apply al_lanzar_bind.
  { apply en_mundo_db. intros w1. unfold generar_secuencial.
    destruct (puntos_emision (db w1) !! punto_id); split; reflexivity. }
  intros [n|]; [|apply preserva_al_lanzar, preserva_throw].
  apply al_lanzar_bind.
  { apply en_mundo_db. intros w1. unfold Integracion.clave_o_error.
    destruct (AccessKey.generarClaveAcceso _ _ _ _ _ _ _ _); split; reflexivity. }
  intros claveAcceso.
  apply al_lanzar_bind; [apply preserva_signInvoiceXmlCustom|]. intros xml.
  apply al_lanzar_bind; [apply preserva_generarPDFStream|]. intros pdf.
  cbv zeta.
  apply al_lanzar_bind; [apply subir_archivo_y_anotar|]. intros _.
  apply al_lanzar_bind; [apply subir_y_anotar|]. intros _.
  apply al_lanzar_bind.
  { destruct (update_ok env); [|apply preserva_throw].
    apply en_mundo_db. intros w1. split; reflexivity. }
  intros _ [w1 l] _ e s'. unfold en_mundo, COMMIT, modify. discriminate.
Qed.

(** *** The cleanup *)

Definition sin_archivos (paths : list string) (w : Mundo) : Mundo :=
  {| db := db w; tx := tx w;
     minio := fold_left (fun m p => delete ("invoices"%string, p) m) paths (minio w);
     webhooks := webhooks w |}.

Lemma limpiar_archivos_borra env paths : forall w l,
  (forall p, borrado_ok env p = true) ->
  for_of paths
    (fun path =>
       try_catch
         (en_mundo (deleteFile (borrado_ok env path) "invoices" path) ;; ret tt)
         (fun _ => ret tt))
    (w, l)
  = (Ok tt, (sin_archivos paths w, l)).
Proof.
  induction paths as [|p paths IH]; intros w l Hok.
  - destruct w. reflexivity.
  - cbn [for_of]. unfold bind at 1. unfold try_catch at 1.
    unfold bind at 1. unfold en_mundo at 1. rewrite Hok.
    cbn. rewrite IH by exact Hok. reflexivity.
Qed.

Lemma sin_archivos_lookup paths : forall (m : gmap (string * string) string) k v,
  fold_left (fun m p => delete ("invoices"%string, p) m) paths m !! k = Some v ->
  m !! k = Some v /\ forall p, In p paths -> k <> ("invoices"%string, p).
Proof.
  induction paths as [|q paths IH]; intros m k v Hk; simpl in *.
  - split; [exact Hk | intros p []].
  - apply IH in Hk as [Hk Hno].
    destruct (decide (k = ("invoices"%string, q))) as [->|Hne].
    + rewrite lookup_delete_eq in Hk. discriminate.
    + rewrite lookup_delete_ne in Hk by (intros Hc; apply Hne; symmetry; exact Hc).
      split; [exact Hk|].
      intros p [<- | Hp]; [exact Hne | apply Hno, Hp].
Qed.

(** The signing job cleans up after itself: when it fails, on a fresh
    connection and with every delete of the cleanup succeeding, the
    database is as it was before the attempt and no object remains in the
    store that was not there before. *)
Lemma firmarYEnviarLote_limpia env facturaId inputCliente emisor punto_id punto
    w err w' l' :
  tx w = None ->
  (forall p, borrado_ok env p = true) ->
  firmarYEnviarLote env facturaId inputCliente emisor punto_id punto (w, [])
  = (Throw err, (w', l')) ->
  db w' = db w /\ forall k v, minio w' !! k = Some v -> minio w !! k = Some v.
Proof.
  intros Htx Hok.
  assert (Hcatch : forall e (s : Local),
            (s = (w, []) \/ en_transaccion w s) ->
            forall w2 l2,
              (en_mundo ROLLBACK ;; limpiar_archivos env ;;
               (throw e : M Local unit)) s
              = (Throw err, (w2, l2)) ->
              db w2 = db w
              /\ forall k v, minio w2 !! k = Some v -> minio w !! k = Some v).
  { intros e [w1 l] Hs w2 l2.
    unfold bind at 1. unfold en_mundo at 1. cbn.
    unfold bind at 1. unfold limpiar_archivos, bind at 1, gets. cbn.
    rewrite limpiar_archivos_borra by exact Hok. cbn.
    intros [= _ <- _]. cbn. destruct Hs as [[= -> ->] | [H1 H2]]; cbn in *.
    - rewrite Htx. cbn. split; [reflexivity | auto].
    - rewrite H1. cbn. split; [reflexivity|].
      intros k v Hk. apply sin_archivos_lookup in Hk as [Hk Hno].
      destruct (H2 k v Hk) as [?|(p & Hp & ->)]; [assumption|].
      exfalso. apply (Hno p Hp). reflexivity. }
  unfold firmarYEnviarLote, try_catch.
  unfold bind at 1. unfold preparar, bind at 1.
  destruct (e_p12_path emisor) as [path|].
  - unfold await at 1. destruct (p12Buffer env) as [buf|e0].
    + cbn [ret]. unfold bind at 1. unfold en_mundo at 1. cbn [BEGIN modify].
      set (wB := {| db := db w; tx := Some (db w); minio := minio w;
                    webhooks := webhooks w |}).
      pose proof (firmar_en_transaccion_al_lanzar w env facturaId emisor
                    punto_id punto (wB, [])) as Hthrow.
      destruct (firmar_en_transaccion env facturaId emisor punto_id punto (wB, []))
        as [[[]|e1] s1]; [discriminate|].
      intros E. eapply Hcatch; [right|exact E].
      eapply Hthrow; [|reflexivity].
      split; [reflexivity|]. intros k v Hk. left. exact Hk.
    + intros E. eapply Hcatch; [left; reflexivity|exact E].
  - unfold throw at 1. intros E. eapply Hcatch; [left; reflexivity|exact E].
Qed.

(** The signing job on a pending invoice, with everything around it
    working: the RIDE cannot be made of the document, the row is as
    before and nothing was uploaded. *)
Lemma firmarYEnviarLote_ejemplo :
  let w := Escenarios.mundo_pendiente in
  let r := firmarYEnviarLote Escenarios.entorno_firma 1
             {| ic_detalles := None; ic_items := None |}
             Escenarios.emisor_1 7 Escenarios.punto_100 (w, []) in
  fst r = Throw "Cannot read properties of undefined (reading 'claveAcceso')"
  /\ db (fst (snd r)) = db w
  /\ minio (fst (snd r)) = ∅
  /\ snd (snd r) = [].
Proof. vm_compute. repeat split; reflexivity. Qed.

End FirmaProps.

(* ===================================================================== *)
(** * Further properties of the access key *)
(* ===================================================================== *)

Module ClaveAccesoProps.

Import AccessKey AccessKeyProps.


Lemma modulo11_loop_NaN l : forall factor, modulo11_loop l None factor = None.
Proof. induction l as [|c l IH]; intros factor; simpl; [reflexivity|apply IH]. Qed.

Lemma modulo11_loop_no_digito l : forall suma factor,
  ~ digitos l -> modulo11_loop l suma factor = None.
Proof.
  induction l as [|c l IH]; intros suma factor Hno.
  - exfalso. apply Hno. constructor.
  - simpl. destruct (is_digit c) eqn:Hc.
    + rewrite IH; [reflexivity|]. intros Hl. apply Hno. constructor; assumption.
    + unfold parseInt_char. rewrite Hc. destruct suma; apply modulo11_loop_NaN.
Qed.

Lemma no_digitos_rev s : ~ digitos s -> ~ digitos (rev s).
Proof.
  intros Hno Hrev. apply Hno. rewrite <- (rev_involutive s).
  apply digitos_rev. exact Hrev.
Qed.

(** X1: on a string of decimal digits [modulo11] returns one decimal
    digit, also on the empty string; as soon as one character is not a
    digit the result is NaN. *)
Theorem modulo11_digito_o_NaN (s : str) :
  (digitos s -> exists d, modulo11 s = Some d /\ 0 <= d <= 9)
  /\ (~ digitos s -> modulo11 s = None).
Proof.
  split.
  - intros Hs. exists (digito_spec (map valor_digito s)). split.
    + apply modulo11_spec. exact Hs.
    + apply digito_spec_rango.
  - intros Hno. unfold modulo11.
    rewrite modulo11_loop_no_digito; [reflexivity|].
    apply no_digitos_rev. exact Hno.
Qed.

Lemma modulo11_digito_o_NaN_witness :
  (exists d, modulo11 (lit "230220260117900116740011001100000000123101112341")
             = Some d /\ 0 <= d <= 9)
  /\ modulo11 (lit "2302-2026") = None.
Proof.
  split.
  - apply (modulo11_digito_o_NaN _).
    apply (bool_decide_unpack _). vm_compute. exact I.
  - apply (modulo11_digito_o_NaN _).
    apply (bool_decide_unpack _). vm_compute. exact I.
Defined.


Lemma suma_ponderada_app a : forall b i,
  suma_ponderada (a ++ b) i
  = suma_ponderada a i + suma_ponderada b (i + length a).
Proof.
  induction a as [|d a IH]; intros b i; simpl.
  - rewrite Nat.add_0_r. reflexivity.
  - rewrite IH. replace (S i + length a)%nat with (i + S (length a))%nat by lia.
    lia.
Qed.

Lemma peso_rango i : 2 <= peso i <= 7.
Proof.
  unfold peso. pose proof (Nat.mod_upper_bound i 6). lia.
Qed.

Lemma producto_no_multiplo (delta p : Z) :
  -9 <= delta <= 9 -> 2 <= p <= 7 -> (delta * p) mod 11 = 0 -> delta = 0.
Proof.
  intros Hd Hp Hm.
  assert (Hp' : p = 2 \/ p = 3 \/ p = 4 \/ p = 5 \/ p = 6 \/ p = 7) by lia.
  assert (Hd' : exists k, delta = k - 9 /\ 0 <= k <= 18) by (exists (delta + 9); lia).
  destruct Hd' as [k [-> Hk]].
  assert (Hk' : k = 0 \/ k = 1 \/ k = 2 \/ k = 3 \/ k = 4 \/ k = 5 \/ k = 6
                \/ k = 7 \/ k = 8 \/ k = 9 \/ k = 10 \/ k = 11 \/ k = 12
                \/ k = 13 \/ k = 14 \/ k = 15 \/ k = 16 \/ k = 17 \/ k = 18) by lia.
  repeat (destruct Hp' as [-> | Hp']); try subst p;
    repeat (destruct Hk' as [-> | Hk']); try subst k;
    first [ reflexivity | vm_compute in Hm; discriminate Hm ].
Qed.

Lemma digito_spec_colision (a b : list Z) :
  digito_spec a = digito_spec b -> digito_spec a <> 1 ->
  (suma_ponderada (rev a) 0) mod 11 = (suma_ponderada (rev b) 0) mod 11.
Proof.
  unfold digito_spec.
  pose proof (Z.mod_pos_bound (suma_ponderada (rev a) 0) 11 ltac:(lia)).
  pose proof (Z.mod_pos_bound (suma_ponderada (rev b) 0) 11 ltac:(lia)).
  repeat case_match; lia.
Qed.

Lemma valor_digito_inj c c' : valor_digito c = valor_digito c' -> c = c'.
Proof.
  unfold valor_digito. intros Hv.
  assert (Hn : nat_of_ascii c = nat_of_ascii c') by lia.
  rewrite <- (ascii_nat_embedding c), <- (ascii_nat_embedding c'), Hn.
  reflexivity.
Qed.

(** X2: the check digit catches a mistyped digit. When one digit of a
    string of digits is replaced by a different digit, the result of
    [modulo11] changes, unless the check digit of the original string is
    1: the remainders 1 and 10 both give the check digit 1, and so
    [modulo11 "5"] and [modulo11 "6"] are both 1. *)
Theorem modulo11_detecta_sustitucion (pre post : str) (c c' : ascii) :
  digitos (pre ++ c :: post) -> is_digit c' = true -> c <> c' ->
  modulo11 (pre ++ c :: post) <> Some 1 ->
  modulo11 (pre ++ c' :: post) <> modulo11 (pre ++ c :: post).
Proof.
  intros Hs Hc' Hne Hno1 Heq.
  pose proof Hs as Hs0. unfold digitos in Hs0.
  apply Forall_app in Hs0 as [Hpre Hcp].
  assert (Hc : is_digit c = true) by (inversion Hcp; assumption).
  assert (Hpost : digitos post) by (inversion Hcp; assumption).
  assert (Hs' : digitos (pre ++ c' :: post)).
  { apply digitos_app; [exact Hpre|]. constructor; assumption. }
  rewrite (modulo11_spec _ Hs) in Heq, Hno1.
  rewrite (modulo11_spec _ Hs') in Heq.
  injection Heq as Heq.
  assert (Hno1' : digito_spec (map valor_digito (pre ++ c :: post)) <> 1)
    by (intros Hd; apply Hno1; rewrite Hd; reflexivity).
  symmetry in Heq.
  pose proof (digito_spec_colision _ _ Heq Hno1') as Hm.
  rewrite !map_app, !rev_app_distr in Hm. simpl in Hm.
  rewrite <- !app_assoc in Hm. simpl in Hm.
  rewrite !suma_ponderada_app in Hm. simpl in Hm.
  match type of Hm with
  | ?X mod 11 = ?Y mod 11 =>
      assert (Hd : (X - Y) mod 11 = 0)
        by (rewrite Zminus_mod, Hm, Z.sub_diag; reflexivity)
  end.
  set (j := length (rev (map valor_digito post))) in *.
  apply Hne. apply valor_digito_inj.
  pose proof (valor_digito_rango c Hc). pose proof (valor_digito_rango c' Hc').
  assert (Hz : valor_digito c - valor_digito c' = 0); [|lia].
  apply (producto_no_multiplo _ (peso j)); [lia|apply peso_rango|].
  rewrite <- Hd. f_equal. lia.
Qed.

Lemma modulo11_detecta_sustitucion_witness :
  modulo11 (lit "23022026011790011674001100110000000012" ++ "3"%char
            :: lit "101112341")
  <> modulo11 (lit "23022026011790011674001100110000000012" ++ "4"%char
               :: lit "101112341").
Proof.
  apply (modulo11_detecta_sustitucion
           (lit "23022026011790011674001100110000000012") (lit "101112341")
           "4"%char "3"%char).
  - apply (bool_decide_unpack _). vm_compute. exact I.
  - reflexivity.
  - discriminate.
  - vm_compute. discriminate.
Defined.


Lemma campo_en (a b : str) n :
  length a = n -> take n (a ++ b) = a /\ drop n (a ++ b) = b.
Proof.
  intros <-. split; [apply take_app_length|apply drop_app_length].
Qed.

Lemma length_take_min n (s : str) : length (take n s) = Nat.min n (length s).
Proof. apply length_take. Qed.

(** X3: every key that the builder returns has the fixed layout of the
    access key, so that each component can be read back from its
    position: 8 digits of the date, 2 of the document type, 13 of the RUC,
    1 of the environment, 6 of the series, 9 of the sequential, 8 of the
    numeric code, then the emission type 1 (and the check digit). Each
    field holds the cleaned, padded and cut component computed from the
    argument. *)
Theorem generarClaveAcceso_campos lx fecha tipo ruc amb serie sec cod k :
  generarClaveAcceso lx fecha tipo ruc amb serie sec cod = Clave k ->
  take 8 k = take 8 (limpiar (finalFecha_de lx fecha))
  /\ take 2 (drop 8 k) = substring0 2 (padStart 2 (limpiar tipo))
  /\ take 13 (drop 10 k) = take 13 (limpiar ruc)
  /\ take 1 (drop 23 k) = take 1 (limpiar amb)
  /\ take 6 (drop 24 k) = substring0 6 (padStart 6 (limpiar serie))
  /\ take 9 (drop 30 k) = substring0 9 (padStart 9 (limpiar sec))
  /\ take 8 (drop 39 k)
     = substring0 8 (padStart 8 (limpiar (codigoFinal_de lx cod)))
  /\ take 1 (drop 47 k) = lit "1".
Proof.
  unfold generarClaveAcceso.
  pose proof (length_clave_base lx fecha tipo ruc amb serie sec cod) as Hlen.
  destruct (length (clave_base lx fecha tipo ruc amb serie sec cod) =? 48)%nat
    eqn:H48; simpl; [|discriminate].
  apply Nat.eqb_eq in H48. rewrite H48 in Hlen.
  intros [= <-]. unfold clave_base, substring0.
  set (p1 := take 8 (limpiar (finalFecha_de lx fecha))).
  set (p2 := take 2 (padStart 2 (limpiar tipo))).
  set (p3 := take 13 (limpiar ruc)).
  set (p4 := take 1 (limpiar amb)).
  set (p5 := take 6 (padStart 6 (limpiar serie))).
  set (p6 := take 9 (padStart 9 (limpiar sec))).
  set (p7 := take 8 (padStart 8 (limpiar (codigoFinal_de lx cod)))).
  set (dv := number_toString _).
  assert (H1 : length p1 = 8%nat) by (unfold p1; rewrite length_take; lia).
  assert (H2 : length p2 = 2%nat) by apply length_campo.
  assert (H3 : length p3 = 13%nat) by (unfold p3; rewrite length_take; lia).
  assert (H4 : length p4 = 1%nat) by (unfold p4; rewrite length_take; lia).
  assert (H5 : length p5 = 6%nat) by apply length_campo.
  assert (H6 : length p6 = 9%nat) by apply length_campo.
  assert (H7 : length p7 = 8%nat) by apply length_campo.
  rewrite <- !app_assoc.
  set (K := p1 ++ _).
  replace (drop 47 K) with (drop 8 (drop 39 K)) by (rewrite drop_drop; reflexivity).
  replace (drop 39 K) with (drop 9 (drop 30 K)) by (rewrite drop_drop; reflexivity).
  replace (drop 30 K) with (drop 6 (drop 24 K)) by (rewrite drop_drop; reflexivity).
  replace (drop 24 K) with (drop 1 (drop 23 K)) by (rewrite drop_drop; reflexivity).
  replace (drop 23 K) with (drop 13 (drop 10 K)) by (rewrite drop_drop; reflexivity).
  replace (drop 10 K) with (drop 2 (drop 8 K)) by (rewrite drop_drop; reflexivity).
  subst K.
  destruct (campo_en p1 (p2 ++ p3 ++ p4 ++ p5 ++ p6 ++ p7 ++ lit "1" ++ dv) 8 H1)
    as [-> ->].
  destruct (campo_en p2 (p3 ++ p4 ++ p5 ++ p6 ++ p7 ++ lit "1" ++ dv) 2 H2)
    as [-> ->].
  destruct (campo_en p3 (p4 ++ p5 ++ p6 ++ p7 ++ lit "1" ++ dv) 13 H3) as [-> ->].
  destruct (campo_en p4 (p5 ++ p6 ++ p7 ++ lit "1" ++ dv) 1 H4) as [-> ->].
  destruct (campo_en p5 (p6 ++ p7 ++ lit "1" ++ dv) 6 H5) as [-> ->].
  destruct (campo_en p6 (p7 ++ lit "1" ++ dv) 9 H6) as [-> ->].
  destruct (campo_en p7 (lit "1" ++ dv) 8 H7) as [-> ->].
  repeat split; reflexivity.
Qed.

Lemma generarClaveAcceso_campos_witness :
  let k := lit "2302202601179001167400110011000000001231011123411" in
  take 8 k = lit "23022026"
  /\ take 2 (drop 8 k) = lit "01"
  /\ take 13 (drop 10 k) = lit "1790011674001"
  /\ take 1 (drop 23 k) = lit "1"
  /\ take 6 (drop 24 k) = lit "001100"
  /\ take 9 (drop 30 k) = lit "000000123"
  /\ take 8 (drop 39 k) = lit "10111234"
  /\ take 1 (drop 47 k) = lit "1".
Proof.
  apply (generarClaveAcceso_campos reloj_ejemplo
           (Some (lit "2026-02-23")) (lit "01") (lit "1790011674001")
           (lit "1") (lit "001100") (lit "000000123") None).
  reflexivity.
Defined.

End ClaveAccesoProps.

(* ===================================================================== *)
(** * Strings: conversions, [split] and [join] *)
(* ===================================================================== *)

Module CadenasProps.

Import AccessKey Cifrado.

Lemma lit_app (a b : string) : lit (a +:+ b) = lit a ++ lit b.
Proof.
  unfold lit. induction a as [|c a IH]; simpl; [reflexivity|].
  f_equal. exact IH.
Qed.

Lemma string_of_lit (s : string) : string_of_list_ascii (lit s) = s.
Proof. apply string_of_list_ascii_of_string. Qed.

Lemma lit_of_string (l : str) : lit (string_of_list_ascii l) = l.
Proof. apply list_ascii_of_string_of_list_ascii. Qed.

Lemma split_no_vacio (sep : ascii) (s : str) : split sep s <> [].
Proof.
  destruct s as [|c s]; simpl; [discriminate|].
  destruct (decide (c = sep)); [discriminate|].
  destruct (split sep s); discriminate.
Qed.

Lemma join_cons (sep : ascii) (p : str) (ps : list str) :
  ps <> [] -> join sep (p :: ps) = p ++ sep :: join sep ps.
Proof. destruct ps; [congruence|reflexivity]. Qed.

Lemma join_split (sep : ascii) (s : str) : join sep (split sep s) = s.
Proof.
  induction s as [|c s IH]; [reflexivity|]. simpl.
  destruct (decide (c = sep)) as [->|Hne].
  - rewrite join_cons by apply split_no_vacio. rewrite IH. reflexivity.
  - pose proof (split_no_vacio sep s) as Hs.
    destruct (split sep s) as [|p ps]; [congruence|].
    destruct ps as [|q ps]; simpl in *; rewrite <- IH; reflexivity.
Qed.

Lemma includes_false (c : ascii) (s : str) :
  includes c s = false -> Forall (fun x => x <> c) s.
Proof.
  unfold includes. induction s as [|x s IH]; simpl; intros H; constructor.
  - apply orb_false_elim in H as [H _]. apply bool_decide_eq_false in H. exact H.
  - apply IH. apply orb_false_elim in H as [_ H]. exact H.
Qed.

Lemma split_app_sep (sep : ascii) (s t : str) :
  Forall (fun x => x <> sep) s -> split sep (s ++ sep :: t) = s :: split sep t.
Proof.
  induction 1 as [|x s Hx Hs IH]; simpl.
  - destruct (decide (sep = sep)); [reflexivity|congruence].
  - destruct (decide (x = sep)); [contradiction|]. rewrite IH. reflexivity.
Qed.

Lemma split_sin (sep : ascii) (s : str) :
  Forall (fun x => x <> sep) s -> split sep s = [s].
Proof.
  induction 1 as [|x s Hx Hs IH]; simpl; [reflexivity|].
  destruct (decide (x = sep)); [contradiction|]. rewrite IH. reflexivity.
Qed.

End CadenasProps.

(* ===================================================================== *)
(** * Properties of the public downloads *)
(* ===================================================================== *)

Module PublicoProps.

Import Sistema AccessKey AccessKeyProps CadenasProps Publico.
Local Open Scope mon_scope.

Lemma digitos_forallb s : digitos s -> forallb is_digit s = true.
Proof.
  induction 1 as [|c s Hc Hs IH]; simpl; [reflexivity|].
  rewrite Hc, IH. reflexivity.
Qed.

(** Every key returned by the builder has 49 decimal digits. *)
Lemma Clave_49_digitos lx fecha tipo ruc amb serie sec cod k :
  generarClaveAcceso lx fecha tipo ruc amb serie sec cod = Clave k ->
  length k = 49%nat /\ digitos k.
Proof.
  unfold generarClaveAcceso.
  set (base := clave_base lx fecha tipo ruc amb serie sec cod).
  pose proof (digitos_clave_base lx fecha tipo ruc amb serie sec cod) as Hd.
  fold base in Hd.
  destruct (length base =? 48)%nat eqn:E; simpl; [|discriminate].
  apply Nat.eqb_eq in E. intros [= <-].
  rewrite (modulo11_spec base Hd).
  destruct (number_toString_digito _ (digito_spec_rango (map valor_digito base)))
    as (c & -> & Hdig & _).
  split.
  - rewrite length_app, E. reflexivity.
  - apply digitos_app; [exact Hd|]. repeat constructor. exact Hdig.
Qed.

Lemma separar_ruta_compuesta bucket fileName :
  Cifrado.includes "/" (lit bucket) = false ->
  separar_ruta (bucket +:+ "/" +:+ fileName) = (bucket, fileName).
Proof.
  intros Hb. unfold separar_ruta. rewrite !lit_app.
  change (lit "/" ++ lit fileName) with ("/"%char :: lit fileName).
  rewrite split_app_sep by (apply includes_false; exact Hb).
  rewrite join_split, !string_of_lit. reflexivity.
Qed.

Lemma clave_valida_Clave lx fecha tipo ruc amb serie sec cod k :
  generarClaveAcceso lx fecha tipo ruc amb serie sec cod = Clave k ->
  clave_valida (string_of_list_ascii k) = true.
Proof.
  intros Hk. apply Clave_49_digitos in Hk as [Hlen Hdig].
  unfold clave_valida. rewrite lit_of_string. cbv zeta.
  rewrite Hlen, (digitos_forallb _ Hdig). reflexivity.
Qed.

(** X4: the public download routes accept exactly the strings of 49
    decimal digits. Every access key that the builder returns is
    accepted; a placeholder ["PENDING-..."] of an invoice that was not
    signed yet never is, and a refused key is answered 400 without any
    query or change. *)
Theorem clave_valida_generadas :
  (forall lx fecha tipo ruc amb serie sec cod k,
     generarClaveAcceso lx fecha tipo ruc amb serie sec cod = Clave k ->
     clave_valida (string_of_list_ascii k) = true)
  /\ (forall resto, clave_valida ("PENDING-" +:+ resto) = false)
  /\ (forall claveAcceso w,
        clave_valida claveAcceso = false ->
        get_pdf claveAcceso w = (Ok (R400 "Clave inválida"), w)
        /\ get_xml claveAcceso w = (Ok (R400 "Clave inválida"), w)).
Proof.
  split; [|split].
  - intros lx fecha tipo ruc amb serie sec cod k. apply clave_valida_Clave.
  - intros resto. unfold clave_valida. rewrite lit_app. cbv zeta.
    simpl. apply andb_false_r.
  - intros claveAcceso w Hno. unfold get_pdf, get_xml. rewrite Hno.
    split; reflexivity.
Qed.

Lemma clave_valida_generadas_witness :
  clave_valida "2302202601179001167400110011000000001231011123411" = true.
Proof.
  apply (proj1 clave_valida_generadas reloj_ejemplo
           (Some (lit "2026-02-23")) (lit "01") (lit "1790011674001")
           (lit "1") (lit "001100") (lit "000000123") None
           (lit "2302202601179001167400110011000000001231011123411")).
  reflexivity.
Defined.

(** X5: the path that [uploadFile] returns leads back to the object.
    For a bucket name without a slash, splitting the returned path as
    the download routes do gives the bucket and the object name that
    were uploaded, whatever slashes the object name holds, and the object
    read there is the content that was stored. *)
Theorem ruta_de_uploadFile ok bucket fileName contenido w path w' :
  Cifrado.includes "/" (lit bucket) = false ->
  uploadFile ok bucket fileName contenido w = (Ok path, w') ->
  separar_ruta path = (bucket, fileName)
  /\ getObject bucket fileName w' = (Ok contenido, w').
Proof.
  intros Hb. unfold uploadFile, putObject, bind.
  destruct ok; cbn; [|discriminate].
  intros [= <- <-]. split.
  - apply separar_ruta_compuesta. exact Hb.
  - unfold getObject. cbn. rewrite lookup_insert_eq. reflexivity.
Qed.

Lemma ruta_de_uploadFile_witness :
  separar_ruta "invoices/authorized/1790011674001/k.xml"
  = ("invoices", "authorized/1790011674001/k.xml")%string
  /\ getObject "invoices" "authorized/1790011674001/k.xml"
       (snd (uploadFile true "invoices" "authorized/1790011674001/k.xml"
               "<autorizacion/>" (Escenarios.mundo_inicial 1)))
     = (Ok "<autorizacion/>"%string,
        snd (uploadFile true "invoices" "authorized/1790011674001/k.xml"
               "<autorizacion/>" (Escenarios.mundo_inicial 1))).
Proof.
  apply (ruta_de_uploadFile true "invoices" "authorized/1790011674001/k.xml"
           "<autorizacion/>" (Escenarios.mundo_inicial 1)).
  - reflexivity.
  - reflexivity.
Defined.

End PublicoProps.

(* ===================================================================== *)
(** * Further properties of POST /integrations/invoice *)
(* ===================================================================== *)

Module EmisionIntegradaProps.

Import Sistema SistemaProps Integracion IntegracionProps FirmaProps.
Local Open Scope mon_scope.

(** The world right after [BEGIN]. *)
Definition tras_BEGIN (w : Mundo) : Mundo :=
  {| db := db w; tx := Some (db w); minio := minio w; webhooks := webhooks w |}.

Lemma post_invoice_BEGIN env emisorId facturaData w :
  post_invoice env emisorId facturaData w
  = try_catch (emitir env emisorId facturaData)
      (fun error => ROLLBACK ;; ret (R500 error)) (tras_BEGIN w).
Proof. reflexivity. Qed.

(** The balance check of step 1. *)
Definition sin_creditos (emisorId : Z) (d : DB) : Prop :=
  emisores d !! emisorId = None
  \/ user_credits d !! emisorId = None
  \/ exists balance, user_credits d !! emisorId = Some balance /\ balance <= 0.

(** Steps through a handler that is applied to a state and compared with
    an outcome. *)
Ltac paso :=
  match goal with
  | |- bind ?m ?k ?s = _ -> _ =>
      unfold bind at 1; destruct (m s) as [[?|?] ?] eqn:?; [|try discriminate]
  | |- (match ?x with _ => _ end) ?s = _ -> _ => destruct x eqn:?; try discriminate
  | |- (if ?b then _ else _) ?s = _ -> _ => destruct b eqn:?; try discriminate
  | |- (let _ := _ in _) _ = _ -> _ => cbv zeta
  end.

Lemma emitir_responde env emisorId facturaData w resp w' :
  emitir env emisorId facturaData w = (Ok resp, w') ->
  match resp with
  | R402 _ => sin_creditos emisorId (db w) /\ w' = w
  | R201 _ _ _ _ => ~ sin_creditos emisorId (db w)
  | R500 _ => False
  end.
Proof.
  unfold emitir. unfold bind at 1. unfold SELECT_emisor_balance, gets.
  destruct (emisores (db w) !! emisorId) as [emisor|] eqn:He.
  2:{ intros [= <- <-]. split; [left; exact He|reflexivity]. }
  destruct (user_credits (db w) !! emisorId) as [balance|] eqn:Hc.
  2:{ intros [= <- <-]. split; [right; left; exact Hc|reflexivity]. }
  destruct (balance <=? 0) eqn:Hb.
  { apply Z.leb_le in Hb. intros [= <- <-].
    split; [right; right; exists balance; split; [exact Hc|exact Hb]|reflexivity]. }
  apply Z.leb_gt in Hb.
  assert (Hno : ~ sin_creditos emisorId (db w)).
  { intros [H|[H|(b & H & Hle)]]; try congruence.
    rewrite Hc in H. injection H as <-. lia. }
  generalize (balance - 1). intros r0.
  repeat paso; unfold ret; intros [= <- _]; exact Hno.
Qed.

Lemma SELECT_punto_primero estab punto emisorId w punto_id p resto l w1 :
  SELECT_punto estab punto emisorId w = (Ok l, w1) ->
  l = (punto_id, p) :: resto ->
  w1 = w /\ puntos_emision (db w) !! punto_id = Some p
  /\ pe_estab_codigo p = estab /\ pe_codigo p = punto /\ pe_emisor_id p = emisorId.
Proof.
  unfold SELECT_punto, gets. intros [= <- <-] Hl.
  split; [reflexivity|].
  assert (Hin : In (punto_id, p)
                  (List.filter
                     (fun '(_, p) =>
                        bool_decide (pe_estab_codigo p = estab)
                        && bool_decide (pe_codigo p = punto)
                        && bool_decide (pe_emisor_id p = emisorId))
                     (map_to_list (puntos_emision (db w)))))
    by (rewrite Hl; left; reflexivity).
  apply filter_In in Hin as [Hin Hp].
  apply list_elem_of_In, elem_of_map_to_list in Hin.
  apply andb_prop in Hp as [Hp H3]. apply andb_prop in Hp as [H1 H2].
  apply bool_decide_eq_true in H1, H2, H3. repeat split; assumption.
Qed.

Lemma calculos_de_mundo items w r w1 :
  calculos_de items w = (r, w1) -> w1 = w.
Proof. unfold calculos_de. destruct items; intros [= _ <-]; reflexivity. Qed.

Lemma clave_o_error_Ok res w c w1 :
  clave_o_error res w = (Ok c, w1) ->
  w1 = w /\ exists k, res = AccessKey.Clave k /\ c = string_of_list_ascii k.
Proof.
  unfold clave_o_error. destruct res as [k|]; [|discriminate].
  intros [= <- <-]. split; [reflexivity|]. exists k. split; reflexivity.
Qed.

Lemma putObject_Ok ok bucket fileName contenido w u w1 :
  putObject ok bucket fileName contenido w = (Ok u, w1) ->
  w1 = {| db := db w; tx := tx w;
          minio := <[(bucket, fileName) := contenido]> (minio w);
          webhooks := webhooks w |}.
Proof. unfold putObject. destruct ok; [|discriminate]. intros [= _ <-]. reflexivity. Qed.

Lemma uploadFile_Ok ok bucket fileName contenido w path w1 :
  uploadFile ok bucket fileName contenido w = (Ok path, w1) ->
  path = bucket +:+ "/" +:+ fileName
  /\ w1 = {| db := db w; tx := tx w;
             minio := <[(bucket, fileName) := contenido]> (minio w);
             webhooks := webhooks w |}.
Proof.
  unfold uploadFile, putObject, bind. destruct ok; [|discriminate].
  intros [= <- <-]. split; reflexivity.
Qed.

Lemma INSERT_invoice_Ok aceptada fila w u w1 :
  INSERT_invoice aceptada fila w = (Ok u, w1) ->
  w1 = con_db (con_invoices (fun invs => invs ++ [fila (siguiente_id invs)])) w.
Proof.
  unfold INSERT_invoice. destruct aceptada; [|discriminate].
  intros [= _ <-]. reflexivity.
Qed.

Lemma emitir_201_mundo env emisorId fd w clave r xml pdf w' :
  emitir env emisorId fd w = (Ok (R201 clave r xml pdf), w') ->
  exists emisor punto_id punto xmlc pdfc fila,
    emisores (db w) !! emisorId = Some emisor
    /\ puntos_emision (db w) !! punto_id = Some punto
    /\ pe_emisor_id punto = emisorId
    /\ pe_estab_codigo punto = o_cadena "001" (fd_establecimiento fd)
    /\ pe_codigo punto = o_cadena "100" (fd_punto_emision fd)
    /\ (exists resto,
          SELECT_punto (o_cadena "001" (fd_establecimiento fd))
            (o_cadena "100" (fd_punto_emision fd)) emisorId w
          = (Ok ((punto_id, punto) :: resto), w))
    /\ xmlFirmado env = Ok xmlc /\ pdfStream env = Ok pdfc
    /\ (exists k,
          AccessKey.generarClaveAcceso (luxon env)
            (Some (fechaFormatoClave env)) (AccessKey.lit "01")
            (AccessKey.lit (e_ruc emisor)) (AccessKey.lit (e_ambiente emisor))
            (AccessKey.lit (pe_estab_codigo punto +:+ pe_codigo punto))
            (AccessKey.padStart 9
               (AccessKey.number_toString (Some (pe_secuencial_actual punto + 1))))
            None = AccessKey.Clave k
          /\ clave = string_of_list_ascii k)
    /\ xml = "invoices/" +:+ e_ruc emisor +:+ "/" +:+ clave +:+ ".xml"
    /\ pdf = "invoices/" +:+ e_ruc emisor +:+ "/" +:+ clave +:+ ".pdf"
    /\ i_id fila = siguiente_id (invoices (db w))
    /\ i_emisor_id fila = emisorId /\ i_punto_emision_id fila = punto_id
    /\ i_estado fila = "FIRMADO" /\ i_clave_acceso fila = clave
    /\ i_xml_path fila = Some xml /\ i_pdf_path fila = Some pdf
    /\ i_secuencial fila
       = Some (string_of_list_ascii
                 (AccessKey.padStart 9
                    (AccessKey.number_toString
                       (Some (pe_secuencial_actual punto + 1)))))
    /\ i_created_at fila = ahoraJS env
    /\ w' = {| db := {| emisores := emisores (db w);
                        user_credits := user_credits (db w);
                        profiles := profiles (db w);
                        puntos_emision :=
                          <[punto_id :=
                              {| pe_emisor_id := pe_emisor_id punto;
                                 pe_estab_codigo := pe_estab_codigo punto;
                                 pe_codigo := pe_codigo punto;
                                 pe_direccion := pe_direccion punto;
                                 pe_secuencial_actual :=
                                   pe_secuencial_actual punto + 1 |}]>
                            (puntos_emision (db w));
                        invoices := invoices (db w) ++ [fila] |};
               tx := None;
               minio :=
                 <[("invoices"%string,
                    e_ruc emisor +:+ "/" +:+ clave +:+ ".pdf") := pdfc]>
                   (<[("invoices"%string,
                       e_ruc emisor +:+ "/" +:+ clave +:+ ".xml") := xmlc]>
                      (minio w));
               webhooks := webhooks w |}.
Proof.
  unfold emitir. unfold bind at 1. unfold SELECT_emisor_balance, gets.
  destruct (emisores (db w) !! emisorId) as [emisor|] eqn:He; [|discriminate].
  destruct (user_credits (db w) !! emisorId) as [balance|] eqn:Hc; [|discriminate].
  destruct (balance <=? 0) eqn:Hb; [discriminate|].
  unfold bind at 1.
  destruct (SELECT_punto _ _ _ w) as [[l|?] w1] eqn:Hsel; [|discriminate].
  destruct l as [|[punto_id p] resto]; [discriminate|].
  destruct (SELECT_punto_primero _ _ _ _ _ _ _ _ _ Hsel eq_refl)
    as (-> & Hp & Hestab & Hcod & Hem).
  unfold bind at 1. unfold generar_secuencial at 1. rewrite Hp.
  intros H.
  assert (H' :
    exists (calculos : Calculadora.Resultado float) k xmlc pdfc,
      AccessKey.generarClaveAcceso (luxon env)
        (Some (fechaFormatoClave env)) (AccessKey.lit "01")
        (AccessKey.lit (e_ruc emisor)) (AccessKey.lit (e_ambiente emisor))
        (AccessKey.lit (pe_estab_codigo p +:+ pe_codigo p))
        (AccessKey.padStart 9
           (AccessKey.number_toString (Some (pe_secuencial_actual p + 1))))
        None = AccessKey.Clave k
      /\ clave = string_of_list_ascii k
      /\ xmlFirmado env = Ok xmlc /\ pdfStream env = Ok pdfc
      /\ xml = "invoices/" +:+ e_ruc emisor +:+ "/" +:+ clave +:+ ".xml"
      /\ pdf = "invoices/" +:+ e_ruc emisor +:+ "/" +:+ clave +:+ ".pdf"
      /\ w' = {| db := {| emisores := emisores (db w);
                        user_credits := user_credits (db w);
                        profiles := profiles (db w);
                        puntos_emision :=
                          <[punto_id :=
                              {| pe_emisor_id := pe_emisor_id p;
                                 pe_estab_codigo := pe_estab_codigo p;
                                 pe_codigo := pe_codigo p;
                                 pe_direccion := pe_direccion p;
                                 pe_secuencial_actual :=
                                   pe_secuencial_actual p + 1 |}]>
                            (puntos_emision (db w));
                        invoices := invoices (db w) ++
                          [ {| i_id := siguiente_id (invoices (db w));
                               i_emisor_id := emisorId;
                               i_punto_emision_id := punto_id;
                               i_secuencial :=
                                 Some (string_of_list_ascii
                                   (AccessKey.padStart 9
                                      (AccessKey.number_toString
                                         (Some (pe_secuencial_actual p + 1)))));
                               i_clave_acceso := clave;
                               i_estado := "FIRMADO";
                               i_importe_total :=
                                 Calculadora.importeTotal
                                   (Calculadora.totales calculos);
                               i_xml_path := Some xml;
                               i_pdf_path := Some pdf;
                               i_mensajes_sri := None;
                               i_fecha_envio_sri := None;
                               i_fecha_autorizacion := None;
                               i_created_at := ahoraJS env |} ] |};
               tx := None;
               minio :=
                 <[("invoices"%string,
                    e_ruc emisor +:+ "/" +:+ clave +:+ ".pdf") := pdfc]>
                   (<[("invoices"%string,
                       e_ruc emisor +:+ "/" +:+ clave +:+ ".xml") := xmlc]>
                      (minio w));
               webhooks := webhooks w |}).
  { revert H.
    set (w1 := con_db _ w).
    set (sec := AccessKey.padStart 9 _).
    intros H.
    assert (H2 : forall (m : M Mundo Respuesta),
               (match pe_secuencial_actual p + 1 with
                | 0 => throw "Secuencial nulo para el punto."
                | _ => m
                end) w1 = (Ok (R201 clave r xml pdf), w') ->
               m w1 = (Ok (R201 clave r xml pdf), w')).
    { intros m. destruct (pe_secuencial_actual p + 1); [discriminate|auto|auto]. }
    apply H2 in H. clear H2. revert H.
    unfold bind at 1.
    destruct (calculos_de (fd_items fd) w1) as [[calculos|?] w2] eqn:Hcalc;
      [|discriminate].
    apply calculos_de_mundo in Hcalc as ->.
    unfold bind at 1.
    destruct (clave_o_error _ w1) as [[claveAcceso|?] w3] eqn:Hclave;
      [|discriminate].
    apply clave_o_error_Ok in Hclave as (-> & k & Hk & ->).
    unfold bind at 1. unfold await at 1.
    destruct (xmlFirmado env) as [xmlc|?] eqn:Hxml; [|discriminate].
    unfold bind at 1. unfold await at 1.
    destruct (pdfStream env) as [pdfc|?] eqn:Hpdf; [|discriminate].
    unfold bind at 1.
    destruct (uploadFile _ _ _ _ w1) as [[path|?] w4] eqn:Hup; [|discriminate].
    apply uploadFile_Ok in Hup as [_ ->].
    unfold bind at 1.
    destruct (putObject _ _ _ _ _) as [[?|?] w5] eqn:Hput; [|discriminate].
    apply putObject_Ok in Hput as ->.
    unfold bind at 1.
    destruct (INSERT_invoice _ _ _) as [[?|?] w6] eqn:Hins; [|discriminate].
    apply INSERT_invoice_Ok in Hins as ->.
    unfold bind at 1. unfold COMMIT at 1, modify at 1. unfold ret.
    intros [= <- <- <- <- <-].
    exists calculos, k, xmlc, pdfc.
    split; [exact Hk|]. repeat (split; [reflexivity|]). reflexivity. }
  destruct H' as (calculos & k & xmlc & pdfc & Hk & Hclave & Hxml & Hpdf
                  & Hx & Hpd & Hw).
  match type of Hw with
  | context [invoices (db w) ++ [?f]] => exists emisor, punto_id, p, xmlc, pdfc, f
  end.
  split; [reflexivity|]. split; [exact Hp|]. split; [exact Hem|].
  split; [exact Hestab|]. split; [exact Hcod|].
  split; [exists resto; reflexivity|].
  split; [exact Hxml|]. split; [exact Hpdf|].
  split; [exists k; split; assumption|].
  split; [exact Hx|]. split; [exact Hpd|].
  cbn. repeat (split; [reflexivity|]). exact Hw.
Qed.


(** X6: the integrated route answers 402 exactly when the issuer, its
    credit row, or a positive balance is missing. In that case nothing
    is written, and the transaction that [BEGIN] opened is neither
    committed nor rolled back before the connection is released. *)
Theorem post_invoice_402 env emisorId facturaData w :
  (sin_creditos emisorId (db w) ->
   post_invoice env emisorId facturaData w
   = (Ok (R402 "Créditos insuficientes."), tras_BEGIN w))
  /\ (forall mensaje,
        fst (post_invoice env emisorId facturaData w) = Ok (R402 mensaje) ->
        sin_creditos emisorId (db w)
        /\ snd (post_invoice env emisorId facturaData w) = tras_BEGIN w).
Proof.
  rewrite post_invoice_BEGIN. unfold try_catch. split.
  - intros Hsin. unfold emitir. unfold bind at 1.
    unfold SELECT_emisor_balance, gets. cbn [db tras_BEGIN].
    destruct Hsin as [H|[H|(b & H & Hle)]]; rewrite H.
    + reflexivity.
    + destruct (emisores (db w) !! emisorId); reflexivity.
    + apply Z.leb_le in Hle.
      destruct (emisores (db w) !! emisorId); [rewrite Hle|]; reflexivity.
  - intros mensaje.
    destruct (emitir env emisorId facturaData (tras_BEGIN w)) as [[resp|e] w1] eqn:E.
    + cbn. intros [= ->]. apply emitir_responde in E. exact E.
    + cbn. discriminate.
Qed.

Lemma post_invoice_402_witness :
  post_invoice Escenarios.entorno_ok 1 Escenarios.factura_s1
    (Escenarios.mundo_inicial 0)
  = (Ok (R402 "Créditos insuficientes."), tras_BEGIN (Escenarios.mundo_inicial 0)).
Proof.
  apply (proj1 (post_invoice_402 Escenarios.entorno_ok 1 Escenarios.factura_s1
                  (Escenarios.mundo_inicial 0))).
  right. right. exists 0. split; [reflexivity|lia].
Defined.

(** Inside the transaction opened on [w0]: a rollback leads back to the
    database of [w0], and no webhook was called. *)
Definition dentro_de (w0 w : Mundo) : Prop :=
  tx w = Some (db w0) /\ webhooks w = webhooks w0.

Lemma dentro_de_modify w0 (f : Mundo -> Mundo) :
  (forall w, tx (f w) = tx w /\ webhooks (f w) = webhooks w) ->
  preserva (dentro_de w0) (modify f).
Proof.
  intros Hf. apply preserva_modify. intros w [H1 H2].
  destruct (Hf w) as [Ht Hw]. split; congruence.
Qed.

Lemma dentro_de_putObject w0 ok bucket fileName contenido :
  preserva (dentro_de w0) (putObject ok bucket fileName contenido).
Proof.
  unfold putObject. destruct ok; [|apply preserva_throw].
  apply dentro_de_modify. intros w. split; reflexivity.
Qed.

Lemma emitir_al_lanzar w0 env emisorId facturaData :
  al_lanzar (dentro_de w0) (emitir env emisorId facturaData).
Proof.
  unfold emitir.
  apply al_lanzar_bind; [apply preserva_gets|]. intros [[emisor balance]|];
    [|apply preserva_al_lanzar, preserva_ret].
  destruct (balance <=? 0); [apply preserva_al_lanzar, preserva_ret|]. cbv zeta.
  apply al_lanzar_bind; [apply preserva_gets|]. intros [|[punto_id punto] resto];
    [apply preserva_al_lanzar, preserva_throw|].
  apply al_lanzar_bind.
  { intros w [H1 H2]. unfold generar_secuencial.
    destruct (puntos_emision (db w) !! punto_id); split; assumption. }
  intros [[|q|q]|]; try (apply preserva_al_lanzar, preserva_throw);
    (apply al_lanzar_bind;
     [ unfold calculos_de; destruct (fd_items facturaData);
         [apply preserva_ret|apply preserva_throw] |];
     intros calculos;
     apply al_lanzar_bind;
     [ unfold clave_o_error;
       destruct (AccessKey.generarClaveAcceso _ _ _ _ _ _ _ _);
         [apply preserva_ret|apply preserva_throw] |];
     intros claveAcceso;
     apply al_lanzar_bind; [apply preserva_await|]; intros xml;
     apply al_lanzar_bind; [apply preserva_await|]; intros pdf;
     apply al_lanzar_bind;
     [ unfold uploadFile; apply preserva_bind; [apply dentro_de_putObject|];
       intros _; apply preserva_ret |];
     intros _;
     apply al_lanzar_bind; [apply dentro_de_putObject|]; intros _;
     apply al_lanzar_bind;
     [ unfold INSERT_invoice; destruct (insert_ok env); [|apply preserva_throw];
       apply dentro_de_modify; intros w; split; reflexivity |];
     intros _ w _ e w'; unfold bind, COMMIT, modify, ret; discriminate).

Qed.

(** X7: on a connection with no transaction open, whenever the
    integrated route answers 500 the database is exactly the one found:
    the transaction was rolled back, so that no invoice row was added
    and the sequential of the point was not consumed; no webhook was
    called. *)
Theorem post_invoice_500_deshace env emisorId facturaData w error :
  tx w = None ->
  fst (post_invoice env emisorId facturaData w) = Ok (R500 error) ->
  db (snd (post_invoice env emisorId facturaData w)) = db w
  /\ tx (snd (post_invoice env emisorId facturaData w)) = None
  /\ webhooks (snd (post_invoice env emisorId facturaData w)) = webhooks w.
Proof.
  intros _. rewrite post_invoice_BEGIN. unfold try_catch.
  pose proof (emitir_al_lanzar w env emisorId facturaData (tras_BEGIN w)) as Hl.
  destruct (emitir env emisorId facturaData (tras_BEGIN w)) as [[resp|e] w1] eqn:E.
  - cbn. intros [= ->]. apply emitir_responde in E. destruct E.
  - intros _. destruct (Hl (conj eq_refl eq_refl) e w1 eq_refl) as [H1 H2].
    cbn. rewrite H1. cbn. repeat split. exact H2.
Qed.

Lemma post_invoice_500_deshace_witness :
  let r := post_invoice Escenarios.entorno_insert_falla 1 Escenarios.factura_s1
             (Escenarios.mundo_inicial 10) in
  db (snd r) = db (Escenarios.mundo_inicial 10)
  /\ tx (snd r) = None
  /\ webhooks (snd r) = webhooks (Escenarios.mundo_inicial 10).
Proof.
  apply (post_invoice_500_deshace Escenarios.entorno_insert_falla 1
           Escenarios.factura_s1 (Escenarios.mundo_inicial 10)
           "error: INSERT INTO invoices").
  - reflexivity.
  - vm_compute. reflexivity.
Defined.

Lemma post_invoice_201_emitir env emisorId facturaData w clave r xml pdf :
  fst (post_invoice env emisorId facturaData w) = Ok (R201 clave r xml pdf) ->
  emitir env emisorId facturaData (tras_BEGIN w)
  = (Ok (R201 clave r xml pdf), snd (post_invoice env emisorId facturaData w)).
Proof.
  rewrite post_invoice_BEGIN. unfold try_catch.
  destruct (emitir env emisorId facturaData (tras_BEGIN w)) as [[resp|e] w1].
  - cbn. intros [= ->]. reflexivity.
  - cbn. discriminate.
Qed.

(** X8: what an answer 201 of the integrated route stands for. The
    transaction is committed; exactly one row was appended to [invoices],
    in state FIRMADO, of the caller, with the access key and the two
    paths of the answer; the point of emission it names belongs to the
    caller and its sequential advanced by exactly one, the other points
    are as before; issuers and profiles are untouched and no webhook
    was called. *)
Theorem post_invoice_201_registra env emisorId facturaData w clave r xml pdf :
  fst (post_invoice env emisorId facturaData w) = Ok (R201 clave r xml pdf) ->
  let w' := snd (post_invoice env emisorId facturaData w) in
  exists fila punto,
    invoices (db w') = invoices (db w) ++ [fila]
    /\ i_estado fila = "FIRMADO" /\ i_clave_acceso fila = clave
    /\ i_emisor_id fila = emisorId
    /\ i_xml_path fila = Some xml /\ i_pdf_path fila = Some pdf
    /\ puntos_emision (db w) !! i_punto_emision_id fila = Some punto
    /\ pe_emisor_id punto = emisorId
    /\ pe_secuencial_actual <$> puntos_emision (db w') !! i_punto_emision_id fila
       = Some (pe_secuencial_actual punto + 1)
    /\ (forall q, q <> i_punto_emision_id fila ->
          puntos_emision (db w') !! q = puntos_emision (db w) !! q)
    /\ tx w' = None
    /\ emisores (db w') = emisores (db w)
    /\ profiles (db w') = profiles (db w)
    /\ webhooks w' = webhooks w.
Proof.
  intros H w'. apply post_invoice_201_emitir in H. fold w' in H.
  apply emitir_201_mundo in H
    as (emisor & punto_id & punto & xmlc & pdfc & fila & He & Hp & Hem & _ & _
        & _ & _ & _ & _ & Hx & Hpd & _ & Hfe & Hfp & Hfs & Hfc & Hfx & Hfpd & _ & _
        & Hw).
  cbn [db tras_BEGIN] in *.
  exists fila, punto. rewrite Hfp, Hw. cbn.
  split; [reflexivity|]. split; [exact Hfs|]. split; [exact Hfc|].
  split; [exact Hfe|]. split; [exact Hfx|]. split; [exact Hfpd|].
  split; [exact Hp|]. split; [exact Hem|].
  split; [rewrite lookup_insert_eq; reflexivity|].
  split; [intros q Hq; apply lookup_insert_ne; congruence|].
  repeat split.
Qed.

Lemma post_invoice_201_registra_witness :
  let w := Escenarios.mundo_inicial 10 in
  let w' := snd (post_invoice Escenarios.entorno_ok 1 Escenarios.factura_s1 w) in
  exists fila punto,
    invoices (db w') = invoices (db w) ++ [fila]
    /\ i_estado fila = "FIRMADO"
    /\ i_clave_acceso fila = "2302202601179001167400110011000000000011011123416"
    /\ i_emisor_id fila = 1
    /\ i_xml_path fila
       = Some ("invoices/1790011674001/"
               +:+ "2302202601179001167400110011000000000011011123416.xml")
    /\ i_pdf_path fila
       = Some ("invoices/1790011674001/"
               +:+ "2302202601179001167400110011000000000011011123416.pdf")
    /\ puntos_emision (db w) !! i_punto_emision_id fila = Some punto
    /\ pe_emisor_id punto = 1
    /\ pe_secuencial_actual <$> puntos_emision (db w') !! i_punto_emision_id fila
       = Some (pe_secuencial_actual punto + 1)
    /\ (forall q, q <> i_punto_emision_id fila ->
          puntos_emision (db w') !! q = puntos_emision (db w) !! q)
    /\ tx w' = None
    /\ emisores (db w') = emisores (db w)
    /\ profiles (db w') = profiles (db w)
    /\ webhooks w' = webhooks w.
Proof.
  apply (post_invoice_201_registra Escenarios.entorno_ok 1 Escenarios.factura_s1
           (Escenarios.mundo_inicial 10)
           "2302202601179001167400110011000000000011011123416" 9).
  vm_compute. reflexivity.
Defined.

End EmisionIntegradaProps.

(* ===================================================================== *)
(** * From issuance to download *)
(* ===================================================================== *)

Module DescargaProps.

Import Sistema Integracion Publico.
Import CadenasProps PublicoProps EmisionIntegradaProps.
Local Open Scope mon_scope.

Lemma append_inv_head (a b c : string) : a +:+ b = a +:+ c -> b = c.
Proof.
  intros H. apply (f_equal AccessKey.lit) in H. rewrite !lit_app in H.
  apply app_inv_head in H.
  rewrite <- (string_of_lit b), <- (string_of_lit c), H. reflexivity.
Qed.

Lemma SELECT_por_clave_nueva clave (invs : list Invoice) fila :
  (forall inv, In inv invs -> i_clave_acceso inv <> clave) ->
  i_clave_acceso fila = clave ->
  List.filter (fun inv => bool_decide (i_clave_acceso inv = clave)) (invs ++ [fila])
  = [fila].
Proof.
  intros Hno Hf. rewrite List.filter_app. simpl.
  rewrite (bool_decide_eq_true_2 _ Hf).
  replace (List.filter _ invs) with (@nil Invoice); [reflexivity|].
  symmetry. induction invs as [|inv invs IH]; [reflexivity|]. simpl.
  rewrite bool_decide_eq_false_2 by (apply Hno; left; reflexivity).
  apply IH. intros inv' Hin. apply Hno. right. exact Hin.
Qed.

(** X9: an invoice issued through the integrated route can be downloaded
    at once. After an answer 201, and when no earlier row carries the
    same access key, GET /public/pdf and GET /public/xml with the key of
    the answer stream the PDF and the signed XML that the request
    produced. *)
Theorem descarga_tras_emitir env emisorId facturaData w clave r xml pdf :
  fst (post_invoice env emisorId facturaData w) = Ok (R201 clave r xml pdf) ->
  (forall inv, In inv (invoices (db w)) -> i_clave_acceso inv <> clave) ->
  let w' := snd (post_invoice env emisorId facturaData w) in
  exists xmlFirmado pdfStream,
    Integracion.xmlFirmado env = Ok xmlFirmado
    /\ Integracion.pdfStream env = Ok pdfStream
    /\ get_pdf clave w' = (Ok (R200 pdfStream), w')
    /\ get_xml clave w' = (Ok (R200 xmlFirmado), w').
Proof.
  intros H Hnueva w'. apply post_invoice_201_emitir in H. fold w' in H.
  apply emitir_201_mundo in H
    as (emisor & punto_id & punto & xmlc & pdfc & fila & _ & _ & _ & _ & _ & _
        & Hxml & Hpdf & (k & Hk & Hclave) & Hx & Hpd & _ & _ & _ & _ & Hfc
        & Hfx & Hfpd & _ & _ & Hw).
  cbn [db tras_BEGIN minio webhooks] in *.
  exists xmlc, pdfc. split; [exact Hxml|]. split; [exact Hpdf|].
  assert (Hval : clave_valida clave = true).
  { rewrite Hclave. eapply clave_valida_Clave. exact Hk. }
  assert (Hsel : SELECT_por_clave clave w' = (Ok [fila], w')).
  { unfold SELECT_por_clave, gets. rewrite Hw at 1. cbn [db invoices].
    rewrite (SELECT_por_clave_nueva _ _ _ Hnueva Hfc). reflexivity. }
  assert (Hne : (("invoices", e_ruc emisor +:+ "/" +:+ clave +:+ ".pdf")
                 : string * string)
                <> ("invoices", e_ruc emisor +:+ "/" +:+ clave +:+ ".xml")%string).
  { intros [= Hc]. do 3 apply append_inv_head in Hc. discriminate Hc. }
  split.
  - unfold get_pdf. rewrite Hval. cbn [negb]. unfold try_catch, bind at 1.
    rewrite Hsel, Hfpd, Hpd.
    change (separar_ruta _)
      with (separar_ruta
              ("invoices" +:+ "/" +:+ (e_ruc emisor +:+ "/" +:+ clave +:+ ".pdf"))).
    rewrite separar_ruta_compuesta by reflexivity.
    unfold bind, getObject. rewrite Hw at 1. cbn [minio].
    rewrite lookup_insert_eq. reflexivity.
  - unfold get_xml. rewrite Hval. cbn [negb]. unfold try_catch, bind at 1.
    rewrite Hsel, Hfx, Hx.
    change (separar_ruta _)
      with (separar_ruta
              ("invoices" +:+ "/" +:+ (e_ruc emisor +:+ "/" +:+ clave +:+ ".xml"))).
    rewrite separar_ruta_compuesta by reflexivity.
    unfold bind, getObject. rewrite Hw at 1. cbn [minio].
    rewrite lookup_insert_ne by exact Hne.
    rewrite lookup_insert_eq. reflexivity.
Qed.

Lemma descarga_tras_emitir_witness :
  let w' := snd (post_invoice Escenarios.entorno_ok 1 Escenarios.factura_s1
                   (Escenarios.mundo_inicial 10)) in
  exists xmlFirmado pdfStream,
    Integracion.xmlFirmado Escenarios.entorno_ok = Ok xmlFirmado
    /\ Integracion.pdfStream Escenarios.entorno_ok = Ok pdfStream
    /\ get_pdf "2302202601179001167400110011000000000011011123416" w'
       = (Ok (R200 pdfStream), w')
    /\ get_xml "2302202601179001167400110011000000000011011123416" w'
       = (Ok (R200 xmlFirmado), w').
Proof.
  apply (descarga_tras_emitir Escenarios.entorno_ok 1 Escenarios.factura_s1
           (Escenarios.mundo_inicial 10)
           "2302202601179001167400110011000000000011011123416" 9
           "invoices/1790011674001/2302202601179001167400110011000000000011011123416.xml"
           "invoices/1790011674001/2302202601179001167400110011000000000011011123416.pdf").
  - vm_compute. reflexivity.
  - intros inv [].
Defined.

End DescargaProps.

(* ===================================================================== *)
(** * POST /integrations/validate against POST /integrations/invoice *)
(* ===================================================================== *)

Module ValidacionProps.

Import Sistema Integracion Validacion EmisionIntegradaProps.
Local Open Scope mon_scope.

Lemma o_cadena_Some defecto c : c <> ""%string -> o_cadena defecto (Some c) = c.
Proof.
  intros Hc. unfold o_cadena, Calculadora.js_or, Calculadora.cadena_falsy.
  destruct (decide (c = ""%string)); [contradiction|reflexivity].
Qed.

Lemma falta_Some c : c <> ""%string -> falta (Some c) = false.
Proof.
  intros Hc. unfold falta, Calculadora.cadena_falsy.
  destruct (decide (c = ""%string)); [contradiction|reflexivity].
Qed.

Lemma post_validate_filas emisorId estab punto w :
  estab <> ""%string -> punto <> ""%string ->
  fst (post_validate emisorId (Some estab) (Some punto) w)
  = match fst (SELECT_punto estab punto emisorId w) with
    | Ok [] =>
        Ok (R404 "La combinación de establecimiento y punto de emisión no existe para este emisor.")
    | Ok ((id, p) :: _) => Ok (R200 id (pe_secuencial_actual p) (pe_direccion p))
    | Throw e => Ok (R500 e)
    end.
Proof.
  intros He Hp. unfold post_validate.
  rewrite (falta_Some _ He), (falta_Some _ Hp). cbn [orb default].
  unfold try_catch, bind, SELECT_punto, gets. cbn [fst].
  destruct (List.filter _ _) as [|[id p] resto]; reflexivity.
Qed.

(** X10: POST /integrations/validate tells in advance what POST
    /integrations/invoice does with the same codes. When the validation
    answers 404, an issuance for an issuer with credits answers 500 with
    the message of the missing point. When the validation answers 200
    with a point and its current sequential, an issuance that then
    succeeds is registered on that point and carries the next sequential,
    padded to nine digits. *)
Theorem validate_anticipa_invoice env emisorId facturaData estab punto w :
  estab <> ""%string -> punto <> ""%string ->
  fd_establecimiento facturaData = Some estab ->
  fd_punto_emision facturaData = Some punto ->
  (forall error,
     fst (post_validate emisorId (Some estab) (Some punto) w) = Ok (R404 error) ->
     ~ sin_creditos emisorId (db w) ->
     fst (post_invoice env emisorId facturaData w)
     = Ok (Integracion.R500 "Establecimiento o Punto de Emisión no válido."))
  /\ (forall id secuencial_actual direccion clave r xml pdf,
        fst (post_validate emisorId (Some estab) (Some punto) w)
        = Ok (R200 id secuencial_actual direccion) ->
        fst (post_invoice env emisorId facturaData w) = Ok (R201 clave r xml pdf) ->
        exists fila,
          last (invoices (db (snd (post_invoice env emisorId facturaData w))))
          = Some fila
          /\ i_punto_emision_id fila = id
          /\ i_secuencial fila
             = Some (string_of_list_ascii
                       (AccessKey.padStart 9
                          (AccessKey.number_toString
                             (Some (secuencial_actual + 1)))))).
Proof.
  intros He Hp Hfe Hfp. split.
  - intros error Hv Hcred. rewrite post_validate_filas in Hv by assumption.
    rewrite post_invoice_BEGIN. unfold try_catch, emitir. unfold bind at 1.
    unfold SELECT_emisor_balance, gets. cbn [db tras_BEGIN].
    destruct (emisores (db w) !! emisorId) as [emisor|] eqn:Hem;
      [|exfalso; apply Hcred; left; exact Hem].
    destruct (user_credits (db w) !! emisorId) as [balance|] eqn:Hc;
      [|exfalso; apply Hcred; right; left; exact Hc].
    destruct (balance <=? 0) eqn:Hb.
    { exfalso. apply Hcred. right. right. exists balance.
      split; [exact Hc|apply Z.leb_le; exact Hb]. }
    rewrite Hfe, Hfp, !o_cadena_Some by assumption.
    unfold bind at 1. revert Hv. unfold SELECT_punto, gets. cbn [fst db tras_BEGIN].
    destruct (List.filter _ _) as [|[id p] resto]; [reflexivity|discriminate].
  - intros id sec dir clave r xml pdf Hv H201.
    rewrite post_validate_filas in Hv by assumption.
    apply post_invoice_201_emitir in H201.
    apply emitir_201_mundo in H201
      as (emisor & punto_id & p & xmlc & pdfc & fila & _ & _ & _ & _ & _
          & (resto & Hsel) & _ & _ & _ & _ & _ & _ & _ & Hfp' & _ & _ & _ & _
          & Hfs & _ & Hw).
    rewrite Hfe, Hfp, !o_cadena_Some in Hsel by assumption.
    revert Hv Hsel. unfold SELECT_punto, gets. cbn [fst db tras_BEGIN].
    intros Hv [= Hsel]. rewrite Hsel in Hv. injection Hv as <- <- _.
    exists fila. rewrite Hw. cbn [db invoices]. rewrite last_snoc.
    repeat split; assumption.
Qed.

(** The request of scenario S1 with its codes spelled out. *)
Definition factura_con_codigos : FacturaData :=
  {| fd_establecimiento := Some "001"%string;
     fd_punto_emision := Some "100"%string;
     fd_items := fd_items Escenarios.factura_s1;
     fd_cliente_identificacion := fd_cliente_identificacion Escenarios.factura_s1;
     fd_cliente_nombre := fd_cliente_nombre Escenarios.factura_s1 |}.

Lemma validate_anticipa_invoice_witness :
  exists fila,
    last (invoices (db (snd (post_invoice Escenarios.entorno_ok 1
                               factura_con_codigos (Escenarios.mundo_inicial 10)))))
    = Some fila
    /\ i_punto_emision_id fila = 7
    /\ i_secuencial fila = Some "000000001"%string.
Proof.
  apply (proj2 (validate_anticipa_invoice Escenarios.entorno_ok 1
                  factura_con_codigos "001" "100" (Escenarios.mundo_inicial 10)
                  ltac:(discriminate) ltac:(discriminate) eq_refl eq_refl)
           7 0 None "2302202601179001167400110011000000000011011123416" 9
           "invoices/1790011674001/2302202601179001167400110011000000000011011123416.xml"
           "invoices/1790011674001/2302202601179001167400110011000000000011011123416.pdf").
  - vm_compute. reflexivity.
  - vm_compute. reflexivity.
Defined.

End ValidacionProps.

(* ===================================================================== *)
(** * Further properties of the settlement worker *)
(* ===================================================================== *)

Module LiquidacionProps.

Import Sistema SistemaProps Worker WorkerProps.
Local Open Scope mon_scope.

(** ** What no tick ever changes *)

(** The columns of an invoice that the worker has no statement for. *)
Definition misma_factura (inv inv' : Invoice) : Prop :=
  i_id inv' = i_id inv
  /\ i_emisor_id inv' = i_emisor_id inv
  /\ i_punto_emision_id inv' = i_punto_emision_id inv
  /\ i_secuencial inv' = i_secuencial inv
  /\ i_clave_acceso inv' = i_clave_acceso inv
  /\ i_importe_total inv' = i_importe_total inv
  /\ i_pdf_path inv' = i_pdf_path inv
  /\ i_created_at inv' = i_created_at inv.

Definition no_sube (b0 b : option Z) : Prop :=
  match b0, b with
  | Some x0, Some x => x <= x0
  | None, None => True
  | _, _ => False
  end.

Definition marco (w0 w : Mundo) : Prop :=
  emisores (db w) = emisores (db w0)
  /\ profiles (db w) = profiles (db w0)
  /\ puntos_emision (db w) = puntos_emision (db w0)
  /\ tx w = tx w0
  /\ Forall2 misma_factura (invoices (db w0)) (invoices (db w))
  /\ (forall e, no_sube (user_credits (db w0) !! e) (user_credits (db w) !! e))
  /\ exists nuevas, webhooks w = webhooks w0 ++ nuevas.

Lemma misma_factura_refl inv : misma_factura inv inv.
Proof. repeat split. Qed.

Lemma misma_factura_trans a b c :
  misma_factura a b -> misma_factura b c -> misma_factura a c.
Proof.
  unfold misma_factura. intros H1 H2.
  destruct H1 as (?&?&?&?&?&?&?&?), H2 as (?&?&?&?&?&?&?&?).
  repeat split; congruence.
Qed.

Lemma no_sube_refl b : no_sube b b.
Proof. destruct b; simpl; [lia|exact I]. Qed.

Lemma no_sube_trans a b c : no_sube a b -> no_sube b c -> no_sube a c.
Proof. destruct a, b, c; simpl; try tauto; lia. Qed.

Lemma Forall2_misma_refl l : Forall2 misma_factura l l.
Proof. induction l; constructor; [apply misma_factura_refl|assumption]. Qed.

Lemma Forall2_misma_trans l1 : forall l2 l3,
  Forall2 misma_factura l1 l2 -> Forall2 misma_factura l2 l3 ->
  Forall2 misma_factura l1 l3.
Proof.
  induction l1 as [|a l1 IH]; intros l2 l3 H12 H23.
  - inversion H12; subst. inversion H23; subst. constructor.
  - inversion H12 as [|? b ? l2' Hab H12']; subst.
    inversion H23 as [|? c ? l3' Hbc H23']; subst.
    constructor; [eapply misma_factura_trans; eassumption|].
    eapply IH; eassumption.
Qed.

Lemma marco_refl w : marco w w.
Proof.
  repeat split; [apply Forall2_misma_refl|intros e; apply no_sube_refl|].
  exists []. rewrite app_nil_r. reflexivity.
Qed.

Lemma marco_trans w0 w1 w2 : marco w0 w1 -> marco w1 w2 -> marco w0 w2.
Proof.
  intros (A1 & A2 & A3 & A4 & A5 & A6 & n1 & A7)
         (B1 & B2 & B3 & B4 & B5 & B6 & n2 & B7).
  repeat split; try congruence.
  - eapply Forall2_misma_trans; eassumption.
  - intros e. eapply no_sube_trans; [apply A6|apply B6].
  - exists (n1 ++ n2). rewrite B7, A7, app_assoc. reflexivity.
Qed.

Lemma marco_modify w0 (f : Mundo -> Mundo) :
  (forall w, marco w (f w)) -> preserva (marco w0) (modify f).
Proof.
  intros Hf. apply preserva_modify. intros w Hw.
  eapply marco_trans; [exact Hw|apply Hf].
Qed.

Lemma marco_UPDATE_invoices w0 id (set : Invoice -> Invoice) :
  (forall inv, misma_factura inv (set inv)) ->
  preserva (marco w0) (UPDATE_invoices id set).
Proof.
  intros Hset. apply marco_modify. intros w.
  repeat split; cbn; [|intros e; apply no_sube_refl
                      |exists []; rewrite app_nil_r; reflexivity].
  induction (invoices (db w)) as [|inv l IH]; cbn; constructor; [|exact IH].
  case_decide; [apply Hset|apply misma_factura_refl].
Qed.

Lemma marco_debito w0 emisor_id :
  preserva (marco w0) (UPDATE_user_credits_debito emisor_id).
Proof.
  apply marco_modify. intros w.
  repeat split; cbn; [apply Forall2_misma_refl| |exists []; rewrite app_nil_r; reflexivity].
  intros e. destruct (decide (e = emisor_id)) as [->|Hne].
  - rewrite lookup_alter_eq.
    destruct (user_credits (db w) !! emisor_id); simpl; [lia|exact I].
  - rewrite lookup_alter_ne by congruence. apply no_sube_refl.
Qed.

Lemma marco_uploadFile w0 ok bucket fileName contenido :
  preserva (marco w0) (uploadFile ok bucket fileName contenido).
Proof.
  unfold uploadFile, putObject. destruct ok.
  - apply preserva_bind; [|intros _; apply preserva_ret].
    apply marco_modify. intros w.
    repeat split; cbn; [apply Forall2_misma_refl|intros e; apply no_sube_refl|].
    exists []. rewrite app_nil_r. reflexivity.
  - apply preserva_bind; [apply preserva_throw|intros _; apply preserva_ret].
Qed.

Lemma marco_notificar w0 env factura estado detalle :
  preserva (marco w0) (notificar env factura estado detalle).
Proof.
  unfold notificar, notificarCambioEstado.
  destruct (webhookUrl env); [|apply preserva_ret].
  apply marco_modify. intros w.
  repeat split; cbn; [apply Forall2_misma_refl|intros e; apply no_sube_refl|].
  eexists. reflexivity.
Qed.

Lemma marco_tick t w : marco w (tick t w).
Proof.
  destruct t as [env|env]; cbn [tick].
  - change (enviarFacturasAlSRI env w)
      with (try_catch
              (for_of (filas_por_estado "FIRMADO" (db w)) (intentar_envio env))
              (fun _ => ret tt) w).
    apply preserva_try_catch; [|intros _; apply preserva_ret|apply marco_refl].
    apply preserva_for_of. intros factura _.
    apply preserva_try_catch; [|intros _; apply preserva_ret].
    unfold enviar_factura.
    destruct (sri_recepcion env factura) as [err|estado json respuesta];
      [apply preserva_throw|].
    destruct (decide (estado = "RECIBIDA"));
      (apply preserva_bind; [|intros _; apply marco_notificar]);
      apply marco_UPDATE_invoices; intros inv; repeat split.
  - change (autorizarFacturasSRI env w)
      with (try_catch
              (for_of (filas_por_estado "RECIBIDA" (db w))
                 (intentar_autorizacion env))
              (fun _ => ret tt) w).
    apply preserva_try_catch; [|intros _; apply preserva_ret|apply marco_refl].
    apply preserva_for_of. intros factura _.
    apply preserva_try_catch; [|intros _; apply preserva_ret].
    unfold autorizar_factura.
    destruct (sri_autorizacion env factura) as [err|n auts];
      [apply preserva_throw|].
    destruct (bool_decide (0 < default 0 n)); [|apply preserva_ret].
    destruct auts as [|autorizacion _]; [apply preserva_throw|].
    destruct (decide (a_estado autorizacion = "AUTORIZADO")).
    + apply preserva_bind; [apply marco_uploadFile|intros _].
      apply preserva_bind;
        [apply marco_UPDATE_invoices; intros inv; repeat split|intros _].
      apply preserva_bind; [apply marco_debito|intros _].
      apply marco_notificar.
    + apply preserva_bind; [|intros _; apply marco_notificar].
      apply marco_UPDATE_invoices. intros inv. repeat split.
Qed.

(** X11: what the worker never does. Over any sequence of ticks of the
    two jobs, with any answers of the authority: the issuers, the
    profiles and the points of emission with their sequentials are as
    before and no transaction is left open or closed; no invoice row is
    added, removed or moved, and no row changes its id, issuer, point,
    sequential, access key, amount, PDF path or creation time; no credit
    row appears or disappears and no balance goes up; the webhook calls
    made before are still the first ones of the record. *)
Theorem worker_marco (ticks : list Tick) (w : Mundo) :
  let w' := ejecutar ticks w in
  emisores (db w') = emisores (db w)
  /\ profiles (db w') = profiles (db w)
  /\ puntos_emision (db w') = puntos_emision (db w)
  /\ tx w' = tx w
  /\ Forall2 misma_factura (invoices (db w)) (invoices (db w'))
  /\ (forall e, no_sube (user_credits (db w) !! e) (user_credits (db w') !! e))
  /\ exists nuevas, webhooks w' = webhooks w ++ nuevas.
Proof.
  cbv zeta. change (marco w (ejecutar ticks w)).
  unfold ejecutar. revert w.
  induction ticks as [|t ticks IH]; intros w; cbn [fold_left].
  - apply marco_refl.
  - eapply marco_trans; [apply marco_tick|apply IH].
Qed.

(** ** The batch of a tick *)

#[local] Instance antes_transitiva : Transitive antes.
Proof. intros a b c. unfold antes. lia. Qed.

#[local] Instance antes_total : Total antes.
Proof. intros a b. unfold antes. lia. Qed.

(** The rows of the join in the given state, before ORDER BY and LIMIT. *)
Definition candidatas (estado : string) (d : DB) : list Fila :=
  flat_map (filas_de d)
    (List.filter (fun inv => bool_decide (i_estado inv = estado)) (invoices d)).

(** X12: the batch of a tick is made of the oldest rows. Each of the two
    SELECTs returns at most 15 rows of the join in the requested state,
    in ascending order of [created_at]; it returns all of them when they
    are no more than 15, and otherwise no row left out is older than a
    row of the batch. *)
Theorem lote_mas_antiguo (estado : string) (d : DB) :
  let rows := filas_por_estado estado d in
  (length rows <= 15)%nat
  /\ StronglySorted antes rows
  /\ (forall f, In f rows -> In f (candidatas estado d))
  /\ ((length (candidatas estado d) <= 15)%nat ->
      Permutation rows (candidatas estado d))
  /\ (forall f g, In f rows -> In g (candidatas estado d) -> ~ In g rows ->
        f_created_at f <= f_created_at g).
Proof.
  cbv zeta. unfold filas_por_estado. fold (candidatas estado d).
  set (todas := candidatas estado d).
  pose proof (StronglySorted_merge_sort antes todas) as Hs.
  pose proof (merge_sort_Permutation antes todas) as Hp.
  set (l := merge_sort antes todas) in *.
  rewrite <- (take_drop 15 l) in Hs.
  split; [rewrite length_take; lia|].
  split; [eapply StronglySorted_app_1_l; exact Hs|].
  split.
  { intros f Hf. apply list_elem_of_In. rewrite <- Hp.
    apply list_elem_of_In in Hf. eapply subseteq_take. exact Hf. }
  split.
  { intros Hlen. rewrite take_ge; [exact Hp|].
    rewrite (Permutation_length Hp). exact Hlen. }
  intros f g Hf Hg Hno.
  apply (StronglySorted_app_1_elem_of antes _ _ f g Hs).
  - apply list_elem_of_In. exact Hf.
  - apply list_elem_of_In in Hg. rewrite <- Hp, <- (take_drop 15 l) in Hg.
    apply elem_of_app in Hg as [Hg|Hg]; [|exact Hg].
    exfalso. apply Hno. apply list_elem_of_In. exact Hg.
Qed.

Lemma lote_mas_antiguo_witness :
  Permutation (filas_por_estado "FIRMADO" (db (Escenarios.tras_dos_emisiones 1)))
    (candidatas "FIRMADO" (db (Escenarios.tras_dos_emisiones 1))).
Proof.
  apply (lote_mas_antiguo "FIRMADO" (db (Escenarios.tras_dos_emisiones 1))).
  vm_compute. lia.
Defined.

(** ** What a tick does to the rows of its batch *)

(** A loop over rows with distinct ids whose body never throws, touches
    no row but its own and turns its own row [inv] into [efecto g inv]. *)
Lemma for_of_propia (cuerpo : Fila -> M Mundo unit)
    (efecto : Fila -> Invoice -> Invoice) :
  (forall g w, fst (cuerpo g w) = Ok tt) ->
  (forall g w0 ids, In (f_id g) ids -> preserva (intactas w0 ids) (cuerpo g)) ->
  (forall g w k inv,
     invoices (db w) !! k = Some inv -> i_id inv = f_id g ->
     invoices (db (snd (cuerpo g w))) !! k = Some (efecto g inv)) ->
  (forall g inv, i_id (efecto g inv) = i_id inv) ->
  forall rows w k inv f,
    NoDup (map f_id rows) -> In f rows ->
    invoices (db w) !! k = Some inv -> i_id inv = f_id f ->
    invoices (db (snd (for_of rows cuerpo w))) !! k = Some (efecto f inv).
Proof.
  intros Hok Hint Hef Hid.
  induction rows as [|g rest IH]; intros w k inv f Hnd Hin Hk Hf; [destruct Hin|].
  cbn [for_of]. unfold bind. pose proof (Hok g w) as Hg.
  destruct (cuerpo g w) as [[[]|e] w1] eqn:E; [|discriminate]. clear Hg.
  cbn [map] in Hnd. apply NoDup_cons in Hnd as [Hno Hnd].
  assert (Hw1 : w1 = snd (cuerpo g w)) by (rewrite E; reflexivity).
  destruct (decide (f_id g = f_id f)) as [Heq|Hne].
  - assert (Hk1 : invoices (db w1) !! k = Some (efecto f inv)).
    { destruct Hin as [->|Hin].
      - rewrite Hw1. apply Hef; assumption.
      - exfalso. apply Hno. rewrite Heq. apply list_elem_of_In, List.in_map, Hin. }
    assert (Hrest : intactas w1 (map f_id rest) (snd (for_of rest cuerpo w1))).
    { apply preserva_for_of; [|apply intactas_refl].
      intros x Hx. apply Hint, List.in_map, Hx. }
    apply (proj2 Hrest k _ Hk1). rewrite Hid, Hf, <- Heq.
    intros Hc. apply Hno. apply list_elem_of_In. exact Hc.
  - destruct Hin as [->|Hin]; [contradiction|].
    apply IH; [exact Hnd|exact Hin| |exact Hf].
    rewrite Hw1.
    apply (proj2 (Hint g w [f_id g] ltac:(left; reflexivity) w (intactas_refl _ _))
             k inv Hk).
    rewrite Hf. intros [Hc|[]]. apply Hne. exact Hc.
Qed.

(** The row that one answer of the reception service leaves. *)
Definition tras_recepcion (env : Entorno) (factura : Fila) (inv : Invoice)
  : Invoice :=
  match sri_recepcion env factura with
  | ErrorRecepcion _ => inv
  | Recepcion estado json _ =>
      if decide (estado = "RECIBIDA") then set_recibida (NOW env) inv
      else set_devuelta json (NOW env) inv
  end.

(** The row that one answer of the authorization service leaves. *)
Definition tras_autorizacion (env : Entorno) (factura : Fila) (inv : Invoice)
  : Invoice :=
  match sri_autorizacion env factura with
  | ErrorAutorizacion _ => inv
  | Autorizaciones numeroComprobantes autorizaciones =>
      if bool_decide (0 < default 0 numeroComprobantes) then
        match autorizaciones with
        | [] => inv
        | autorizacion :: _ =>
            if decide (a_estado autorizacion = "AUTORIZADO") then
              if subida_ok env factura then
                set_autorizado
                  ("invoices/" +:+ ("authorized/" +:+ f_ruc factura +:+ "/"
                                    +:+ f_clave_acceso factura +:+ ".xml"))
                  (a_fechaAutorizacion autorizacion) inv
              else inv
            else
              set_estado_final
                (if decide (a_estado autorizacion = "NO AUTORIZADO")
                 then "RECHAZADO" else a_estado autorizacion)
                (a_mensajes autorizacion) inv
        end
      else inv
  end.

Lemma UPDATE_invoices_fila id set w k inv :
  invoices (db w) !! k = Some inv -> i_id inv = id ->
  invoices (db (snd (UPDATE_invoices id set w))) !! k = Some (set inv).
Proof.
  intros Hk Hid. cbn. rewrite list_lookup_fmap, Hk. cbn.
  rewrite decide_True by exact Hid. reflexivity.
Qed.

Lemma notificar_mundo env factura estado detalle w :
  fst (notificar env factura estado detalle w) = Ok tt
  /\ db (snd (notificar env factura estado detalle w)) = db w.
Proof.
  unfold notificar, notificarCambioEstado.
  destruct (webhookUrl env); split; reflexivity.
Qed.

Lemma intentar_envio_Ok env g w : fst (intentar_envio env g w) = Ok tt.
Proof.
  unfold intentar_envio, try_catch, enviar_factura.
  destruct (sri_recepcion env g) as [err|estado json respuesta]; [reflexivity|].
  destruct (decide (estado = "RECIBIDA"));
    unfold bind, notificar, notificarCambioEstado;
    destruct (webhookUrl env); reflexivity.
Qed.

Lemma intentar_envio_fila env g w k inv :
  invoices (db w) !! k = Some inv -> i_id inv = f_id g ->
  invoices (db (snd (intentar_envio env g w))) !! k
  = Some (tras_recepcion env g inv).
Proof.
  intros Hk Hid. unfold intentar_envio, try_catch, enviar_factura, tras_recepcion.
  destruct (sri_recepcion env g) as [err|estado json respuesta]; [exact Hk|].
  destruct (decide (estado = "RECIBIDA")); unfold bind;
    unfold notificar, notificarCambioEstado; destruct (webhookUrl env); cbn;
    rewrite list_lookup_fmap, Hk; cbn; rewrite decide_True by exact Hid;
    reflexivity.
Qed.

Lemma tras_recepcion_id env g inv : i_id (tras_recepcion env g inv) = i_id inv.
Proof.
  unfold tras_recepcion. destruct (sri_recepcion env g); [reflexivity|].
  destruct (decide _); reflexivity.
Qed.

(** X13: what a tick of the submit job does to its batch. With distinct
    invoice ids and at most one profile per issuer, every row of the
    batch ends the tick as its own answer of the reception service
    dictates: RECIBIDA with the time of sending when the answer is
    RECIBIDA, DEVUELTA with the time of sending and the answer as
    messages on any other answer, and unchanged when the download, the
    call or the parsing failed; a failure on one row does not keep the
    job from the rows after it. *)
Theorem envio_efecto env w k inv factura :
  NoDup (map i_id (invoices (db w))) ->
  NoDup (omap p_emisor_id (profiles (db w))) ->
  invoices (db w) !! k = Some inv ->
  In factura (filas_por_estado "FIRMADO" (db w)) ->
  f_id factura = i_id inv ->
  invoices (db (tick (TickEnvio env) w)) !! k
  = Some (tras_recepcion env factura inv).
Proof.
  intros Hnd Hprof Hk Hin Hid. cbn [tick].
  change (enviarFacturasAlSRI env w)
    with (try_catch
            (for_of (filas_por_estado "FIRMADO" (db w)) (intentar_envio env))
            (fun _ => ret tt) w).
  pose proof (for_of_propia (intentar_envio env) (tras_recepcion env)
                (intentar_envio_Ok env)
                (fun g w0 ids H => intentar_envio_intactas w0 ids env g H)
                (intentar_envio_fila env) (tras_recepcion_id env)
                (filas_por_estado "FIRMADO" (db w)) w k inv factura
                (NoDup_filas_por_estado _ _ Hprof Hnd) Hin Hk (eq_sym Hid)) as H.
  unfold try_catch.
  destruct (for_of _ _ w) as [[[]|e] w1]; cbn in *; exact H.
Qed.

Lemma envio_efecto_witness :
  let w := Escenarios.tras_dos_emisiones 1 in
  exists inv factura,
    invoices (db (tick (TickEnvio Escenarios.sri_autoriza) w)) !! 0%nat
    = Some (tras_recepcion Escenarios.sri_autoriza factura inv)
    /\ i_estado (tras_recepcion Escenarios.sri_autoriza factura inv) = "RECIBIDA".
Proof.
  cbv zeta. eexists. eexists. split.
  - apply (envio_efecto Escenarios.sri_autoriza (Escenarios.tras_dos_emisiones 1)
             0%nat).
    + apply (bool_decide_unpack _). vm_compute. exact I.
    + apply (bool_decide_unpack _). vm_compute. exact I.
    + vm_compute. reflexivity.
    + vm_compute. left. reflexivity.
    + reflexivity.
  - reflexivity.
Defined.

Lemma intentar_autorizacion_Ok env g w :
  fst (intentar_autorizacion env g w) = Ok tt.
Proof.
  unfold intentar_autorizacion, try_catch, autorizar_factura.
  destruct (sri_autorizacion env g) as [err|n auts]; [reflexivity|].
  destruct (bool_decide (0 < default 0 n)); [|reflexivity].
  destruct auts as [|a resto]; [reflexivity|].
  destruct (decide (a_estado a = "AUTORIZADO")).
  - unfold bind, uploadFile, putObject, notificar, notificarCambioEstado.
    destruct (subida_ok env g); [|reflexivity].
    destruct (webhookUrl env); reflexivity.
  - unfold bind, notificar, notificarCambioEstado.
    destruct (webhookUrl env); reflexivity.
Qed.

Lemma intentar_autorizacion_fila env g w k inv :
  invoices (db w) !! k = Some inv -> i_id inv = f_id g ->
  invoices (db (snd (intentar_autorizacion env g w))) !! k
  = Some (tras_autorizacion env g inv).
Proof.
  intros Hk Hid.
  unfold intentar_autorizacion, try_catch, autorizar_factura, tras_autorizacion.
  destruct (sri_autorizacion env g) as [err|n auts]; [exact Hk|].
  destruct (bool_decide (0 < default 0 n)); [|exact Hk].
  destruct auts as [|a resto]; [exact Hk|].
  destruct (decide (a_estado a = "AUTORIZADO")).
  - unfold bind, uploadFile, putObject, notificar, notificarCambioEstado.
    destruct (subida_ok env g); [|exact Hk].
    destruct (webhookUrl env); cbn; rewrite list_lookup_fmap, Hk; cbn;
      rewrite decide_True by exact Hid; reflexivity.
  - unfold bind, notificar, notificarCambioEstado.
    destruct (webhookUrl env); cbn; rewrite list_lookup_fmap, Hk; cbn;
      rewrite decide_True by exact Hid; reflexivity.
Qed.

Lemma tras_autorizacion_id env g inv : i_id (tras_autorizacion env g inv) = i_id inv.
Proof.
  unfold tras_autorizacion. destruct (sri_autorizacion env g); [reflexivity|].
  repeat case_match; reflexivity.
Qed.

(** X14: what a tick of the authorize job does to its batch. With
    distinct invoice ids and at most one profile per issuer, every row of
    the batch ends the tick as its own answer dictates: AUTORIZADO with
    the path of the authorized XML and the date of the authority when
    the first authorization says AUTORIZADO and the upload worked;
    RECHAZADO for NO AUTORIZADO, or the state that the authority names,
    with its messages; and unchanged, to be asked again, when the call
    failed, no voucher came back, or the upload failed. *)
Theorem autorizacion_efecto env w k inv factura :
  NoDup (map i_id (invoices (db w))) ->
  NoDup (omap p_emisor_id (profiles (db w))) ->
  invoices (db w) !! k = Some inv ->
  In factura (filas_por_estado "RECIBIDA" (db w)) ->
  f_id factura = i_id inv ->
  invoices (db (tick (TickAutorizacion env) w)) !! k
  = Some (tras_autorizacion env factura inv).
Proof.
  intros Hnd Hprof Hk Hin Hid. cbn [tick].
  change (autorizarFacturasSRI env w)
    with (try_catch
            (for_of (filas_por_estado "RECIBIDA" (db w))
               (intentar_autorizacion env))
            (fun _ => ret tt) w).
  pose proof (for_of_propia (intentar_autorizacion env) (tras_autorizacion env)
                (intentar_autorizacion_Ok env)
                (fun g w0 ids H => intentar_autorizacion_intactas w0 ids env g H)
                (intentar_autorizacion_fila env) (tras_autorizacion_id env)
                (filas_por_estado "RECIBIDA" (db w)) w k inv factura
                (NoDup_filas_por_estado _ _ Hprof Hnd) Hin Hk (eq_sym Hid)) as H.
  unfold try_catch.
  destruct (for_of _ _ w) as [[[]|e] w1]; cbn in *; exact H.
Qed.

Lemma autorizacion_efecto_witness :
  let w := tick (TickEnvio Escenarios.sri_autoriza)
             (Escenarios.tras_dos_emisiones 1) in
  exists inv factura,
    invoices (db (tick (TickAutorizacion Escenarios.sri_autoriza) w)) !! 0%nat
    = Some (tras_autorizacion Escenarios.sri_autoriza factura inv)
    /\ i_estado (tras_autorizacion Escenarios.sri_autoriza factura inv)
       = "AUTORIZADO".
Proof.
  cbv zeta. eexists. eexists. split.
  - apply (autorizacion_efecto Escenarios.sri_autoriza
             (tick (TickEnvio Escenarios.sri_autoriza)
                (Escenarios.tras_dos_emisiones 1)) 0%nat).
    + apply (bool_decide_unpack _). vm_compute. exact I.
    + apply (bool_decide_unpack _). vm_compute. exact I.
    + vm_compute. reflexivity.
    + vm_compute. left. reflexivity.
    + reflexivity.
  - reflexivity.
Defined.

(** ** Credits *)

(** The rows that a tick of the authorize job turns AUTORIZADO. *)
Definition autorizada (env : Entorno) (factura : Fila) : bool :=
  match sri_autorizacion env factura with
  | Autorizaciones numeroComprobantes (autorizacion :: _) =>
      bool_decide (0 < default 0 numeroComprobantes)
      && bool_decide (a_estado autorizacion = "AUTORIZADO")
      && subida_ok env factura
  | _ => false
  end.

Definition debitar (env : Entorno) (c : gmap Z Z) (factura : Fila) : gmap Z Z :=
  if autorizada env factura
  then alter (fun balance => balance - 1) (f_emisor_db_id factura) c
  else c.

Lemma intentar_autorizacion_creditos env g w :
  user_credits (db (snd (intentar_autorizacion env g w)))
  = debitar env (user_credits (db w)) g.
Proof.
  unfold intentar_autorizacion, try_catch, autorizar_factura, debitar, autorizada.
  destruct (sri_autorizacion env g) as [err|n auts]; [reflexivity|].
  destruct auts as [|a resto].
  { destruct (bool_decide (0 < default 0 n)); reflexivity. }
  destruct (bool_decide (0 < default 0 n)); [|reflexivity]. cbn [andb].
  destruct (decide (a_estado a = "AUTORIZADO")) as [Ha|Ha].
  - rewrite (bool_decide_eq_true_2 _ Ha). cbn [andb].
    unfold bind, uploadFile, putObject, notificar, notificarCambioEstado.
    destruct (subida_ok env g); [|reflexivity].
    destruct (webhookUrl env); reflexivity.
  - rewrite (bool_decide_eq_false_2 _ Ha). cbn [andb].
    unfold bind, notificar, notificarCambioEstado.
    destruct (webhookUrl env); reflexivity.
Qed.

Lemma for_of_creditos env rows : forall w,
  user_credits (db (snd (for_of rows (intentar_autorizacion env) w)))
  = fold_left (debitar env) rows (user_credits (db w)).
Proof.
  induction rows as [|g rest IH]; intros w; [reflexivity|].
  cbn [for_of fold_left]. unfold bind.
  pose proof (intentar_autorizacion_Ok env g w) as Hok.
  pose proof (intentar_autorizacion_creditos env g w) as Hc.
  destruct (intentar_autorizacion env g w) as [[[]|e] w1]; [|discriminate].
  cbn [snd] in Hc. rewrite IH, Hc. reflexivity.
Qed.

Definition cuenta (env : Entorno) (e : Z) (rows : list Fila) : Z :=
  Z.of_nat (length (List.filter
                      (fun g => autorizada env g
                                && bool_decide (f_emisor_db_id g = e)) rows)).

Lemma fold_debitar env e rows : forall c : gmap Z Z,
  fold_left (debitar env) rows c !! e
  = (fun balance => balance - cuenta env e rows) <$> c !! e.
Proof.
  unfold cuenta.
  induction rows as [|g rest IH]; intros c; cbn [fold_left List.filter].
  - destruct (c !! e); cbn; [f_equal; lia|reflexivity].
  - rewrite IH. unfold debitar. destruct (autorizada env g); cbn [andb].
    + destruct (decide (f_emisor_db_id g = e)) as [Heq|Hne].
      * rewrite (bool_decide_eq_true_2 _ Heq), Heq, lookup_alter_eq.
        destruct (c !! e); cbn [fmap option_fmap option_map length];
          [f_equal; lia|reflexivity].
      * rewrite (bool_decide_eq_false_2 _ Hne), lookup_alter_ne by exact Hne.
        reflexivity.
    + reflexivity.
Qed.

(** X15: one credit per authorized invoice. A tick of the submit job
    leaves every balance as it is. A tick of the authorize job takes
    from the balance of each issuer exactly one credit for every row of
    the batch of that issuer that it turns AUTORIZADO (first
    authorization AUTORIZADO and the authorized XML stored), whatever
    the balance is; rows that are rejected, not yet processed or whose
    call failed cost nothing. *)
Theorem debito_por_autorizada env w :
  user_credits (db (tick (TickEnvio env) w)) = user_credits (db w)
  /\ forall e,
       user_credits (db (tick (TickAutorizacion env) w)) !! e
       = (fun balance =>
            balance - cuenta env e (filas_por_estado "RECIBIDA" (db w)))
         <$> user_credits (db w) !! e.
Proof.
  split.
  - cbn [tick].
    change (enviarFacturasAlSRI env w)
      with (try_catch
              (for_of (filas_por_estado "FIRMADO" (db w)) (intentar_envio env))
              (fun _ => ret tt) w).
    apply (preserva_try_catch
             (fun w1 => user_credits (db w1) = user_credits (db w)));
      [|intros _; apply preserva_ret|reflexivity].
    apply preserva_for_of. intros g _ w1 H1. rewrite <- H1.
    unfold intentar_envio, try_catch, enviar_factura.
    destruct (sri_recepcion env g) as [err|estado json respuesta]; [reflexivity|].
    destruct (decide (estado = "RECIBIDA"));
      unfold bind, notificar, notificarCambioEstado;
      destruct (webhookUrl env); reflexivity.
  - intros e. cbn [tick].
    change (autorizarFacturasSRI env w)
      with (try_catch
              (for_of (filas_por_estado "RECIBIDA" (db w))
                 (intentar_autorizacion env))
              (fun _ => ret tt) w).
    pose proof (for_of_creditos env (filas_por_estado "RECIBIDA" (db w)) w) as H.
    unfold try_catch.
    destruct (for_of _ _ w) as [[[]|err] w1]; cbn in *; rewrite H;
      apply fold_debitar.
Qed.

(** ** Webhook calls *)

(** Whose invoice changed to which state. *)
Definition resumen (n : Notificacion) : string * Z * string * string :=
  (n_user_id n, n_invoice_id n, n_clave_acceso n, n_estado n).

Definition aviso_envio (env : Entorno) (g : Fila)
  : option (string * Z * string * string) :=
  match sri_recepcion env g with
  | ErrorRecepcion _ => None
  | Recepcion estado _ _ =>
      Some (f_user_uid g, f_id g, f_clave_acceso g,
            if decide (estado = "RECIBIDA") then "RECIBIDA" else "DEVUELTA")
  end.

Definition aviso_autorizacion (env : Entorno) (g : Fila)
  : option (string * Z * string * string) :=
  match sri_autorizacion env g with
  | Autorizaciones numeroComprobantes (autorizacion :: _) =>
      if bool_decide (0 < default 0 numeroComprobantes) then
        if decide (a_estado autorizacion = "AUTORIZADO") then
          if subida_ok env g
          then Some (f_user_uid g, f_id g, f_clave_acceso g, "AUTORIZADO")
          else None
        else
          Some (f_user_uid g, f_id g, f_clave_acceso g,
                if decide (a_estado autorizacion = "NO AUTORIZADO")
                then "RECHAZADO" else a_estado autorizacion)
      else None
  | _ => None
  end.

Definition si_hay_url (env : Entorno) {A} (l : list A) : list A :=
  if webhookUrl env then l else [].

Lemma intentar_envio_avisos env g w :
  map resumen (webhooks (snd (intentar_envio env g w)))
  = map resumen (webhooks w) ++ si_hay_url env (option_list (aviso_envio env g)).
Proof.
  unfold intentar_envio, try_catch, enviar_factura, aviso_envio, si_hay_url.
  destruct (sri_recepcion env g) as [err|estado json respuesta].
  { cbn. destruct (webhookUrl env); rewrite app_nil_r; reflexivity. }
  destruct (decide (estado = "RECIBIDA"));
    unfold bind, notificar, notificarCambioEstado;
    destruct (webhookUrl env); cbn; rewrite ?map_app, ?app_nil_r; reflexivity.
Qed.

Lemma intentar_autorizacion_avisos env g w :
  map resumen (webhooks (snd (intentar_autorizacion env g w)))
  = map resumen (webhooks w)
    ++ si_hay_url env (option_list (aviso_autorizacion env g)).
Proof.
  unfold intentar_autorizacion, try_catch, autorizar_factura, aviso_autorizacion,
    si_hay_url.
  destruct (sri_autorizacion env g) as [err|n auts].
  { cbn. destruct (webhookUrl env); rewrite app_nil_r; reflexivity. }
  destruct auts as [|a resto].
  { destruct (bool_decide (0 < default 0 n)); cbn;
      destruct (webhookUrl env); rewrite app_nil_r; reflexivity. }
  destruct (bool_decide (0 < default 0 n)).
  2:{ cbn. destruct (webhookUrl env); rewrite app_nil_r; reflexivity. }
  destruct (decide (a_estado a = "AUTORIZADO")).
  - unfold bind, uploadFile, putObject, notificar, notificarCambioEstado.
    destruct (subida_ok env g);
      destruct (webhookUrl env); cbn; rewrite ?map_app, ?app_nil_r; reflexivity.
  - unfold bind, notificar, notificarCambioEstado.
    destruct (webhookUrl env); cbn; rewrite ?map_app, ?app_nil_r; reflexivity.
Qed.

Lemma for_of_avisos (cuerpo : Fila -> M Mundo unit)
    (aviso : Fila -> list (string * Z * string * string)) :
  (forall g w, fst (cuerpo g w) = Ok tt) ->
  (forall g w, map resumen (webhooks (snd (cuerpo g w)))
               = map resumen (webhooks w) ++ aviso g) ->
  forall rows w,
    map resumen (webhooks (snd (for_of rows cuerpo w)))
    = map resumen (webhooks w) ++ flat_map aviso rows.
Proof.
  intros Hok Hav. induction rows as [|g rest IH]; intros w.
  - cbn. rewrite app_nil_r. reflexivity.
  - cbn [for_of flat_map]. unfold bind.
    pose proof (Hok g w) as Hg. pose proof (Hav g w) as Ha.
    destruct (cuerpo g w) as [[[]|e] w1]; [|discriminate].
    cbn [snd] in Ha. rewrite IH, Ha, app_assoc. reflexivity.
Qed.

(** X16: the webhook is called once for every row whose state a tick
    changed, and for no other. When WEB_HOOK_NOTIFICACIONES is set, a
    tick appends to the calls made so far, in the order of its batch,
    one call for each row that it moved, naming the profile, the
    invoice, its access key and the state just written; rows whose call
    to the authority failed, that had no voucher yet or whose upload
    failed are not announced. When the variable is not set no call is
    made. *)
Theorem avisos_de_un_tick env w :
  map resumen (webhooks (tick (TickEnvio env) w))
  = map resumen (webhooks w)
    ++ si_hay_url env
         (omap (aviso_envio env) (filas_por_estado "FIRMADO" (db w)))
  /\ map resumen (webhooks (tick (TickAutorizacion env) w))
     = map resumen (webhooks w)
       ++ si_hay_url env
            (omap (aviso_autorizacion env) (filas_por_estado "RECIBIDA" (db w))).
Proof.
  assert (Hflat : forall (aviso : Fila -> option (string * Z * string * string))
                    rows,
            flat_map (fun g => si_hay_url env (option_list (aviso g))) rows
            = si_hay_url env (omap aviso rows)).
  { intros aviso rows. unfold si_hay_url. destruct (webhookUrl env).
    - induction rows as [|g rest IH]; [reflexivity|]. cbn.
      rewrite IH. destruct (aviso g); reflexivity.
    - induction rows as [|g rest IH]; [reflexivity|]. cbn. exact IH. }
  split; cbn [tick].
  - change (enviarFacturasAlSRI env w)
      with (try_catch
              (for_of (filas_por_estado "FIRMADO" (db w)) (intentar_envio env))
              (fun _ => ret tt) w).
    pose proof (for_of_avisos (intentar_envio env) _ (intentar_envio_Ok env)
                  (intentar_envio_avisos env)
                  (filas_por_estado "FIRMADO" (db w)) w) as H.
    rewrite Hflat in H. unfold try_catch.
    destruct (for_of _ _ w) as [[[]|err] w1]; cbn in *; exact H.
  - change (autorizarFacturasSRI env w)
      with (try_catch
              (for_of (filas_por_estado "RECIBIDA" (db w))
                 (intentar_autorizacion env))
              (fun _ => ret tt) w).
    pose proof (for_of_avisos (intentar_autorizacion env) _
                  (intentar_autorizacion_Ok env)
                  (intentar_autorizacion_avisos env)
                  (filas_por_estado "RECIBIDA" (db w)) w) as H.
    rewrite Hflat in H. unfold try_catch.
    destruct (for_of _ _ w) as [[[]|err] w1]; cbn in *; exact H.
Qed.

End LiquidacionProps.

(* ===================================================================== *)
(** * Further properties of the signing job *)
(* ===================================================================== *)

Module FirmaExtraProps.

Import Sistema SistemaProps Firma FirmaProps.
Local Open Scope mon_scope.

(** ** The cleanup when some deletes fail *)






(** ** No run succeeds *)

(** X18: the signing job never signs. The document it builds is the
    element [factura] without content, printed as an empty-element tag:
    the signer finds no closing tag to put the signature in front of and
    returns the document as it is, and [generarPDFStream] throws on it,
    reading [claveAcceso] of the missing [infoTributaria]. So every run
    throws, whatever the P12, the store and the database do; nothing is
    uploaded, [archivosSubidos] stays empty, the transaction is rolled
    back and, on a fresh connection, the invoice stays PENDIENTE with the
    database as before, the sequential included. When the P12 is
    downloaded, the point exists, the key is generated and the signature
    computed, the error is the TypeError of the RIDE. *)
Theorem firmarYEnviarLote_no_firma (env : Entorno) (facturaId : Z)
    (inputCliente : InputCliente) (emisor : Emisor) (punto_id : Z)
    (punto : PuntoEmision) (w : Mundo) :
  exists err w',
    firmarYEnviarLote env facturaId inputCliente emisor punto_id punto (w, [])
    = (Throw err, (w', []))
    /\ minio w' = minio w
    /\ webhooks w' = webhooks w
    /\ tx w' = None
    /\ (tx w = None -> db w' = db w)
    /\ (forall path buf p0 k bloque,
          e_p12_path emisor = Some path -> p12Buffer env = Ok buf ->
          puntos_emision (db w) !! punto_id = Some p0 ->
          AccessKey.generarClaveAcceso (luxon env)
            (Some (ahora_yyyy_MM_dd env))
            (AccessKey.lit "01") (AccessKey.lit (e_ruc emisor))
            (AccessKey.lit (e_ambiente emisor))
            (AccessKey.lit (pe_estab_codigo punto +:+ pe_codigo punto))
            (AccessKey.padStart 9
               (AccessKey.number_toString
                  (Some (pe_secuencial_actual p0 + 1))))
            (Some (ahora_HHmmss env ++ aleatorio env))
          = AccessKey.Clave k ->
          signatureBlock env = Ok bloque ->
          err = "Cannot read properties of undefined (reading 'claveAcceso')"%string).
Proof.
  unfold firmarYEnviarLote, try_catch.
  unfold bind at 1. unfold preparar, bind at 1.
  assert (Hcatch : forall e (w1 : Mundo),
            minio w1 = minio w -> webhooks w1 = webhooks w ->
            (tx w = None -> default (db w1) (tx w1) = db w) ->
            exists err w',
              (en_mundo ROLLBACK ;; limpiar_archivos env ;;
               (throw e : M Local unit)) (w1, [])
              = (Throw err, (w', []))
              /\ minio w' = minio w /\ webhooks w' = webhooks w
              /\ tx w' = None /\ (tx w = None -> db w' = db w) /\ err = e).
  { intros e w1 Hm Hwh Hdb. exists e.
    exists {| db := default (db w1) (tx w1); tx := None; minio := minio w1;
              webhooks := webhooks w1 |}.
    cbn. repeat split; auto. }
  destruct (e_p12_path emisor) as [path|].
  2:{ unfold throw at 1.
      destruct (Hcatch "Cannot read properties of null (reading 'split')"%string
                  w eq_refl eq_refl) as (err & w' & E & H1 & H2 & H3 & H4 & _).
      { intros ->. reflexivity. }
      exists err, w'. repeat split; auto. discriminate. }
  unfold await at 1. destruct (p12Buffer env) as [buf|e0].
  2:{ destruct (Hcatch e0 w eq_refl eq_refl)
        as (err & w' & E & H1 & H2 & H3 & H4 & _).
      { intros ->. reflexivity. }
      exists err, w'. repeat split; auto. discriminate. }
  cbn [ret]. unfold bind at 1. unfold en_mundo at 1. cbn [BEGIN modify].
  set (wB := {| db := db w; tx := Some (db w); minio := minio w;
                webhooks := webhooks w |}).
  unfold firmar_en_transaccion. unfold bind at 1.
  unfold en_mundo at 1, generar_secuencial at 1. cbn [db wB].
  destruct (puntos_emision (db w) !! punto_id) as [p0|] eqn:Hp.
  2:{ cbn [ret throw].
      destruct (Hcatch "Cannot read properties of null (reading 'toString')"%string
                  wB eq_refl eq_refl) as (err & w' & E & H1 & H2 & H3 & H4 & _).
      { intros _. reflexivity. }
      exists err, w'. repeat split; auto. discriminate. }
  set (w1 := con_db _ wB).
  unfold bind at 1. unfold en_mundo at 1, Integracion.clave_o_error.
  destruct (AccessKey.generarClaveAcceso _ _ _ _ _ _ _ _) as [k|n48 c48] eqn:Hk.
  2:{ cbn [throw].
      destruct (Hcatch "Clave base inválida"%string w1 eq_refl eq_refl)
        as (err & w' & E & H1 & H2 & H3 & H4 & _).
      { intros _. reflexivity. }
      exists err, w'. repeat split; auto.
      intros ? ? ? ? ? _ _ [= <-] Hk'. rewrite Hk in Hk'. discriminate. }
  cbn [ret]. unfold bind at 1. unfold signInvoiceXmlCustom, bind at 1, await at 1.
  destruct (signatureBlock env) as [bloque|e2].
  2:{ destruct (Hcatch e2 w1 eq_refl eq_refl)
        as (err & w' & E & H1 & H2 & H3 & H4 & _).
      { intros _. reflexivity. }
      exists err, w'. repeat split; auto. discriminate. }
  cbn [ret]. rewrite xmlString_sin_firma.
  unfold bind at 1. unfold generarPDFStream.
  rewrite xmlString_sin_infoTributaria. cbn [throw].
  destruct (Hcatch
              "Cannot read properties of undefined (reading 'claveAcceso')"%string
              w1 eq_refl eq_refl) as (err & w' & E & H1 & H2 & H3 & H4 & H5).
  { intros _. reflexivity. }
  exists err, w'. repeat split; auto.
Qed.

End FirmaExtraProps.

(* ===================================================================== *)
(** * Further properties of the tax calculator *)
(* ===================================================================== *)

Module AgrupacionProps.

Import Calculadora CalculadoraProps.


(** ** The lines at 0% *)








#[local] Set Warnings "-inexact-float".

(** Three lines at 0%, the tariff of the last written as -0. *)
Lemma totales_por_clase_ejemplo :
  let r := calcularTotalesEImpuestos
             [linea 2 0.1 0; linea 1 0.2 0; linea 3 1.05 (-0)]%float in
  totales r
  = {| totalSinImpuestos := Some 355%Z; totalDescuento := Some 0%Z;
       importeTotal := Some 355%Z; totalIva := Some 0%Z;
       subtotal_0 := Some 355%Z; subtotal_iva := Some 0%Z |}
  /\ length (totalConImpuestosXml r) = 1%nat.
Proof. vm_compute. split; reflexivity. Qed.

End AgrupacionProps.

(* ===================================================================== *)
(** * Further properties of the password encryption *)
(* ===================================================================== *)

Module CifradoExtraProps.

Import AccessKey Cifrado CifradoProps.

Section SinHipotesis.

Variable sha256 : Buffer -> Buffer.
Variable aes_256_cbc_cifrar : Buffer -> Buffer -> Buffer -> Buffer.
Variable aes_256_cbc_descifrar : Buffer -> Buffer -> Buffer -> option Buffer.
Variable trim : cadena -> cadena.
Variable utf8_con_reemplazo : Buffer -> cadena.

(** X21: without ENCRYPTION_KEY nothing is encrypted. When the variable
    is unset or empty, [encrypt] and [decrypt] hand back their argument:
    a password saved then is stored in clear, and a value that was
    encrypted while a key was configured comes back from [decrypt] as
    the stored ciphertext, not as the password. With a key, a missing or
    empty text is handed back by both as it is. *)
Theorem sin_clave_no_se_cifra (KEY_VAL : option cadena) :
  (es_falsy KEY_VAL = true ->
   (forall iv text,
      encrypt sha256 aes_256_cbc_cifrar trim KEY_VAL iv text = text)
   /\ (forall text,
         decrypt sha256 aes_256_cbc_descifrar trim utf8_con_reemplazo
           KEY_VAL text = text)
   /\ (forall otra iv text,
         decrypt sha256 aes_256_cbc_descifrar trim utf8_con_reemplazo KEY_VAL
           (encrypt sha256 aes_256_cbc_cifrar trim otra iv text)
         = encrypt sha256 aes_256_cbc_cifrar trim otra iv text))
  /\ (forall iv text,
        es_falsy text = true ->
        encrypt sha256 aes_256_cbc_cifrar trim KEY_VAL iv text = text
        /\ decrypt sha256 aes_256_cbc_descifrar trim utf8_con_reemplazo
             KEY_VAL text = text).
Proof.
  split.
  - intros Hk.
    assert (Hnone : ENCRYPTION_KEY sha256 trim KEY_VAL = None)
      by (unfold ENCRYPTION_KEY; rewrite Hk; reflexivity).
    assert (Hd : forall text,
              decrypt sha256 aes_256_cbc_descifrar trim utf8_con_reemplazo
                KEY_VAL text = text)
      by (intros text; unfold decrypt; rewrite Hnone; reflexivity).
    split; [|split].
    + intros iv text. unfold encrypt. rewrite Hnone. reflexivity.
    + exact Hd.
    + intros otra iv text. apply Hd.
  - intros iv text Ht. unfold encrypt, decrypt.
    destruct (ENCRYPTION_KEY sha256 trim KEY_VAL) as [key|]; [|split; reflexivity].
    destruct text as [t|]; [|split; reflexivity].
    rewrite Ht. split; reflexivity.
Qed.

(** X22: what [decrypt] computes on a stored value of the right form.
    With a key configured, a value made of the hexadecimal form of 16
    bytes, a colon and the hexadecimal form of a non-empty ciphertext is
    split at the colon, and both parts are decoded; the ciphertext is
    deciphered with AES-256-CBC under the key SHA-256 of the UTF-8
    encoding of the trimmed ENCRYPTION_KEY and the IV that the value
    carries. The result is the string that the deciphered bytes decode
    to as UTF-8, with U+FFFD where they are not well-formed, and the
    stored value itself when the decipher throws. *)
Theorem decrypt_formato (master_secret : cadena) (iv cifrado : Buffer) :
  master_secret <> [] -> length iv = IV_LENGTH -> cifrado <> [] ->
  let almacenado :=
    unidades (toString_hex iv) ++ DOS_PUNTOS :: unidades (toString_hex cifrado)
  in
  decrypt sha256 aes_256_cbc_descifrar trim utf8_con_reemplazo
    (Some master_secret) (Some almacenado)
  = Some (default almacenado
            (utf8_decode utf8_con_reemplazo
               <$> aes_256_cbc_descifrar
                     (sha256 (utf8_encode (trim master_secret))) iv cifrado)).
Proof.
  intros Hm Hiv Hc almacenado.
  assert (Hsplit : split DOS_PUNTOS almacenado
                   = [unidades (toString_hex iv);
                      unidades (toString_hex cifrado)]).
  { subst almacenado.
    rewrite split_primero by apply unidades_sin_separador.
    rewrite split_sin_separador by apply unidades_sin_separador. reflexivity. }
  assert (Hfrom : forall b, Buffer_from_hex_cadena (unidades (toString_hex b)) = b)
    by (intros b; rewrite Buffer_from_hex_unidades;
        apply Buffer_from_hex_toString_hex).
  destruct (aes_256_cbc_descifrar (sha256 (utf8_encode (trim master_secret)))
              iv cifrado) as [datos|] eqn:Hdes; cbn [fmap option_fmap option_map
                                                     default from_option id].
  - apply (decrypt_descifrado sha256 aes_256_cbc_descifrar trim
             utf8_con_reemplazo master_secret Hm almacenado
             (unidades (toString_hex iv)) [unidades (toString_hex cifrado)]).
    + apply includes_app_separador.
    + exact Hsplit.
    + apply unidades_no_vacio. intros ->. discriminate Hiv.
    + apply unidades_no_vacio, Hc.
    + rewrite Hfrom. exact Hiv.
    + cbn [join]. rewrite length_unidades, length_toString_hex. apply odd_doble.
    + cbn [join]. rewrite !Hfrom. exact Hdes.
  - apply (decrypt_tolerante sha256 aes_256_cbc_descifrar trim
             utf8_con_reemplazo master_secret Hm).
    right. exists (unidades (toString_hex iv)), [unidades (toString_hex cifrado)].
    split; [exact Hsplit|]. right. right. cbn [join]. rewrite !Hfrom. exact Hdes.
Qed.

End SinHipotesis.

Lemma sin_clave_no_se_cifra_witness :
  encrypt (fun b => b) cifrar_marca (fun s => s) None (lit "0123456789abcdef")
    (Some (unidades (lit "clave p12")))
  = Some (unidades (lit "clave p12")).
Proof.
  apply (proj1 (sin_clave_no_se_cifra (fun b => b) cifrar_marca descifrar_marca
                  (fun s => s) solo_reemplazo None) eq_refl).
Defined.

Lemma decrypt_formato_witness :
  decrypt (fun b => b) descifrar_marca (fun s => s) solo_reemplazo
    (Some (unidades (lit "secreto")))
    (Some (unidades (toString_hex (lit "0123456789abcdef")) ++ DOS_PUNTOS
           :: unidades (toString_hex (lit "#clave p12"))))
  = Some (unidades (lit "clave p12")).
Proof.
  apply (decrypt_formato (fun b => b) descifrar_marca (fun s => s)
           solo_reemplazo
           (unidades (lit "secreto")) (lit "0123456789abcdef")
           (lit "#clave p12")).
  - discriminate.
  - reflexivity.
  - discriminate.
Defined.

End CifradoExtraProps.

(* ===================================================================== *)
(** * Properties of the choice of certificate and key *)
(* ===================================================================== *)

Module CertificadoProps.

Import AccessKey Cifrado CifradoProps Sistema Certificado.

Lemma prioridad_1_2 b : prioridad_1 b = true -> prioridad_2 b = true.
Proof.
  unfold prioridad_1, prioridad_2, firma_y_no_repudio, solo_firma.
  destruct (cert b) as [c|]; [|discriminate].
  destruct (cA c); [discriminate|].
  destruct (keyUsage c) as [ku|]; [|discriminate].
  intros H. apply andb_prop in H as [H _]. exact H.
Qed.

Lemma prioridad_2_3 b : prioridad_2 b = true -> prioridad_3 b = true.
Proof.
  unfold prioridad_2, prioridad_3.
  destruct (cert b) as [c|]; [|discriminate].
  destruct (cA c); [discriminate|reflexivity].
Qed.

(** The bag on which the three searches settle. *)
Definition elegido (bags : list CertBag) : option CertBag :=
  o_si_no (o_si_no (List.find prioridad_1 bags) (List.find prioridad_2 bags))
          (List.find prioridad_3 bags).

Lemma elegido_Some bags b :
  elegido bags = Some b ->
  In b bags /\ prioridad_3 b = true
  /\ ((exists x, In x bags /\ prioridad_1 x = true) -> prioridad_1 b = true)
  /\ ((exists x, In x bags /\ prioridad_2 x = true) -> prioridad_2 b = true).
Proof.
  unfold elegido.
  destruct (List.find prioridad_1 bags) as [b1|] eqn:E1.
  { cbn. intros [= <-]. apply find_some in E1 as [Hin H1].
    split; [exact Hin|]. split; [apply prioridad_2_3, prioridad_1_2, H1|].
    split; intros _; [exact H1|apply prioridad_1_2, H1]. }
  destruct (List.find prioridad_2 bags) as [b2|] eqn:E2.
  { cbn. intros [= <-]. apply find_some in E2 as [Hin H2].
    split; [exact Hin|]. split; [apply prioridad_2_3, H2|].
    split; [|intros _; exact H2].
    intros (x & Hx & Hx1). rewrite (find_none _ _ E1 x Hx) in Hx1. discriminate. }
  cbn. intros E3. apply find_some in E3 as [Hin H3].
  split; [exact Hin|]. split; [exact H3|].
  split; intros (x & Hx & Hxp).
  - rewrite (find_none _ _ E1 x Hx) in Hxp. discriminate.
  - rewrite (find_none _ _ E2 x Hx) in Hxp. discriminate.
Qed.

Lemma elegido_None bags :
  elegido bags = None <-> forall b, In b bags -> prioridad_3 b = false.
Proof.
  unfold elegido. split.
  - destruct (List.find prioridad_1 bags); [discriminate|].
    destruct (List.find prioridad_2 bags); [discriminate|]. cbn.
    intros E3 b Hb. apply (find_none _ _ E3 b Hb).
  - intros Hall.
    assert (H3 : List.find prioridad_3 bags = None).
    { destruct (List.find prioridad_3 bags) as [b|] eqn:E; [|reflexivity].
      apply find_some in E as [Hin H]. rewrite (Hall b Hin) in H. discriminate. }
    assert (H2 : List.find prioridad_2 bags = None).
    { destruct (List.find prioridad_2 bags) as [b|] eqn:E; [|reflexivity].
      apply find_some in E as [Hin H]. apply prioridad_2_3 in H.
      rewrite (Hall b Hin) in H. discriminate. }
    assert (H1 : List.find prioridad_1 bags = None).
    { destruct (List.find prioridad_1 bags) as [b|] eqn:E; [|reflexivity].
      apply find_some in E as [Hin H]. apply prioridad_1_2, prioridad_2_3 in H.
      rewrite (Hall b Hin) in H. discriminate. }
    rewrite H1, H2, H3. reflexivity.
Qed.

(** X23: the signing certificate. The certificate that the signer picks
    comes from one of the bags of the P12, with the [localKeyId] of that
    bag, and is never one of a certification authority; it carries
    digitalSignature and nonRepudiation whenever some certificate that
    is not of an authority does, and digitalSignature whenever some such
    certificate does. The choice fails exactly when no bag holds a
    certificate that is not of an authority. When every bag holds a
    certificate, the choice of the invoicing service is the same bag. *)
Theorem seleccion_de_certificado (bags : list CertBag) :
  (forall c localKeyId,
     _seleccionarCertDeFirma bags = Ok (c, localKeyId) ->
     (exists b, In b bags /\ cert b = Some c
                /\ localKeyId = primero (cb_localKeyId b))
     /\ cA c = false
     /\ ((exists x, In x bags /\ prioridad_1 x = true) ->
         firma_y_no_repudio c = true)
     /\ ((exists x, In x bags /\ prioridad_2 x = true) -> solo_firma c = true))
  /\ ((exists e, _seleccionarCertDeFirma bags = Throw e)
      <-> forall b, In b bags -> prioridad_3 b = false)
  /\ (forall b,
        seleccionarCertificadoDeFirma bags = Ok b ->
        exists c, cert b = Some c
                  /\ _seleccionarCertDeFirma bags
                     = Ok (c, primero (cb_localKeyId b))).
Proof.
  unfold _seleccionarCertDeFirma, seleccionarCertificadoDeFirma.
  fold (elegido bags). split; [|split].
  - intros c id. destruct (elegido bags) as [b|] eqn:E; [|discriminate].
    apply elegido_Some in E as (Hin & H3 & H1 & H2).
    unfold prioridad_1, prioridad_2, prioridad_3 in H1, H2, H3.
    destruct (cert b) as [c0|] eqn:Hc; [|discriminate].
    intros [= <- <-]. split; [exists b; auto|].
    destruct (cA c0); [discriminate|]. split; [reflexivity|].
    split; assumption.
  - split.
    + intros [e He]. apply elegido_None.
      destruct (elegido bags) as [b|] eqn:E; [|reflexivity].
      apply elegido_Some in E as (_ & H3 & _). unfold prioridad_3 in H3.
      destruct (cert b); discriminate.
    + intros Hall. apply elegido_None in Hall. rewrite Hall. eauto.
  - intros b.
    destruct (existsb _ bags) eqn:Hex; [discriminate|].
    destruct (elegido bags) as [b0|] eqn:E; [|discriminate].
    intros [= ->]. apply elegido_Some in E as (_ & H3 & _).
    unfold prioridad_3 in H3.
    destruct (cert b) as [c|] eqn:Hc; [|discriminate].
    exists c. split; reflexivity.
Qed.

(** A P12 as the central bank issues it: the certificate of the
    authority, a certificate for encipherment and one for signing. *)
Definition bags_bce : list CertBag :=
  [ {| cert := Some {| cA := true;
                       keyUsage := Some {| digitalSignature := true;
                                           nonRepudiation := true;
                                           keyEncipherment := false |};
                       serialNumber := "01" |};
       cb_localKeyId := None |};
    {| cert := Some {| cA := false;
                       keyUsage := Some {| digitalSignature := false;
                                           nonRepudiation := false;
                                           keyEncipherment := true |};
                       serialNumber := "02" |};
       cb_localKeyId := Some [lit "id-cifrado"] |};
    {| cert := Some {| cA := false;
                       keyUsage := Some {| digitalSignature := true;
                                           nonRepudiation := true;
                                           keyEncipherment := false |};
                       serialNumber := "03" |};
       cb_localKeyId := Some [lit "id-firma"] |} ].

Lemma seleccion_de_certificado_witness :
  exists c, _seleccionarCertDeFirma bags_bce = Ok (c, Some (lit "id-firma"))
            /\ serialNumber c = "03"%string
            /\ cA c = false /\ firma_y_no_repudio c = true.
Proof.
  eexists. split; [reflexivity|]. split; [reflexivity|].
  destruct (proj1 (seleccion_de_certificado bags_bce) _ _ eq_refl)
    as (_ & Hca & H1 & _).
  split; [exact Hca|]. apply H1.
  eexists. split; [right; right; left; reflexivity|reflexivity].
Defined.


Lemma toString_hex_inj (a b : Buffer) : toString_hex a = toString_hex b -> a = b.
Proof.
  intros H. apply (f_equal Buffer_from_hex) in H.
  rewrite !Buffer_from_hex_toString_hex in H. exact H.
Qed.

Lemma last_In {A} (l : list A) x : last l = Some x -> In x l.
Proof.
  intros H. apply list_elem_of_In. apply last_Some in H as [l' ->].
  apply elem_of_app. right. apply list_elem_of_In. left. reflexivity.
Qed.

Lemma find_igual {A} (f g : A -> bool) l :
  (forall x, f x = g x) -> List.find f l = List.find g l.
Proof.
  intros H. induction l as [|x l IH]; [reflexivity|]. cbn.
  rewrite H, IH. reflexivity.
Qed.

Section Llave.

Variable toLowerCase : str -> str.

Let elegir := _seleccionarLlaveDeFirma toLowerCase.

(** X24: the signing key. The choice of the private key fails only on a
    P12 without keys, and otherwise returns the key of one of the bags.
    A single key is returned whatever its attributes. Among several
    keys, and when the certificate carries a non-empty [localKeyId], the
    first key whose first [localKeyId] is that same sequence of bytes is
    returned, even if another key is named "Signing Key"; when no
    identifier matches and no name holds "signing key", the last key of
    the list is returned. *)
Theorem seleccion_de_llave (keyBags : list KeyBag) (localKeyIdCert : option Buffer) :
  ((exists e, elegir keyBags localKeyIdCert = Throw e) <-> keyBags = [])
  /\ (forall k, elegir keyBags localKeyIdCert = Ok k ->
        exists bag, In bag keyBags /\ key bag = k)
  /\ (forall unica, elegir [unica] localKeyIdCert = Ok (key unica))
  /\ (forall certKeyId bag,
        (2 <= length keyBags)%nat ->
        localKeyIdCert = Some certKeyId -> certKeyId <> [] ->
        In bag keyBags -> primero (kb_localKeyId bag) = Some certKeyId ->
        exists elegida,
          elegir keyBags localKeyIdCert = Ok (key elegida)
          /\ List.find (fun b => bool_decide
                                   (primero (kb_localKeyId b) = Some certKeyId))
               keyBags = Some elegida)
  /\ (forall ultima,
        (2 <= length keyBags)%nat ->
        (forall certKeyId bag,
           no_vacio localKeyIdCert = Some certKeyId -> In bag keyBags ->
           primero (kb_localKeyId bag) <> Some certKeyId) ->
        (forall bag, In bag keyBags -> es_signing_key toLowerCase bag = false) ->
        last keyBags = Some ultima ->
        elegir keyBags localKeyIdCert = Ok (key ultima)).
Proof.
  unfold elegir, _seleccionarLlaveDeFirma.
  assert (Hid : forall certKeyId (b : KeyBag),
            certKeyId <> [] ->
            mismo_id certKeyId b
            = bool_decide (primero (kb_localKeyId b) = Some certKeyId)).
  { intros certKeyId b Hne. unfold mismo_id, no_vacio.
    destruct (primero (kb_localKeyId b)) as [[|c keyId]|].
    - rewrite bool_decide_eq_false_2; [reflexivity|].
      intros [= H]. apply Hne. symmetry. exact H.
    - destruct (decide (c :: keyId = certKeyId)) as [<-|Hd].
      + rewrite !bool_decide_eq_true_2; reflexivity.
      + rewrite !bool_decide_eq_false_2; [reflexivity| |].
        * intros [= H]. apply Hd. exact H.
        * intros H. apply Hd. apply toString_hex_inj. exact H.
    - rewrite bool_decide_eq_false_2; [reflexivity|discriminate]. }
  split; [|split; [|split; [|split]]].
  - split.
    + intros [e He]. destruct keyBags as [|b1 [|b2 resto]]; [reflexivity| |].
      * discriminate.
      * exfalso. revert He.
        destruct (match no_vacio localKeyIdCert with
                  | Some certKeyId => List.find (mismo_id certKeyId) (b1 :: b2 :: resto)
                  | None => None
                  end); [discriminate|].
        destruct (List.find _ (b1 :: b2 :: resto)); [discriminate|].
        destruct (last (b1 :: b2 :: resto)) eqn:El; [discriminate|].
        apply last_None in El. discriminate.
    + intros ->. eauto.
  - intros k. destruct keyBags as [|b1 [|b2 resto]]; [discriminate| |].
    + intros [= <-]. exists b1. split; [left|]; reflexivity.
    + set (l := b1 :: b2 :: resto).
      destruct (match no_vacio localKeyIdCert with
                | Some certKeyId => List.find (mismo_id certKeyId) l
                | None => None
                end) as [m|] eqn:Em.
      { intros [= <-]. exists m. split; [|reflexivity].
        destruct (no_vacio localKeyIdCert); [|discriminate].
        apply find_some in Em as [Hin _]. exact Hin. }
      destruct (List.find (es_signing_key toLowerCase) l) as [m|] eqn:En.
      { intros [= <-]. exists m. split; [|reflexivity].
        apply find_some in En as [Hin _]. exact Hin. }
      destruct (last l) as [m|] eqn:El; [|discriminate].
      intros [= <-]. exists m. split; [apply last_In; exact El|reflexivity].
  - reflexivity.
  - intros certKeyId bag Hlen -> Hne Hin Hbag.
    destruct keyBags as [|b1 [|b2 resto]]; [cbn in Hlen; lia|cbn in Hlen; lia|].
    set (l := b1 :: b2 :: resto) in *.
    assert (Hno : no_vacio (Some certKeyId) = Some certKeyId)
      by (destruct certKeyId; [contradiction|reflexivity]).
    rewrite Hno.
    rewrite (find_igual (mismo_id certKeyId)
               (fun b => bool_decide (primero (kb_localKeyId b) = Some certKeyId)))
      by (intros b; apply Hid; exact Hne).
    destruct (List.find _ l) as [m|] eqn:Em.
    + exists m. split; reflexivity.
    + exfalso. pose proof (find_none _ _ Em bag Hin) as Hf. cbv beta in Hf.
      rewrite bool_decide_eq_true_2 in Hf by exact Hbag. discriminate.
  - intros ultima Hlen Hsin Hnombre Hlast.
    destruct keyBags as [|b1 [|b2 resto]]; [cbn in Hlen; lia|cbn in Hlen; lia|].
    set (l := b1 :: b2 :: resto) in *.
    assert (Em : match no_vacio localKeyIdCert with
                 | Some certKeyId => List.find (mismo_id certKeyId) l
                 | None => None
                 end = None).
    { destruct (no_vacio localKeyIdCert) as [certKeyId|] eqn:Eid; [|reflexivity].
      destruct (List.find (mismo_id certKeyId) l) as [m|] eqn:Ef; [|reflexivity].
      exfalso. apply find_some in Ef as [Hin Hm].
      assert (Hne : certKeyId <> []).
      { intros ->. destruct localKeyIdCert as [[|]|]; discriminate. }
      rewrite (Hid _ _ Hne) in Hm. apply bool_decide_eq_true in Hm.
      apply (Hsin certKeyId m eq_refl Hin Hm). }
    rewrite Em.
    assert (En : List.find (es_signing_key toLowerCase) l = None).
    { destruct (List.find _ l) as [m|] eqn:Ef; [|reflexivity].
      apply find_some in Ef as [Hin Hm]. rewrite (Hnombre m Hin) in Hm.
      discriminate. }
    rewrite En, Hlast. reflexivity.
Qed.

End Llave.

(** The two keys of a P12 of the central bank. *)
Definition llaves_bce : list KeyBag :=
  [ {| key := "llave de firma";
       kb_localKeyId := Some [lit "id-firma"];
       kb_friendlyName := Some [lit "Signing Key"] |};
    {| key := "llave de cifrado";
       kb_localKeyId := Some [lit "id-cifrado"];
       kb_friendlyName := Some [lit "Decryption Key"] |} ].

Lemma seleccion_de_llave_witness :
  exists elegida,
    _seleccionarLlaveDeFirma (fun s => s) llaves_bce (Some (lit "id-cifrado"))
    = Ok (key elegida)
    /\ List.find (fun b => bool_decide
                             (primero (kb_localKeyId b) = Some (lit "id-cifrado")))
         llaves_bce = Some elegida.
Proof.
  apply (proj1 (proj2 (proj2 (proj2
           (seleccion_de_llave (fun s => s) llaves_bce (Some (lit "id-cifrado"))))))
           (lit "id-cifrado")
           {| key := "llave de cifrado";
              kb_localKeyId := Some [lit "id-cifrado"];
              kb_friendlyName := Some [lit "Decryption Key"] |}).
  - cbn. lia.
  - reflexivity.
  - discriminate.
  - right. left. reflexivity.
  - reflexivity.
Defined.

End CertificadoProps.

(* ===================================================================== *)
(** * Properties of POST /invoices/emit *)
(* ===================================================================== *)

Module EmitProps.

Import Sistema Emit.
Import CadenasProps PublicoProps EmisionIntegradaProps.
Local Open Scope mon_scope.

Lemma clave_valida_PENDING s :
  Publico.clave_valida ("PENDING-" +:+ s) = false.
Proof.
  unfold Publico.clave_valida. cbn. apply andb_false_r.
Qed.

#[local] Ltac otra :=
  cbn; intros [= <- <-]; split; [discriminate | reflexivity].

(** What an answer 200 with [invoice_id] and [estado] stands for. *)
Definition encolada (env : Entorno) (emisorId : option Z) (body : Cuerpo)
    (w w' : Mundo) (invoice_id : Z) (estado : string) : Prop :=
  exists e emisor balance its fila,
    emisorId = Some e /\ e <> 0
    /\ cliente body = true /\ items body = Some its /\ its <> []
    /\ emisores (db w) !! e = Some emisor
    /\ sin_firma (e_p12_path emisor) = false
    /\ user_credits (db w) !! e = Some balance /\ 0 < balance
    /\ firma_expirada env = false
    /\ estado = "PENDIENTE"%string
    /\ db w' = con_invoices (fun invs => invs ++ [fila]) (db w)
    /\ tx w' = tx w /\ minio w' = minio w /\ webhooks w' = webhooks w
    /\ i_id fila = invoice_id
    /\ i_emisor_id fila = e
    /\ i_estado fila = "PENDIENTE"%string
    /\ i_clave_acceso fila
       = "PENDING-" +:+ string_of_list_ascii (Cifrado.toString_hex (aleatorio env))
    /\ Publico.clave_valida (i_clave_acceso fila) = false
    /\ i_secuencial fila = None
    /\ i_xml_path fila = None /\ i_pdf_path fila = None
    /\ i_importe_total fila
       = Calculadora.importeTotal
           (Calculadora.totales (Calculadora.calcularTotalesEImpuestos its))
    /\ (exists punto,
          puntos_emision (db w) !! i_punto_emision_id fila = Some punto
          /\ pe_emisor_id punto = e).

(** X25: POST /invoices/emit only queues. An answer 200 means that the
    caller is identified, has a signature on file that is not expired
    and a positive balance, and that exactly one row was appended to
    [invoices]: in state PENDIENTE, of the caller, on one of its points,
    with the amount that the calculator gives, with no sequential, no
    XML and no PDF, and with a placeholder key ["PENDING-..."] that the
    public download routes refuse. Neither a credit nor a sequential is
    taken and nothing is stored. Every other answer leaves the world as
    it was. *)
Theorem post_emit_encola env emisorId body w :
  (forall invoice_id estado,
     fst (post_emit env emisorId body w) = Ok (R200 invoice_id estado) ->
     encolada env emisorId body w (snd (post_emit env emisorId body w))
       invoice_id estado)
  /\ (forall r,
        fst (post_emit env emisorId body w) = Ok r ->
        (forall invoice_id estado, r <> R200 invoice_id estado) ->
        snd (post_emit env emisorId body w) = w).
Proof.
  destruct (post_emit env emisorId body w) as [r0 w'] eqn:H.
  cbn [fst snd].
  enough (Hcasos :
    (forall invoice_id estado, r0 = Ok (R200 invoice_id estado) ->
       encolada env emisorId body w w' invoice_id estado)
    /\ ((forall invoice_id estado, r0 <> Ok (R200 invoice_id estado)) ->
        w' = w)).
  { destruct Hcasos as [H200 Hotra]. split; [exact H200|].
    intros r -> Hno. apply Hotra. intros i s [= Hr].
    exact (Hno i s Hr). }
  revert H. unfold post_emit.
  destruct (sin_emisor emisorId) eqn:He; [otra|].
  destruct emisorId as [e|]; [|discriminate]. cbn in He.
  apply Z.eqb_neq in He. cbn [default from_option id].
  destruct (cliente body) eqn:Hcli; cbn [negb orb]; [|otra].
  destruct (sin_items (items body)) eqn:Hits; [otra|].
  destruct (items body) as [[|it its]|] eqn:Hitems; try discriminate.
  cbn [default from_option id].
  unfold try_catch, bind at 1. unfold SELECT_emisor_balance, gets.
  destruct (emisores (db w) !! e) as [emisor|] eqn:Hem; [|otra].
  destruct (user_credits (db w) !! e) as [balance|] eqn:Hc; [|otra].
  destruct (sin_firma (e_p12_path emisor)) eqn:Hf; [otra|].
  destruct (balance <=? 0) eqn:Hb; [otra|].
  apply Z.leb_gt in Hb.
  destruct (firma_expirada env) eqn:Hexp; [otra|].
  unfold bind at 1.
  destruct (SELECT_punto _ _ e w) as [[l|?] w1] eqn:Hsel;
    [|unfold SELECT_punto, gets in Hsel; discriminate].
  destruct l as [|[punto_id p] resto].
  { unfold SELECT_punto, gets in Hsel. injection Hsel as _ <-. otra. }
  destruct (SELECT_punto_primero _ _ _ _ _ _ _ _ _ Hsel eq_refl)
    as (-> & Hp & _ & _ & Hpe).
  unfold bind at 1. unfold bind at 1.
  unfold INSERT_invoice. destruct (insert_ok env); [|otra].
  cbn [modify ret fst snd]. intros [= <- <-]. split.
  - intros invoice_id estado [= <- <-].
    unfold encolada.
    eexists e, emisor, balance, (it :: its), _.
    split; [reflexivity|]. split; [exact He|]. split; [exact Hcli|].
    split; [exact Hitems|]. split; [discriminate|]. split; [exact Hem|].
    split; [exact Hf|]. split; [exact Hc|]. split; [exact Hb|].
    split; [exact Hexp|]. split; [reflexivity|].
    split; [reflexivity|]. split; [reflexivity|]. split; [reflexivity|].
    split; [reflexivity|]. cbn [i_id i_emisor_id i_estado i_clave_acceso
      i_secuencial i_xml_path i_pdf_path i_importe_total i_punto_emision_id].
    split; [reflexivity|]. split; [reflexivity|]. split; [reflexivity|].
    split; [reflexivity|].
    split; [apply clave_valida_PENDING|].
    split; [reflexivity|]. split; [reflexivity|]. split; [reflexivity|].
    split; [reflexivity|].
    exists p. split; assumption.
  - intros Hno. exfalso. eapply Hno. reflexivity.
Qed.

Lemma post_emit_encola_witness :
  let env := {| firma_expirada := false;
                aleatorio := ascii_of_nat <$> [1; 2; 3; 4; 5; 6; 7; 255]%nat;
                NOW := 1000; insert_ok := true |} in
  let body := {| cliente := true;
                 items := Some [Calculadora.linea 1 100 15]%float;
                 establecimiento := None; punto_emision := None |} in
  let w := Escenarios.mundo_inicial 10 in
  fst (post_emit env (Some 1) body w) = Ok (R200 1 "PENDIENTE")
  /\ encolada env (Some 1) body w (snd (post_emit env (Some 1) body w))
       1 "PENDIENTE".
Proof.
  intros env body w. split; [vm_compute; reflexivity|].
  apply (proj1 (post_emit_encola env (Some 1) body w)).
  vm_compute. reflexivity.
Defined.

End EmitProps.

(* ===================================================================== *)
(** * Properties of the API keys *)
(* ===================================================================== *)

Module ApiKeysProps.

Import Sistema ApiKeys.
Import CadenasProps.
Local Open Scope mon_scope.

Lemma filter_nada {A} (f : A -> bool) (l : list A) :
  (forall x, In x l -> f x = false) -> List.filter f l = [].
Proof.
  induction l as [|x l IH]; intros Hf; [reflexivity|].
  cbn. rewrite (Hf x (or_introl eq_refl)).
  apply IH. intros y Hy. apply Hf. right. exact Hy.
Qed.

Lemma filter_alguno {A} (f : A -> bool) (l : list A) :
  List.filter f l <> [] -> exists x, In x l /\ f x = true.
Proof.
  destruct (List.filter f l) as [|x resto] eqn:Hl; [congruence|].
  intros _. exists x. apply filter_In. rewrite Hl. left. reflexivity.
Qed.

Lemma igual_sql_Some a b :
  igual_sql a b = true <-> exists x, a = Some x /\ b = Some x.
Proof.
  destruct a as [x|], b as [y|]; cbn; split;
    try discriminate; try (intros (z & ? & ?); discriminate).
  - intros Hxy. apply Z.eqb_eq in Hxy. subst. eauto.
  - intros (z & [= ->] & [= ->]). apply Z.eqb_refl.
Qed.

Lemma suya_spec id emisor_id k :
  suya id emisor_id k = true
  <-> k_id k = id /\ exists e, k_emisor_id k = Some e /\ emisor_id = Some e.
Proof.
  unfold suya. rewrite andb_true_iff, bool_decide_eq_true, igual_sql_Some.
  reflexivity.
Qed.

Lemma revocar_no_vigente ahora k : vigente (revocar ahora k) = false.
Proof. reflexivity. Qed.

(** The table after the UPDATE of DELETE /keys/:id. *)
Definition tras_revocar (env : Entorno) (id : string) (emisor_id : option Z)
    (t : Tabla) : Tabla :=
  (fun k => if suya id emisor_id k then revocar (NOW env) k else k) <$> t.

Lemma delete_key_casos env id emisor_id t :
  delete_key env id emisor_id t
  = if update_ok env then
      if (length (List.filter (suya id emisor_id) t) =? 0)%nat then
        (Ok (R404 "Llave no encontrada o no pertenece a tu usuario"),
         tras_revocar env id emisor_id t)
      else (Ok (R200 "API Key revocada exitosamente"),
            tras_revocar env id emisor_id t)
    else (Ok (R500 "error: UPDATE api_keys"), t).
Proof.
  unfold delete_key, UPDATE_revocar, try_catch, tras_revocar.
  destruct (update_ok env); [|reflexivity].
  cbn. destruct (length _ =? 0)%nat; reflexivity.
Qed.

Lemma tras_revocar_ajena env id emisor_id t :
  (forall k, In k t -> suya id emisor_id k = false) ->
  tras_revocar env id emisor_id t = t.
Proof.
  unfold tras_revocar. induction t as [|k t IH]; intros Hk; [reflexivity|].
  cbn. rewrite (Hk k (or_introl eq_refl)). f_equal.
  apply IH. intros k' Hk'. apply Hk. right. exact Hk'.
Qed.

Lemma In_tras_revocar env id emisor_id t k' :
  In k' (tras_revocar env id emisor_id t)
  <-> exists k, In k t
        /\ k' = if suya id emisor_id k then revocar (NOW env) k else k.
Proof.
  unfold tras_revocar. rewrite <- list_elem_of_In, list_elem_of_fmap.
  split; intros (k & H1 & H2); exists k.
  - split; [apply list_elem_of_In; exact H2|exact H1].
  - split; [exact H2|apply list_elem_of_In; exact H1].
Qed.

Section Llaves.

Variable sha256_hex : string -> string.

Lemma apiKeyMiddleware_casos env apiKey t :
  apiKey <> ""%string ->
  select_ok env = true ->
  fst (apiKeyMiddleware sha256_hex env (Some apiKey) t)
  = match List.filter
            (fun k => bool_decide (k_key_hash k = sha256_hex apiKey)
                      && vigente k) t with
    | [] => Ok (P403 "API Key inválida o revocada")
    | fila :: _ => Ok (Next (k_emisor_id fila) (k_nombre fila))
    end.
Proof.
  intros Hk Hsel. unfold apiKeyMiddleware, sin_llave, Calculadora.cadena_falsy.
  destruct (decide (apiKey = ""%string)) as [|_]; [contradiction|].
  cbn [default from_option id].
  unfold try_catch, bind at 1, SELECT_por_hash. rewrite Hsel. unfold gets.
  destruct (List.filter _ t) as [|fila resto]; [reflexivity|].
  unfold UPDATE_ultimo_uso. destruct (update_ok env); reflexivity.
Qed.

(** X26: a key that POST /keys hands out authenticates its owner. When
    the answer is 201 with [api_key], the column [revoked] defaults to
    false and no live row had the same hash before, then
    [apiKeyMiddleware] lets a request with that key through as the
    issuer who created it, under the name given. The key is ["kp_live_"]
    followed by the hexadecimal digits of the random bytes, 56
    characters for 24 bytes, and the table gains one row, which holds
    the hash. *)
Theorem llave_creada_autentica (env env' : Entorno) (emisor_id : option Z)
    (nombre : option string) (t : Tabla) key_id api_key created_at :
  fst (post_keys sha256_hex env emisor_id nombre t)
  = Ok (R201 key_id api_key created_at) ->
  k_revoked (por_defecto env) = Some false ->
  select_ok env' = true ->
  (forall fila, In fila t -> k_key_hash fila = sha256_hex api_key ->
     vigente fila = false) ->
  AccessKey.lit api_key
  = AccessKey.lit "kp_live_" ++ Cifrado.toString_hex (aleatorio env)
  /\ (length (aleatorio env) = 24%nat ->
      length (AccessKey.lit api_key) = 56%nat)
  /\ exists n fila,
       nombre = Some n
       /\ snd (post_keys sha256_hex env emisor_id nombre t) = t ++ [fila]
       /\ k_key_hash fila = sha256_hex api_key
       /\ k_id fila = key_id
       /\ fst (apiKeyMiddleware sha256_hex env' (Some api_key)
                 (snd (post_keys sha256_hex env emisor_id nombre t)))
          = Ok (Next emisor_id n).
Proof.
  unfold post_keys.
  destruct (sin_nombre nombre) eqn:Hn; [discriminate|].
  destruct nombre as [n|]; [|discriminate]. cbn [default from_option id].
  unfold try_catch, bind at 1, INSERT_api_key.
  destruct (insert_ok env); [|discriminate].
  cbn [bind modify ret fst snd]. intros [= <- <- _] Hrev Hsel Hnueva.
  assert (Hlit : AccessKey.lit
                   ("kp_live" +:+ "_"
                    +:+ string_of_list_ascii
                          (Cifrado.toString_hex (aleatorio env)))
                 = AccessKey.lit "kp_live_"
                   ++ Cifrado.toString_hex (aleatorio env)).
  { change ("kp_live" +:+ "_" +:+ ?s) with ("kp_live_" +:+ s).
    rewrite lit_app, lit_of_string. reflexivity. }
  split; [exact Hlit|]. split.
  { intros H24. rewrite Hlit, length_app, CifradoProps.length_toString_hex, H24.
    reflexivity. }
  eexists n, _.
  split; [reflexivity|]. split; [reflexivity|].
  split; [reflexivity|]. split; [reflexivity|].
  rewrite apiKeyMiddleware_casos; [|discriminate|exact Hsel].
  rewrite List.filter_app, (filter_nada _ t).
  - cbn. rewrite bool_decide_eq_true_2 by reflexivity.
    unfold vigente. cbn. rewrite Hrev. reflexivity.
  - intros fila Hin.
    destruct (bool_decide (k_key_hash fila = _)) eqn:Hh; [|reflexivity].
    apply bool_decide_eq_true in Hh. cbn. exact (Hnueva fila Hin Hh).
Qed.

(** X27: a revoked key no longer authenticates. After DELETE /keys/:id
    has answered 200, a request with a key whose live rows were all the
    one revoked (same id, same issuer) is answered 403 by
    [apiKeyMiddleware]. *)
Theorem llave_revocada_rechazada (env env' : Entorno) (id : string)
    (emisor_id : option Z) (apiKey : string) (t : Tabla) mensaje :
  fst (delete_key env id emisor_id t) = Ok (R200 mensaje) ->
  select_ok env' = true ->
  apiKey <> ""%string ->
  (forall fila, In fila t -> k_key_hash fila = sha256_hex apiKey ->
     vigente fila = true ->
     k_id fila = id /\ k_emisor_id fila = emisor_id) ->
  fst (apiKeyMiddleware sha256_hex env' (Some apiKey)
         (snd (delete_key env id emisor_id t)))
  = Ok (P403 "API Key inválida o revocada").
Proof.
  rewrite delete_key_casos.
  destruct (update_ok env); [|discriminate].
  destruct (length _ =? 0)%nat eqn:Hcount; [discriminate|].
  cbn [fst snd]. intros _ Hsel Hk Hunica.
  apply Nat.eqb_neq in Hcount.
  assert (Halguna : List.filter (suya id emisor_id) t <> []).
  { intros Hnil. rewrite Hnil in Hcount. apply Hcount. reflexivity. }
  apply filter_alguno in Halguna as (k0 & _ & Hk0).
  apply suya_spec in Hk0 as (_ & e & _ & He).
  rewrite apiKeyMiddleware_casos by assumption.
  rewrite filter_nada; [reflexivity|].
  intros k' Hk'. apply In_tras_revocar in Hk' as (k & Hin & ->).
  destruct (suya id emisor_id k) eqn:Hs.
  { rewrite revocar_no_vigente. apply andb_false_r. }
  destruct (bool_decide (k_key_hash k = _)) eqn:Hh; [|reflexivity].
  apply bool_decide_eq_true in Hh. cbn.
  destruct (vigente k) eqn:Hv; [|reflexivity].
  destruct (Hunica k Hin Hh Hv) as [Hid Hem].
  assert (Hsuya : suya id emisor_id k = true).
  { apply suya_spec. split; [exact Hid|]. exists e. rewrite Hem. auto. }
  congruence.
Qed.

End Llaves.

(** X28: nobody revokes the key of another issuer. When no row with the
    id of the request belongs to the caller, DELETE /keys/:id leaves the
    table as it was and answers 404, or 500 when the database refuses
    the UPDATE. *)
Theorem revocar_ajena (env : Entorno) (id : string) (emisor_id : option Z)
    (t : Tabla) :
  (forall fila, In fila t -> k_id fila = id ->
     k_emisor_id fila <> emisor_id) ->
  delete_key env id emisor_id t
  = (Ok (if update_ok env
         then R404 "Llave no encontrada o no pertenece a tu usuario"
         else R500 "error: UPDATE api_keys"), t).
Proof.
  intros Hajena.
  assert (Hno : forall k, In k t -> suya id emisor_id k = false).
  { intros k Hin. destruct (suya id emisor_id k) eqn:Hs; [|reflexivity].
    apply suya_spec in Hs as (Hid & e & Hke & He).
    exfalso. apply (Hajena k Hin Hid). congruence. }
  rewrite delete_key_casos, (tras_revocar_ajena _ _ _ _ Hno),
    (filter_nada _ _ Hno).
  destruct (update_ok env); reflexivity.
Qed.

#[local] Instance despues_transitiva : Transitive despues.
Proof. unfold despues. intros a b c Hab Hbc. lia. Qed.

#[local] Instance despues_total : Total despues.
Proof. unfold despues. intros a b. lia. Qed.

(** X29: a revoked key leaves the listing, and only it. After
    DELETE /keys/:id has answered 200, GET /keys of the same issuer
    lists exactly the keys of that issuer that were live before and have
    another id, the newest first. *)
Theorem revocada_no_listada (env env' : Entorno) (id : string)
    (emisor_id : option Z) (t : Tabla) mensaje keys :
  fst (delete_key env id emisor_id t) = Ok (R200 mensaje) ->
  fst (get_keys env' emisor_id (snd (delete_key env id emisor_id t)))
  = Ok (L200 keys) ->
  (forall l,
     In l keys
     <-> exists k, In k t /\ listar k = l /\ k_id k <> id
           /\ k_emisor_id k = emisor_id /\ k_revoked k = Some false)
  /\ StronglySorted (fun a b => l_created_at b <= l_created_at a) keys.
Proof.
  rewrite delete_key_casos.
  destruct (update_ok env); [|discriminate].
  destruct (length _ =? 0)%nat eqn:Hcount; [discriminate|].
  cbn [fst snd]. intros _.
  apply Nat.eqb_neq in Hcount.
  assert (Halguna : List.filter (suya id emisor_id) t <> []).
  { intros Hnil. rewrite Hnil in Hcount. apply Hcount. reflexivity. }
  apply filter_alguno in Halguna as (k0 & _ & Hk0).
  apply suya_spec in Hk0 as (_ & e & _ & ->).
  unfold get_keys, try_catch. destruct (select_ok env'); [|discriminate].
  cbn [bind gets ret fst]. intros [= <-].
  set (filtradas := List.filter _ (tras_revocar env id (Some e) t)).
  split.
  - intros l. rewrite <- list_elem_of_In, list_elem_of_fmap.
    setoid_rewrite merge_sort_Permutation.
    setoid_rewrite list_elem_of_In. unfold filtradas.
    setoid_rewrite filter_In. setoid_rewrite In_tras_revocar.
    split.
    + intros (k' & -> & (k & Hin & ->) & Hf).
      destruct (suya id (Some e) k) eqn:Hs.
      { rewrite revocar_no_vigente, andb_false_r in Hf. discriminate. }
      apply andb_true_iff in Hf as [He Hv].
      apply igual_sql_Some in He as (x & Hkx & [= <-]).
      exists k. split; [exact Hin|]. split; [reflexivity|].
      split.
      { intros Hid.
        assert (suya id (Some e) k = true); [|congruence].
        apply suya_spec. split; [exact Hid|]. exists e. auto. }
      split; [exact Hkx|].
      unfold vigente in Hv. destruct (k_revoked k) as [[|]|];
        try discriminate. reflexivity.
    + intros (k & Hin & <- & Hid & Hke & Hrev).
      assert (Hs : suya id (Some e) k = false).
      { destruct (suya id (Some e) k) eqn:Hs; [|reflexivity].
        apply suya_spec in Hs as [Hid' _]. contradiction. }
      exists k. split; [reflexivity|]. split.
      * exists k. rewrite Hs. auto.
      * apply andb_true_iff. split.
        -- apply igual_sql_Some. exists e. auto.
        -- unfold vigente. rewrite Hrev. reflexivity.
  - pose proof (StronglySorted_merge_sort despues filtradas) as Hs.
    induction Hs as [|k l Hl IH Hk]; [constructor|].
    cbn. constructor; [exact IH|].
    apply List.Forall_forall. intros x Hx.
    apply list_elem_of_In, list_elem_of_fmap in Hx as (k' & -> & Hk').
    rewrite List.Forall_forall in Hk. apply Hk, list_elem_of_In, Hk'.
Qed.

(** A table with one live key of issuer 1 and one of issuer 2, and a
    stand-in for the hash. *)
Definition marca (s : string) : string := "sha256:" +:+ s.

Definition llave_de (id : string) (emisor : Z) (raw : string) (creada : Z)
  : ApiKey :=
  {| k_id := id; k_emisor_id := Some emisor; k_key_hash := marca raw;
     k_key_prefix := "kp_live"; k_nombre := "App " +:+ id;
     k_revoked := Some false; k_created_at := creada;
     k_last_used_at := None; k_revoked_at := None |}.

Definition tabla_ejemplo : Tabla :=
  [ llave_de "k1" 1 "kp_live_aa" 10; llave_de "k2" 2 "kp_live_bb" 20;
    llave_de "k3" 1 "kp_live_cc" 30 ].

Definition entorno_ejemplo : Entorno :=
  {| aleatorio := ascii_of_nat <$> seq 1 24;
     por_defecto :=
       {| k_id := "k4"; k_emisor_id := None; k_key_hash := "";
          k_key_prefix := ""; k_nombre := ""; k_revoked := Some false;
          k_created_at := 40; k_last_used_at := None; k_revoked_at := None |};
     NOW := 50; select_ok := true; insert_ok := true; update_ok := true |}.

Lemma llave_creada_autentica_witness :
  let api_key :=
    "kp_live_0102030405060708090a0b0c0d0e0f101112131415161718"%string in
  let t' :=
    snd (post_keys marca entorno_ejemplo (Some 2) (Some "Contabilidad")
           tabla_ejemplo) in
  fst (post_keys marca entorno_ejemplo (Some 2) (Some "Contabilidad")
         tabla_ejemplo) = Ok (R201 "k4" api_key 40)
  /\ length (AccessKey.lit api_key) = 56%nat
  /\ fst (apiKeyMiddleware marca entorno_ejemplo (Some api_key) t')
     = Ok (Next (Some 2) "Contabilidad").
Proof.
  intros api_key t'.
  assert (H201 : fst (post_keys marca entorno_ejemplo (Some 2)
                        (Some "Contabilidad") tabla_ejemplo)
                 = Ok (R201 "k4" api_key 40)) by (vm_compute; reflexivity).
  split; [exact H201|].
  destruct (llave_creada_autentica marca entorno_ejemplo entorno_ejemplo
              (Some 2) (Some "Contabilidad") tabla_ejemplo "k4" api_key 40
              H201 eq_refl eq_refl)
    as (_ & H56 & n & fila & Hn & _ & _ & _ & Hnext).
  - intros fila Hin Hh. vm_compute in Hin.
    destruct Hin as [<-|[<-|[<-|[]]]]; vm_compute in Hh; discriminate.
  - split; [apply H56; reflexivity|].
    injection Hn as <-. exact Hnext.
Defined.

Lemma llave_revocada_rechazada_witness :
  fst (delete_key entorno_ejemplo "k3" (Some 1) tabla_ejemplo)
  = Ok (R200 "API Key revocada exitosamente")
  /\ fst (apiKeyMiddleware marca entorno_ejemplo (Some "kp_live_cc")
            tabla_ejemplo)
     = Ok (Next (Some 1) "App k3")
  /\ fst (apiKeyMiddleware marca entorno_ejemplo (Some "kp_live_cc")
            (snd (delete_key entorno_ejemplo "k3" (Some 1) tabla_ejemplo)))
     = Ok (P403 "API Key inválida o revocada").
Proof.
  split; [vm_compute; reflexivity|]. split; [vm_compute; reflexivity|].
  apply (llave_revocada_rechazada marca entorno_ejemplo entorno_ejemplo "k3"
           (Some 1) "kp_live_cc" tabla_ejemplo
           "API Key revocada exitosamente").
  - vm_compute. reflexivity.
  - reflexivity.
  - discriminate.
  - intros fila Hin Hh _. vm_compute in Hin.
    destruct Hin as [<-|[<-|[<-|[]]]]; vm_compute in Hh;
      try discriminate. split; reflexivity.
Defined.

Lemma revocar_ajena_witness :
  delete_key entorno_ejemplo "k2" (Some 1) tabla_ejemplo
  = (Ok (R404 "Llave no encontrada o no pertenece a tu usuario"),
     tabla_ejemplo).
Proof.
  apply (revocar_ajena entorno_ejemplo "k2" (Some 1) tabla_ejemplo).
  intros fila Hin Hid. vm_compute in Hin.
  destruct Hin as [<-|[<-|[<-|[]]]]; vm_compute in Hid; discriminate.
Defined.

Lemma revocada_no_listada_witness :
  let t' := snd (delete_key entorno_ejemplo "k3" (Some 1) tabla_ejemplo) in
  fst (get_keys entorno_ejemplo (Some 1) tabla_ejemplo)
  = Ok (L200 [listar (llave_de "k3" 1 "kp_live_cc" 30);
              listar (llave_de "k1" 1 "kp_live_aa" 10)])
  /\ fst (get_keys entorno_ejemplo (Some 1) t')
     = Ok (L200 [listar (llave_de "k1" 1 "kp_live_aa" 10)])
  /\ forall l,
       In l [listar (llave_de "k1" 1 "kp_live_aa" 10)]
       <-> exists k, In k tabla_ejemplo /\ listar k = l /\ k_id k <> "k3"%string
             /\ k_emisor_id k = Some 1 /\ k_revoked k = Some false.
Proof.
  intros t'.
  split; [vm_compute; reflexivity|]. split; [vm_compute; reflexivity|].
  apply (revocada_no_listada entorno_ejemplo entorno_ejemplo "k3" (Some 1)
           tabla_ejemplo "API Key revocada exitosamente").
  - vm_compute. reflexivity.
  - vm_compute. reflexivity.
Defined.

End ApiKeysProps.

(* ===================================================================== *)
(** * Properties of the recharge of credits *)
(* ===================================================================== *)

Module AdminProps.

Import Sistema Admin.
Local Open Scope mon_scope.

Lemma serviceMiddleware_pasa N8N_API_KEY n8nKey :
  serviceMiddleware N8N_API_KEY n8nKey = None ->
  exists k, n8nKey = Some k /\ N8N_API_KEY = Some k /\ k <> ""%string.
Proof.
  unfold serviceMiddleware, Calculadora.cadena_falsy.
  destruct n8nKey as [k|]; [|discriminate].
  destruct (decide (k = ""%string)) as [|Hk]; [discriminate|].
  cbn [orb]. case_bool_decide as Hcfg; [|discriminate].
  intros _. exists k. auto.
Qed.

Lemma SELECT_id_por_ruc_primero r s e resto :
  fst <$> List.filter (fun '(_, e) => bool_decide (e_ruc e = r))
            (map_to_list (emisores (db (mundo s)))) = e :: resto ->
  exists emisor, emisores (db (mundo s)) !! e = Some emisor /\ e_ruc emisor = r.
Proof.
  intros Hl.
  assert (Hin : e ∈ fst <$> List.filter
                              (fun '(_, e) => bool_decide (e_ruc e = r))
                              (map_to_list (emisores (db (mundo s)))))
    by (rewrite Hl; left).
  apply list_elem_of_fmap in Hin as ([e' emisor] & -> & Hin).
  apply list_elem_of_In, filter_In in Hin as [Hin Hr].
  apply list_elem_of_In, elem_of_map_to_list in Hin.
  apply bool_decide_eq_true in Hr. exists emisor. auto.
Qed.

(** The row that a recharge writes to [transaction_logs]. *)
Definition asiento (e : Z) (monto : Valor) (body : Cuerpo) : TransactionLog :=
  {| tl_target_emisor_id := e;
     tl_amount := texto monto;
     tl_action_type := "STRIPE_RECHARGE";
     tl_description :=
       "Recarga n8n - Ref: " +:+ referencia (reference_id body) |}.

(** What an answer 200 with [nuevo_balance] stands for. *)
Definition acreditada (N8N_API_KEY n8nKey : option string) (body : Cuerpo)
    (s s' : Estado) (nuevo_balance : Z) : Prop :=
  exists k r monto a e emisor anterior,
    n8nKey = Some k /\ N8N_API_KEY = Some k /\ k <> ""%string
    /\ ruc body = Some r /\ truthy r = true
    /\ amount body = Some monto /\ truthy monto = true
    /\ entero monto = Some a
    /\ emisores (db (mundo s)) !! e = Some emisor /\ e_ruc emisor = texto r
    /\ user_credits (db (mundo s)) !! e = Some anterior
    /\ nuevo_balance = anterior + a
    /\ db (mundo s')
       = con_user_credits (insert e (anterior + a)) (db (mundo s))
    /\ transaction_logs s' = transaction_logs s ++ [asiento e monto body]
    /\ tx (mundo s') = None /\ tx_logs s' = None
    /\ minio (mundo s') = minio (mundo s)
    /\ webhooks (mundo s') = webhooks (mundo s).

(** What any other answer stands for. *)
Definition sin_acreditar (body : Cuerpo) (s s' : Estado) (r : Respuesta)
  : Prop :=
  db (mundo s') = db (mundo s)
  /\ minio (mundo s') = minio (mundo s)
  /\ webhooks (mundo s') = webhooks (mundo s)
  /\ (transaction_logs s' = transaction_logs s
      \/ exists e emisor monto,
           r = R500 "Cannot read properties of undefined (reading 'balance')"
           /\ emisores (db (mundo s)) !! e = Some emisor
           /\ Some (e_ruc emisor) = texto <$> ruc body
           /\ amount body = Some monto
           /\ user_credits (db (mundo s)) !! e = None
           /\ transaction_logs s'
              = transaction_logs s ++ [asiento e monto body]).

#[local] Ltac nada :=
  cbn; intros [= <- <-]; split; [discriminate|];
  intros _; repeat split; try reflexivity; try assumption;
  left; first [reflexivity | assumption].

#[local] Ltac deshecho s Ht Hl :=
  destruct s as [[d t m wh] logs tl]; cbn in Ht, Hl; subst t tl; nada.

Lemma topup_casos N8N_API_KEY n8nKey env body s r s' :
  tx (mundo s) = None -> tx_logs s = None ->
  topup N8N_API_KEY n8nKey env body s = (Ok r, s') ->
  (forall nuevo_balance, r = R200 nuevo_balance ->
     acreditada N8N_API_KEY n8nKey body s s' nuevo_balance)
  /\ ((forall nuevo_balance, r <> R200 nuevo_balance) ->
      sin_acreditar body s s' r).
Proof.
  intros Ht Hl. unfold topup.
  destruct (serviceMiddleware N8N_API_KEY n8nKey) as [resp|] eqn:Hmw.
  { unfold serviceMiddleware in Hmw.
    destruct (_ || _) in Hmw; [|discriminate]. injection Hmw as <-. nada. }
  apply serviceMiddleware_pasa in Hmw as (k & -> & -> & Hk).
  unfold post_topup.
  destruct (falta (ruc body)) eqn:Hruc; [nada|].
  destruct (falta (amount body)) eqn:Hmonto; [nada|].
  destruct (ruc body) as [ru|] eqn:Hr; [|discriminate].
  destruct (amount body) as [monto|] eqn:Ha; [|discriminate].
  cbn in Hruc, Hmonto. apply negb_false_iff in Hruc, Hmonto.
  cbn [orb default from_option id fmap option_fmap option_map mbind
       option_bind].
  unfold try_catch, bind at 1. unfold BEGIN at 1.
  cbn [bind en_mundo Sistema.BEGIN modify mundo transaction_logs tx_logs].
  unfold bind at 1. unfold SELECT_id_por_ruc, gets.
  cbn [mundo db].
  destruct (fst <$> List.filter _ (map_to_list (emisores (db (mundo s)))))
    as [|e resto] eqn:Hsel.
  { cbn. deshecho s Ht Hl. }
  apply SELECT_id_por_ruc_primero in Hsel as (emisor & Hem & Hruc').
  unfold bind at 1. unfold UPDATE_user_credits_recarga.
  destruct (entero monto) as [a|] eqn:Hent.
  2:{ cbn. deshecho s Ht Hl. }
  destruct (update_ok env).
  2:{ cbn. deshecho s Ht Hl. }
  unfold bind at 1. unfold gets. cbn [mundo db].
  destruct (user_credits (db (mundo s)) !! e) as [anterior|] eqn:Hc.
  - cbn [bind en_mundo modify ret mundo transaction_logs tx_logs].
    unfold INSERT_transaction_log. destruct (insert_ok env).
    2:{ cbn. deshecho s Ht Hl. }
    cbn. intros [= <- <-]. split.
    + intros nuevo [= <-].
      exists k, ru, monto, a, e, emisor, anterior. cbn.
      repeat split; try reflexivity; assumption.
    + intros Hno. exfalso. exact (Hno _ eq_refl).
  - cbn [bind ret]. unfold INSERT_transaction_log. destruct (insert_ok env).
    2:{ cbn. deshecho s Ht Hl. }
    cbn. intros [= <- <-]. split; [discriminate|].
    intros _. repeat split; try reflexivity.
    right. exists e, emisor, monto.
    repeat split; try reflexivity; try assumption.
    rewrite Hr. cbn. rewrite Hruc'. reflexivity.
Qed.

(** X30: what a recharge does, by its answer, on a connection with no
    transaction open. The route always answers. An answer 200 means
    that the header [x-n8n-key] equals a configured, non-empty
    N8N_API_KEY, that [ruc] and [amount] are truthy, that
    [parseInt(amount)] is an integer [a] and that the balance of an
    issuer with the RUC of the request went from [b] to [b + a], with
    one row added to [transaction_logs] that holds [amount] as it came;
    the answer carries the new balance. Nothing asks [a] to be positive
    or other than zero: the string ["0"] is answered 200 with nothing
    credited, and a negative amount lowers the balance. Under every
    other answer no balance changes; the log is unchanged too, except
    that for an issuer without a row in [user_credits] the log row is
    committed and the answer is 500. *)
Theorem topup_por_respuesta (N8N_API_KEY n8nKey : option string)
    (env : Entorno) (body : Cuerpo) (s : Estado) :
  tx (mundo s) = None -> tx_logs s = None ->
  exists r,
    fst (topup N8N_API_KEY n8nKey env body s) = Ok r
    /\ (forall nuevo_balance, r = R200 nuevo_balance ->
          acreditada N8N_API_KEY n8nKey body s
            (snd (topup N8N_API_KEY n8nKey env body s)) nuevo_balance)
    /\ ((forall nuevo_balance, r <> R200 nuevo_balance) ->
        sin_acreditar body s (snd (topup N8N_API_KEY n8nKey env body s)) r).
Proof.
  intros Ht Hl.
  destruct (topup N8N_API_KEY n8nKey env body s) as [[r|err] s'] eqn:H.
  - exists r. split; [reflexivity|].
    exact (topup_casos _ _ _ _ _ _ _ Ht Hl H).
  - exfalso. revert H. unfold topup, post_topup, try_catch.
    destruct (serviceMiddleware _ _); [discriminate|].
    destruct (_ || _); [discriminate|].
    destruct (bind BEGIN _ s) as [[?|?] ?]; discriminate.
Qed.

(** Three recharges for the issuer of scenario S1, whose balance is 3:
    the number -5, the string ["0"], and the number 7 when the issuer
    has no row in [user_credits]. *)
Definition numero (n : Z) (escrito : string) : Valor :=
  {| truthy := negb (n =? 0); texto := escrito; cadena := escrito;
     entero := Some n |}.

Definition ruc_s1 : Valor :=
  {| truthy := true; texto := "1790011674001"; cadena := "1790011674001";
     entero := Some 1790011674001 |}.

Definition recarga_negativa : Cuerpo :=
  {| ruc := Some ruc_s1; amount := Some (numero (-5) "-5");
     reference_id := None |}.

Definition recarga_cero : Cuerpo :=
  {| ruc := Some ruc_s1;
     amount := Some {| truthy := true; texto := "0"; cadena := "0";
                       entero := Some 0 |};
     reference_id := None |}.

Definition recarga_siete : Cuerpo :=
  {| ruc := Some ruc_s1; amount := Some (numero 7 "7");
     reference_id := None |}.

Definition estado_ejemplo : Estado :=
  {| mundo := Escenarios.mundo_inicial 3; transaction_logs := [];
     tx_logs := None |}.

Definition estado_sin_fila : Estado :=
  {| mundo := con_db (con_user_credits (delete 1))
                (Escenarios.mundo_inicial 3);
     transaction_logs := []; tx_logs := None |}.

Lemma topup_por_respuesta_witness :
  let env := {| update_ok := true; insert_ok := true |} in
  let llave := Some "secreto-n8n"%string in
  acreditada llave llave recarga_negativa estado_ejemplo
    (snd (topup llave llave env recarga_negativa estado_ejemplo)) (-2)
  /\ acreditada llave llave recarga_cero estado_ejemplo
       (snd (topup llave llave env recarga_cero estado_ejemplo)) 3
  /\ sin_acreditar recarga_siete estado_sin_fila
       (snd (topup llave llave env recarga_siete estado_sin_fila))
       (R500 "Cannot read properties of undefined (reading 'balance')")
  /\ transaction_logs
       (snd (topup llave llave env recarga_siete estado_sin_fila))
     = [asiento 1 (numero 7 "7") recarga_siete].
Proof.
  intros env llave. split; [|split; [|split]].
  - destruct (topup_por_respuesta llave llave env recarga_negativa
                estado_ejemplo eq_refl eq_refl) as (r & Hr & H200 & _).
    apply H200. vm_compute in Hr. injection Hr as <-. reflexivity.
  - destruct (topup_por_respuesta llave llave env recarga_cero
                estado_ejemplo eq_refl eq_refl) as (r & Hr & H200 & _).
    apply H200. vm_compute in Hr. injection Hr as <-. reflexivity.
  - destruct (topup_por_respuesta llave llave env recarga_siete
                estado_sin_fila eq_refl eq_refl) as (r & Hr & _ & Hotra).
    vm_compute in Hr. injection Hr as <-. apply Hotra. discriminate.
  - vm_compute. reflexivity.
Defined.

End AdminProps.
